(** * Shipper chat: presence registry, message router, session resolver,
      paged message fetch.

    A shallow embedding of
      - [src/server/websocket.ts]            (Socket.io relay),
      - [src/app/api/sessions/route.ts]      (POST: find-or-create session),
      - [src/app/api/sessions/[id]/route.ts] (GET: one page of a session),
      - [src/app/api/messages/route.ts]      (POST: create a message),
    over an explicit model of the Prisma tables they read and write. *)

From Stdlib Require Import String Ascii List ZArith Lia Bool Arith.
From Stdlib Require Import Sorting.Sorted Sorting.Permutation.
Import ListNotations.
Open Scope string_scope.

Set Implicit Arguments.

(* ------------------------------------------------------------------ *)
(** ** JavaScript values *)

(** [!s] is true for [undefined] and for the empty string. Optional
    fields of a payload are [option string]s. *)
Definition truthy (s : string) : bool := negb (String.eqb s "").

Definition truthy_opt (o : option string) : bool :=
  match o with
  | Some s => truthy s
  | None => false
  end.

(** [[a, b].sort()]: the default comparator orders strings by code unit;
    the two elements are swapped exactly when [b] is smaller than [a]. *)
Definition sort2 (a b : string) : string * string :=
  if String.ltb b a then (b, a) else (a, b).

(** [Map<string, string>]: keys are kept in insertion order, [set] on a key
    already present replaces the value in place, as [Array.from(m.keys())]
    observes. *)
Module JsMap.
Definition t := list (string * string).

Definition empty : t := [].

Fixpoint get (m : t) (k : string) : option string :=
  match m with
  | [] => None
  | (k', v) :: m' => if String.eqb k' k then Some v else get m' k
  end.

Fixpoint set (m : t) (k v : string) : t :=
  match m with
  | [] => [(k, v)]
  | (k', v') :: m' =>
      if String.eqb k' k then (k', v) :: m' else (k', v') :: set m' k v
  end.

Fixpoint delete (m : t) (k : string) : t :=
  match m with
  | [] => []
  | (k', v') :: m' =>
      if String.eqb k' k then delete m' k else (k', v') :: delete m' k
  end.

Definition keys (m : t) : list string := map fst m.
End JsMap.

(* ------------------------------------------------------------------ *)
(** ** The Prisma schema (migration.sql) *)

Module User.
Record t := mk
  { id : string;
    email : string;
    name : option string;
    image : option string;
    password : option string;
    provider : string }.
End User.

(** The [select: { id, name, email, image, provider }] projection every
    route and the relay use when they join a user. *)
Module UserSelect.
Record t := mk
  { id : string;
    name : option string;
    email : string;
    image : option string;
    provider : string }.

Definition of_user (u : User.t) : t :=
  mk (User.id u) (User.name u) (User.email u) (User.image u)
     (User.provider u).
End UserSelect.

Module ChatSession.
Record t := mk
  { id : string;
    user1Id : string;
    user2Id : string;
    isAiChat : bool;
    createdAt : nat;
    updatedAt : nat }.

Definition with_updatedAt (s : t) (now : nat) : t :=
  mk (id s) (user1Id s) (user2Id s) (isAiChat s) (createdAt s) now.
End ChatSession.

Module Message.
Record t := mk
  { id : string;
    content : string;
    senderId : string;
    recipientId : string;
    sessionId : string;
    isAiMessage : bool;
    createdAt : nat }.
End Message.

(** A message row with [include: { sender, recipient }]. *)
Module MessageJoined.
Record t := mk
  { row : Message.t;
    sender : UserSelect.t;
    recipient : UserSelect.t }.
End MessageJoined.

(** A session row with [include: { user1, user2, messages }]; the routes
    differ in what a message carries. *)
Module SessionJoined.
Record t (M : Type) := mk
  { row : ChatSession.t;
    user1 : UserSelect.t;
    user2 : UserSelect.t;
    messages : list M }.
End SessionJoined.

Record DB := mkDB
  { users : list User.t;
    chatSessions : list ChatSession.t;
    messages : list Message.t }.

Inductive PrismaError :=
| P2002   (* unique constraint failed *)
| P2003   (* foreign key constraint failed *)
| P2025   (* record to update not found *)
| PInconsistent   (* a required relation resolved to nothing *)
| PValidation.    (* an argument the query engine refuses *)

(** Values the client library draws for a new row: the [cuid()] of the
    primary key and the clock reading for [CURRENT_TIMESTAMP]. *)
Record Fresh := mkFresh
  { newId : string;
    now : nat }.

Module Prisma.

Definition user_findUnique (db : DB) (id : string) : option User.t :=
  find (fun u => String.eqb (User.id u) id) (users db).

Definition select_user (db : DB) (id : string) : option UserSelect.t :=
  option_map UserSelect.of_user (user_findUnique db id).

(** [chatSession.findUnique({ where: { id } })] *)
Definition chatSession_findUnique (db : DB) (id : string)
  : option ChatSession.t :=
  find (fun s => String.eqb (ChatSession.id s) id) (chatSessions db).

(** [chatSession.findUnique({ where: { user1Id_user2Id: {..} } })] *)
Definition chatSession_findUnique_pair (db : DB) (user1Id user2Id : string)
  : option ChatSession.t :=
  find (fun s => String.eqb (ChatSession.user1Id s) user1Id
                 && String.eqb (ChatSession.user2Id s) user2Id)
       (chatSessions db).

(** [chatSession.create({ data: { user1Id, user2Id } })]: the primary key
    and the unique index on (user1Id, user2Id) are checked on insert, the
    two foreign keys to [User] after it. *)
Definition chatSession_create (f : Fresh) (db : DB) (user1Id user2Id : string)
  : PrismaError + (ChatSession.t * DB) :=
  match chatSession_findUnique db (newId f),
        chatSession_findUnique_pair db user1Id user2Id with
  | None, None =>
      match user_findUnique db user1Id, user_findUnique db user2Id with
      | Some _, Some _ =>
          let s := ChatSession.mk (newId f) user1Id user2Id false
                                  (now f) (now f) in
          inr (s, mkDB (users db) (chatSessions db ++ [s]) (messages db))
      | _, _ => inl P2003
      end
  | _, _ => inl P2002
  end.

(** [chatSession.update({ where: { id }, data: { updatedAt } })] *)
Definition chatSession_update (db : DB) (id : string) (updatedAt : nat)
  : PrismaError + DB :=
  match chatSession_findUnique db id with
  | None => inl P2025
  | Some _ =>
      inr (mkDB (users db)
                (map (fun s => if String.eqb (ChatSession.id s) id
                               then ChatSession.with_updatedAt s updatedAt
                               else s)
                     (chatSessions db))
                (messages db))
  end.

Definition message_findUnique (db : DB) (id : string) : option Message.t :=
  find (fun m => String.eqb (Message.id m) id) (messages db).

(** [message.create({ data: { content, senderId, recipientId, sessionId },
    include: { sender, recipient } })] *)
Definition message_create (f : Fresh) (db : DB)
           (content senderId recipientId sessionId : string)
  : PrismaError + (MessageJoined.t * DB) :=
  match message_findUnique db (newId f) with
  | Some _ => inl P2002
  | None =>
      match select_user db senderId, select_user db recipientId,
            chatSession_findUnique db sessionId with
      | Some s, Some r, Some _ =>
          let m := Message.mk (newId f) content senderId recipientId
                              sessionId false (now f) in
          inr (MessageJoined.mk m s r,
               mkDB (users db) (chatSessions db) (messages db ++ [m]))
      | _, _, _ => inl P2003
      end
  end.

(** [where: { sessionId }] over the message table. *)
Definition messages_of (db : DB) (sessionId : string) : list Message.t :=
  filter (fun m => String.eqb (Message.sessionId m) sessionId) (messages db).

(** [message.count({ where: { sessionId } })] *)
Definition message_count (db : DB) (sessionId : string) : Z :=
  Z.of_nat (length (messages_of db sessionId)).

(** [orderBy: { createdAt: "asc" }]: rows with equal timestamps keep
    their insertion order. *)
Fixpoint insert_by_createdAt (m : Message.t) (l : list Message.t)
  : list Message.t :=
  match l with
  | [] => [m]
  | x :: l' =>
      if Nat.ltb (Message.createdAt m) (Message.createdAt x)
      then m :: l
      else x :: insert_by_createdAt m l'
  end.

Definition orderBy_createdAt_asc (l : list Message.t) : list Message.t :=
  fold_left (fun acc m => insert_by_createdAt m acc) l [].

(** [include: { sender, recipient }] on a fetched row. *)
Definition join_message (db : DB) (m : Message.t)
  : PrismaError + MessageJoined.t :=
  match select_user db (Message.senderId m),
        select_user db (Message.recipientId m) with
  | Some s, Some r => inr (MessageJoined.mk m s r)
  | _, _ => inl PInconsistent
  end.

Fixpoint join_messages (db : DB) (l : list Message.t)
  : PrismaError + list MessageJoined.t :=
  match l with
  | [] => inr []
  | m :: l' =>
      match join_message db m, join_messages db l' with
      | inr j, inr js => inr (j :: js)
      | inl e, _ => inl e
      | _, inl e => inl e
      end
  end.

End Prisma.

(* ------------------------------------------------------------------ *)
(** ** What a handler does not control *)

(** The store calls at which a handler is suspended ([await]). *)
Inductive Await :=
| AtCurrentUser     (* user.findUnique of the caller *)
| AtOtherUser       (* user.findUnique of the other participant *)
| AtFind            (* the first session lookup *)
| AtCreate          (* chatSession.create *)
| AtReread          (* the lookup after a failed create *)
| AtMessageCreate   (* message.create *)
| AtUpdate          (* chatSession.update *)
| AtCount.          (* message.count *)

(** [interleave w a db] is the store as the call at [a] finds it, after the
    other tasks that ran while the handler was suspended; [freshSession] and
    [freshMessage] are the values drawn for a new row, [clock] is
    [new Date()]. *)
Record World := mkWorld
  { interleave : Await -> DB -> DB;
    freshSession : Fresh;
    freshMessage : Fresh;
    clock : nat }.

(** No other task runs. *)
Definition alone (fs fm : Fresh) (t : nat) : World :=
  mkWorld (fun _ db => db) fs fm t.

Definition sequential (w : World) : Prop :=
  forall a db, interleave w a db = db.

(* ------------------------------------------------------------------ *)
(** ** src/server/websocket.ts *)

Module MessageData.
(** [messageData], the payload of message:receive and message:sent. *)
Record t := mk
  { id : string;
    content : string;
    senderId : string;
    recipientId : string;
    sessionId : string;
    createdAt : nat;
    sender : UserSelect.t;
    recipient : UserSelect.t }.

Definition of_message (message : MessageJoined.t) : t :=
  let r := MessageJoined.row message in
  mk (Message.id r) (Message.content r) (Message.senderId r)
     (Message.recipientId r) (Message.sessionId r) (Message.createdAt r)
     (MessageJoined.sender message) (MessageJoined.recipient message).
End MessageData.

Module Socket.
(** A connection that passed the JWT middleware: [socket.id] and
    [socket.data.userId]. *)
Record t := mk
  { id : string;
    userId : string }.

Definition eqb (a b : t) : bool :=
  String.eqb (id a) (id b) && String.eqb (userId a) (userId b).
End Socket.

Inductive Payload :=
| user_online (userId : string)
| user_offline (userId : string)
| users_online (userIds : list string)
| session_markedRead (sessionId : string)
| typing_start (userId sessionId : string)
| typing_stop (userId sessionId : string)
| message_error (error : string) (details : option PrismaError)
| message_receive (messageData : MessageData.t)
| message_sent (messageData : MessageData.t).

Inductive Emit :=
| io_emit (p : Payload)                       (* io.emit(..) *)
| socket_emit (socketId : string) (p : Payload) (* socket.emit(..) *)
| io_to (room : string) (p : Payload).         (* io.to(room).emit(..) *)

(** The sockets an emit reaches: every connected socket for [io.emit], the
    socket itself for [socket.emit], the sockets in the room named by a
    socket id for [io.to]. *)
Definition recipients (sockets : list Socket.t) (e : Emit) : list string :=
  match e with
  | io_emit _ => map Socket.id sockets
  | socket_emit sid _ => [sid]
  | io_to room _ =>
      filter (String.eqb room) (map Socket.id sockets)
  end.

Record Server := mkServer
  { onlineUsers : JsMap.t;      (* Map<userId, socketId> *)
    sockets : list Socket.t;    (* the namespace's connected sockets *)
    db : DB }.

Definition with_onlineUsers (st : Server) (m : JsMap.t) : Server :=
  mkServer m (sockets st) (db st).

Definition with_db (st : Server) (d : DB) : Server :=
  mkServer (onlineUsers st) (sockets st) d.

Record SendData := mkSendData
  { recipientId : option string;
    content : option string;
    sessionId : option string }.

(** [io.on("connection", ..)] up to the registration of the listeners. *)
Definition on_connection (st : Server) (socket : Socket.t)
  : Server * list Emit :=
  let userId := Socket.userId socket in
  let online := JsMap.set (onlineUsers st) userId (Socket.id socket) in
  (with_onlineUsers st online,
   [ io_emit (user_online userId);
     socket_emit (Socket.id socket) (users_online (JsMap.keys online)) ]).

Definition on_status_request (st : Server) (socket : Socket.t)
  : Server * list Emit :=
  (st, [ socket_emit (Socket.id socket)
                     (users_online (JsMap.keys (onlineUsers st))) ]).

Definition on_session_markRead (st : Server) (socket : Socket.t)
           (sessionId : option string) : Server * list Emit :=
  match sessionId with
  | Some sid =>
      if truthy sid then
        match Prisma.chatSession_findUnique (db st) sid with
        | Some _ =>
            (st, [ socket_emit (Socket.id socket) (session_markedRead sid) ])
        | None => (st, [])
        end
      else (st, [])
  | None => (st, [])
  end.

(** The body shared by the typing:start and typing:stop listeners. *)
Definition on_typing (event : string -> string -> Payload) (st : Server)
           (socket : Socket.t) (recipientId sessionId : option string)
  : Server * list Emit :=
  match recipientId, sessionId with
  | Some r, Some sid =>
      if truthy r && truthy sid then
        match JsMap.get (onlineUsers st) r with
        | Some recipientSocketId =>
            if truthy recipientSocketId
            then (st, [ io_to recipientSocketId
                              (event (Socket.userId socket) sid) ])
            else (st, [])
        | None => (st, [])
        end
      else (st, [])
  | _, _ => (st, [])
  end.

Definition on_typing_start := on_typing typing_start.
Definition on_typing_stop := on_typing typing_stop.

(** The [else] branch of "Find or create chat session": look the sorted
    pair up, create the row when there is none. The result comes with the
    store as the branch leaves it. *)
Definition session_of_pair (w : World) (d : DB) (userId recipientId : string)
  : DB * (PrismaError + option ChatSession.t) :=
  let '(user1Id, user2Id) := sort2 userId recipientId in
  let d0 := interleave w AtFind d in
  match Prisma.chatSession_findUnique_pair d0 user1Id user2Id with
  | Some s => (d0, inr (Some s))
  | None =>
      let d1 := interleave w AtCreate d0 in
      match Prisma.chatSession_create (freshSession w) d1 user1Id user2Id with
      | inr (s, d2) => (d2, inr (Some s))
      | inl e => (d1, inl e)
      end
  end.

(** "Find or create chat session" of the message:send listener: [inr None]
    is [session] left null, [inl e] is a rejected store call. An empty
    [sessionId] is falsy and takes the [else] branch. *)
Definition find_or_create_session (w : World) (d : DB)
           (userId recipientId : string) (sessionId : option string)
  : DB * (PrismaError + option ChatSession.t) :=
  match sessionId with
  | Some sid =>
      if truthy sid then
        let d0 := interleave w AtFind d in
        (d0, inr (Prisma.chatSession_findUnique d0 sid))
      else session_of_pair w d userId recipientId
  | None => session_of_pair w d userId recipientId
  end.

(** The [catch] block of the message:send listener. *)
Definition send_failed (socket : Socket.t) (e : PrismaError) : list Emit :=
  [ socket_emit (Socket.id socket)
                (message_error "Failed to send message" (Some e)) ].

(** "Emit message to recipient if they're online", then the confirmation. *)
Definition deliver_and_confirm (online : JsMap.t) (socket : Socket.t)
           (recipientId : string) (messageData : MessageData.t) : list Emit :=
  match JsMap.get online recipientId with
  | Some recipientSocketId =>
      if truthy recipientSocketId
      then [ io_to recipientSocketId (message_receive messageData) ]
      else []
  | None => []
  end ++ [ socket_emit (Socket.id socket) (message_sent messageData) ].

Definition missing_fields (socket : Socket.t) : list Emit :=
  [ socket_emit (Socket.id socket)
      (message_error "Missing required fields: recipientId and content"
                     None) ].

Definition on_message_send (w : World) (st : Server) (socket : Socket.t)
           (data : SendData) : Server * list Emit :=
  let userId := Socket.userId socket in
  match recipientId data, content data with
  | Some recipientId, Some content =>
      if negb (truthy recipientId) || negb (truthy content)
      then (st, missing_fields socket)
      else
        match find_or_create_session w (db st) userId recipientId
                                     (sessionId data) with
        | (d, inl e) => (with_db st d, send_failed socket e)
        | (d, inr None) =>
            (with_db st d,
             [ socket_emit (Socket.id socket)
                 (message_error "Failed to create or find session" None) ])
        | (d, inr (Some session)) =>
            let d0 := interleave w AtMessageCreate d in
            match Prisma.message_create (freshMessage w) d0
                    content userId recipientId (ChatSession.id session) with
            | inl e => (with_db st d0, send_failed socket e)
            | inr (message, d1) =>
                let d2 := interleave w AtUpdate d1 in
                match Prisma.chatSession_update d2 (ChatSession.id session)
                                                (clock w) with
                | inl e => (with_db st d2, send_failed socket e)
                | inr d3 =>
                    (with_db st d3,
                     deliver_and_confirm (onlineUsers st) socket recipientId
                       (MessageData.of_message message))
                end
            end
        end
  | _, _ => (st, missing_fields socket)
  end.

(** The disconnect listener. *)
Definition on_disconnect (st : Server) (socket : Socket.t)
  : Server * list Emit :=
  let userId := Socket.userId socket in
  (with_onlineUsers st (JsMap.delete (onlineUsers st) userId),
   [ io_emit (user_offline userId) ]).

(** *** The event loop

    One event is one task; the listeners of a socket exist while it is
    connected. Socket.io adds the socket to the namespace before the
    connection listener runs and removes it before the disconnect listener
    runs. *)
Inductive Event :=
| Connection (socket : Socket.t)
| StatusRequest (socket : Socket.t)
| SessionMarkRead (socket : Socket.t) (sessionId : option string)
| TypingStart (socket : Socket.t) (recipientId sessionId : option string)
| TypingStop (socket : Socket.t) (recipientId sessionId : option string)
| MessageSend (w : World) (socket : Socket.t) (data : SendData)
| Disconnect (socket : Socket.t).

Definition connected (st : Server) (socket : Socket.t) : bool :=
  existsb (Socket.eqb socket) (sockets st).

Definition join_namespace (st : Server) (socket : Socket.t) : Server :=
  mkServer (onlineUsers st) (sockets st ++ [socket]) (db st).

Definition leave_namespace (st : Server) (socket : Socket.t) : Server :=
  mkServer (onlineUsers st)
           (filter (fun s => negb (Socket.eqb socket s)) (sockets st))
           (db st).

Definition source (ev : Event) : Socket.t :=
  match ev with
  | Connection s | StatusRequest s | SessionMarkRead s _
  | TypingStart s _ _ | TypingStop s _ _ | MessageSend _ s _
  | Disconnect s => s
  end.

Definition step (st : Server) (ev : Event) : Server * list Emit :=
  match ev with
  | Connection socket => on_connection (join_namespace st socket) socket
  | _ =>
      if connected st (source ev) then
        match ev with
        | Connection socket => (st, [])
        | StatusRequest socket => on_status_request st socket
        | SessionMarkRead socket sid => on_session_markRead st socket sid
        | TypingStart socket r sid => on_typing_start st socket r sid
        | TypingStop socket r sid => on_typing_stop st socket r sid
        | MessageSend w socket data => on_message_send w st socket data
        | Disconnect socket => on_disconnect (leave_namespace st socket) socket
        end
      else (st, [])
  end.

(** The server after a sequence of events, with everything it emitted. *)
Fixpoint run (st : Server) (evs : list Event) : Server * list Emit :=
  match evs with
  | [] => (st, [])
  | ev :: evs' =>
      let '(st1, out1) := step st ev in
      let '(st2, out2) := run st1 evs' in
      (st2, (out1 ++ out2)%list)
  end.

Definition boot (d : DB) : Server := mkServer JsMap.empty [] d.

(* ------------------------------------------------------------------ *)
(** ** The HTTP routes *)

(** [NextResponse.json(body, { status })]; an error body is
    [{ error: string }]. *)
Inductive Response (A : Type) :=
| json (body : A) (status : nat)
| error_json (error : string) (status : nat).

Arguments json {A} body status.
Arguments error_json {A} error status.

Module Include.
(** [include: { user1, user2 }] on a session row, with the messages the
    query selected. *)
Definition join_session (M : Type) (d : DB) (s : ChatSession.t)
           (msgs : list M) : PrismaError + SessionJoined.t M :=
  match Prisma.select_user d (ChatSession.user1Id s),
        Prisma.select_user d (ChatSession.user2Id s) with
  | Some a, Some b => inr (SessionJoined.mk s a b msgs)
  | _, _ => inl PInconsistent
  end.

(** [findUnique] by the pair with
    [messages: { orderBy: { createdAt: "asc" } }]. *)
Definition findUnique_pair (d : DB) (user1Id user2Id : string)
  : PrismaError + option (SessionJoined.t Message.t) :=
  match Prisma.chatSession_findUnique_pair d user1Id user2Id with
  | None => inr None
  | Some s =>
      match join_session d s
              (Prisma.orderBy_createdAt_asc
                 (Prisma.messages_of d (ChatSession.id s))) with
      | inr j => inr (Some j)
      | inl e => inl e
      end
  end.

(** [create] with [messages: true]. *)
Definition create (f : Fresh) (d : DB) (user1Id user2Id : string)
  : PrismaError + (SessionJoined.t Message.t * DB) :=
  match Prisma.chatSession_create f d user1Id user2Id with
  | inl e => inl e
  | inr (s, d1) =>
      match join_session d1 s (Prisma.messages_of d1 (ChatSession.id s)) with
      | inr j => inr (j, d1)
      | inl e => inl e
      end
  end.

(** The rows from offset [n] on, and the first [n] rows. *)
Fixpoint rows_from (A : Type) (n : Z) (l : list A) : list A :=
  match l with
  | [] => []
  | _ :: l' => if (n <=? 0)%Z then l else rows_from (n - 1) l'
  end.

Fixpoint first_rows (A : Type) (n : Z) (l : list A) : list A :=
  match l with
  | [] => []
  | x :: l' => if (n <=? 0)%Z then [] else x :: first_rows (n - 1) l'
  end.

(** [skip]/[take] over an ordered selection; a negative [take] counts
    from the end. *)
Definition skip_take (A : Type) (skip take : Z) (l : list A) : list A :=
  if (0 <=? take)%Z
  then first_rows take (rows_from skip l)
  else rev (first_rows (- take) (rows_from skip (rev l))).

(** [skip] and [take] travel to the query engine as 64-bit integers. *)
Definition fits_i64 (n : Z) : bool :=
  ((- 2 ^ 63 <=? n) && (n <? 2 ^ 63))%Z.

(** [findUnique] by id with
    [messages: { orderBy: { createdAt: "asc" }, skip, take,
                 include: { sender, recipient } }]. A negative [skip], and
    a [skip] or [take] that does not fit 64 bits, is refused before the
    query runs. *)
Definition findUnique_page (d : DB) (id : string) (skip take : Z)
  : PrismaError + option (SessionJoined.t MessageJoined.t) :=
  if (skip <? 0)%Z || negb (fits_i64 skip) || negb (fits_i64 take)
  then inl PValidation
  else
    match Prisma.chatSession_findUnique d id with
    | None => inr None
    | Some s =>
        match Prisma.join_messages d
                (skip_take skip take
                   (Prisma.orderBy_createdAt_asc (Prisma.messages_of d id)))
        with
        | inl e => inl e
        | inr msgs =>
            match join_session d s msgs with
            | inr j => inr (Some j)
            | inl e => inl e
            end
        end
    end.
End Include.

(** *** src/app/api/sessions/route.ts, POST *)

Definition sessions_failed {A} : Response A :=
  error_json "Failed to create/find chat session" 500.

(** The [if (!chatSession)] block: create, and on P2002 fetch the session
    another request just created. *)
Definition create_or_reread (w : World) (d : DB) (user1Id user2Id : string)
  : DB * Response (SessionJoined.t Message.t) :=
  let d1 := interleave w AtCreate d in
  match Include.create (freshSession w) d1 user1Id user2Id with
  | inr (chatSession, d2) => (d2, json chatSession 200)
  | inl P2002 =>
      let d2 := interleave w AtReread d1 in
      match Include.findUnique_pair d2 user1Id user2Id with
      | inr (Some chatSession) => (d2, json chatSession 200)
      | inr None => (d2, sessions_failed)   (* throw new Error(..) *)
      | inl _ => (d2, sessions_failed)
      end
  | inl _ => (d1, sessions_failed)          (* throw error *)
  end.

Definition POST_sessions (w : World) (d : DB) (auth : option string)
           (otherUserId : option string)
  : DB * Response (SessionJoined.t Message.t) :=
  match auth with
  | None => (d, error_json "Unauthorized" 401)
  | Some currentUserId =>
      match otherUserId with
      | None => (d, error_json "otherUserId is required" 400)
      | Some otherUserId =>
          if negb (truthy otherUserId)
          then (d, error_json "otherUserId is required" 400)
          else if String.eqb currentUserId otherUserId
          then (d, error_json "Cannot create session with yourself" 400)
          else
            let d0 := interleave w AtCurrentUser d in
            match Prisma.user_findUnique d0 currentUserId with
            | None => (d0, error_json "Current user not found in database" 404)
            | Some _ =>
                let d1 := interleave w AtOtherUser d0 in
                match Prisma.user_findUnique d1 otherUserId with
                | None => (d1, error_json "User not found" 404)
                | Some _ =>
                    let '(user1Id, user2Id) :=
                      sort2 currentUserId otherUserId in
                    let d2 := interleave w AtFind d1 in
                    match Include.findUnique_pair d2 user1Id user2Id with
                    | inl _ => (d2, sessions_failed)
                    | inr (Some chatSession) => (d2, json chatSession 200)
                    | inr None => create_or_reread w d2 user1Id user2Id
                    end
                end
            end
      end
  end.

(** *** src/app/api/messages/route.ts, POST *)

Definition is_participant (s : ChatSession.t) (userId : string) : bool :=
  String.eqb (ChatSession.user1Id s) userId
  || String.eqb (ChatSession.user2Id s) userId.

Definition POST_messages (w : World) (d : DB) (auth : option string)
           (content recipientId sessionId : option string)
  : DB * Response MessageJoined.t :=
  match auth with
  | None => (d, error_json "Unauthorized" 401)
  | Some senderId =>
      match content, recipientId, sessionId with
      | Some content, Some recipientId, Some sessionId =>
          if negb (truthy content) || negb (truthy recipientId)
             || negb (truthy sessionId)
          then (d, error_json
                     "content, recipientId, and sessionId are required" 400)
          else
            let d0 := interleave w AtFind d in
            match Prisma.chatSession_findUnique d0 sessionId with
            | None => (d0, error_json "Chat session not found" 404)
            | Some chatSession =>
                if negb (is_participant chatSession senderId)
                then (d0, error_json "Forbidden" 403)
                else if negb (is_participant chatSession recipientId)
                then (d0, error_json
                            "Recipient is not part of this session" 400)
                else
                  let d1 := interleave w AtMessageCreate d0 in
                  match Prisma.message_create (freshMessage w) d1
                          content senderId recipientId sessionId with
                  | inl _ => (d1, error_json "Failed to create message" 500)
                  | inr (message, d2) =>
                      let d3 := interleave w AtUpdate d2 in
                      match Prisma.chatSession_update d3 sessionId
                                                      (clock w) with
                      | inl _ =>
                          (d3, error_json "Failed to create message" 500)
                      | inr d4 => (d4, json message 201)
                      end
                  end
            end
      | _, _, _ =>
          (d, error_json
                "content, recipientId, and sessionId are required" 400)
      end
  end.

(** *** src/app/api/sessions/[id]/route.ts, GET *)

(** [Math.ceil(a / b)] on integers: nothing JSON can carry when [b] is 0. *)
Definition Math_ceil_div (a b : Z) : option Z :=
  if (b =? 0)%Z then None else Some (- ((- a) / b))%Z.

Record Pagination := mkPagination
  { page : Z;
    limit : Z;
    total : Z;
    totalPages : option Z }.

Record SessionPage := mkSessionPage
  { chatSession : SessionJoined.t MessageJoined.t;
    pagination : Pagination }.

(** A JavaScript number is a double. It holds an integer exactly up to
    2^53; a larger one is rounded to the nearest multiple of the unit in
    the last place, a tie going to the even significand. [to_double n] is
    the integer the double of [n] holds. *)
Definition to_double (n : Z) : Z :=
  let a := Z.abs n in
  if (a <? 2 ^ 53)%Z then n
  else
    let ulp := (2 ^ (Z.log2 a - 52))%Z in
    let q := (a / ulp)%Z in
    let r := (a mod ulp)%Z in
    let q' :=
      if (2 * r <? ulp)%Z then q
      else if (ulp <? 2 * r)%Z then (q + 1)%Z
      else if Z.even q then q else (q + 1)%Z in
    (Z.sgn n * (q' * ulp))%Z.

(** From 2^1024 on the double is [Infinity]. *)
Definition isFinite (n : Z) : bool := (Z.abs n <? 2 ^ 1024)%Z.

(** [a - b] and [a * b] on finite numbers holding integers. *)
Definition Number_sub (a b : Z) : Z := to_double (a - b).
Definition Number_mul (a b : Z) : Z := to_double (a * b).

(** [parseInt(searchParams.get(name) || fallback)] for a parameter that is
    absent or holds a decimal integer: the number nearest to it. *)
Definition query_int (param : option Z) (fallback : Z) : Z :=
  to_double match param with
            | Some n => n
            | None => fallback
            end.

Definition GET_session (w : World) (d : DB) (auth : option string)
           (id : string) (pageParam limitParam : option Z)
  : Response SessionPage :=
  match auth with
  | None => error_json "Unauthorized" 401
  | Some userId =>
      let page := query_int pageParam 1 in
      let limit := query_int limitParam 50 in
      let skip := Number_mul (Number_sub page 1) limit in
      let d0 := interleave w AtFind d in
      if negb (isFinite page && isFinite limit)
      then
        (* [skip] is [Infinity] or [NaN]: the query is refused *)
        error_json "Failed to fetch chat session" 500
      else
        match Include.findUnique_page d0 id skip limit with
        | inl _ => error_json "Failed to fetch chat session" 500
        | inr None => error_json "Chat session not found" 404
        | inr (Some chatSession) =>
            if negb (is_participant (SessionJoined.row chatSession) userId)
            then error_json "Forbidden" 403
            else
              let totalMessages :=
                Prisma.message_count (interleave w AtCount d0) id in
              json (mkSessionPage chatSession
                      (mkPagination page limit totalMessages
                                    (Math_ceil_div totalMessages limit)))
                   200
        end
  end.

(* ------------------------------------------------------------------ *)
(** ** The listing routes *)

Module Query.
(** A descending [orderBy] on a numeric column; rows with equal keys keep
    their insertion order. *)
Fixpoint insert_desc (A : Type) (key : A -> nat) (x : A) (l : list A)
  : list A :=
  match l with
  | [] => [x]
  | y :: l' =>
      if Nat.ltb (key y) (key x) then x :: l else y :: insert_desc key x l'
  end.

Definition orderBy_desc (A : Type) (key : A -> nat) (l : list A) : list A :=
  fold_left (fun acc x => insert_desc key x acc) l [].

(** [where: { OR: [{ user1Id: userId }, { user2Id: userId }] }] *)
Definition sessions_of (d : DB) (userId : string) : list ChatSession.t :=
  filter (fun s => is_participant s userId) (chatSessions d).

(** [messages: { orderBy: { createdAt: "desc" }, take: 1 }] *)
Definition last_message (d : DB) (s : ChatSession.t) : list Message.t :=
  firstn 1 (orderBy_desc Message.createdAt
                         (Prisma.messages_of d (ChatSession.id s))).

(** [include: { user1, user2, messages }] over the selected sessions. *)
Fixpoint join_previews (d : DB) (l : list ChatSession.t)
  : PrismaError + list (SessionJoined.t Message.t) :=
  match l with
  | [] => inr []
  | s :: l' =>
      match Include.join_session d s (last_message d s),
            join_previews d l' with
      | inr j, inr js => inr (j :: js)
      | inl e, _ => inl e
      | _, inl e => inl e
      end
  end.
End Query.

(** *** src/app/api/sessions/route.ts, GET *)

(** [{ ...session, lastMessage, unreadCount }] *)
Record SessionPreview := mkSessionPreview
  { preview : SessionJoined.t Message.t;
    lastMessage : option Message.t;
    unreadCount : Z }.

Definition GET_sessions (w : World) (d : DB) (auth : option string)
  : Response (list SessionPreview) :=
  match auth with
  | None => error_json "Unauthorized" 401
  | Some userId =>
      let d0 := interleave w AtFind d in
      match Query.join_previews d0
              (Query.orderBy_desc ChatSession.updatedAt
                                  (Query.sessions_of d0 userId)) with
      | inl _ => error_json "Failed to fetch chat sessions" 500
      | inr chatSessions =>
          json (map (fun session =>
                       mkSessionPreview session
                         (hd_error (SessionJoined.messages session)) 0)
                    chatSessions)
               200
      end
  end.

(** *** src/app/api/messages/route.ts, GET

    [between] is what other tasks did to the store between the session
    lookup and the message query. *)
Definition GET_messages (w : World) (between : DB -> DB) (d : DB)
           (auth : option string) (sessionId : option string)
  : Response (list MessageJoined.t) :=
  match auth with
  | None => error_json "Unauthorized" 401
  | Some userId =>
      match sessionId with
      | None => error_json "sessionId is required" 400
      | Some sessionId =>
          if negb (truthy sessionId)
          then error_json "sessionId is required" 400
          else
            let d0 := interleave w AtFind d in
            match Prisma.chatSession_findUnique d0 sessionId with
            | None => error_json "Chat session not found" 404
            | Some chatSession =>
                if negb (is_participant chatSession userId)
                then error_json "Forbidden" 403
                else
                  let d1 := between d0 in
                  match Prisma.join_messages d1
                          (Prisma.orderBy_createdAt_asc
                             (Prisma.messages_of d1 sessionId)) with
                  | inl _ => error_json "Failed to fetch messages" 500
                  | inr messages => json messages 200
                  end
            end
      end
  end.

(* ------------------------------------------------------------------ *)
(** ** Tokens: src/app/api/socket/token/route.ts and the relay's
       [io.use] middleware *)

Module Claims.
(** The payload the token carries. *)
Record t := mk
  { id : string;
    email : string }.
End Claims.

(** The two calls into jsonwebtoken, with the clock they read:
    [jwt.sign(payload, secret, { expiresIn })] and
    [jwt.verify(token, secret)], [None] when it throws. *)
Record JwtLib := mkJwtLib
  { jwt_sign : Claims.t -> string -> nat -> nat -> string;
    jwt_verify : string -> string -> nat -> option Claims.t }.

(** [session?.user] as the route reads it. *)
Record SessionUser := mkSessionUser
  { user_id : option string;
    user_email : option string }.

(** ["24h"] in seconds. *)
Definition expiresIn_24h : nat := 24 * 60 * 60.

Definition GET_socket_token (jwt : JwtLib) (NEXTAUTH_SECRET : option string)
           (clock : nat) (session : option SessionUser) : Response string :=
  match session with
  | Some (mkSessionUser (Some id) (Some email)) =>
      if negb (truthy id) || negb (truthy email)
      then error_json "Unauthorized" 401
      else
        match NEXTAUTH_SECRET with
        | Some secret =>
            if truthy secret
            then json (jwt_sign jwt (Claims.mk id email) secret
                                expiresIn_24h clock)
                      200
            else error_json "Server configuration error" 500
        | None => error_json "Server configuration error" 500
        end
  | _ => error_json "Unauthorized" 401
  end.

(** The outcome of [io.use]: [next()] with [socket.data] filled in, or
    [next(new Error(message))]. *)
Inductive Handshake :=
| admitted (userId email : string)
| refused (message : string).

Definition io_use (jwt : JwtLib) (NEXTAUTH_SECRET : option string)
           (clock : nat) (token : option string) : Handshake :=
  match token with
  | Some token =>
      if negb (truthy token)
      then refused "Authentication error: No token provided"
      else
        match NEXTAUTH_SECRET with
        | Some secret =>
            if truthy secret then
              match jwt_verify jwt token secret clock with
              | Some decoded =>
                  admitted (Claims.id decoded) (Claims.email decoded)
              | None => refused "Authentication error: Invalid token"
              end
            else refused "Server configuration error"
        | None => refused "Server configuration error"
        end
  | None => refused "Authentication error: No token provided"
  end.

(* ------------------------------------------------------------------ *)
(** ** The page guard ([middleware]) *)

Inductive Guard :=
| redirect (pathname : string)   (* NextResponse.redirect(new URL(p, req.url)) *)
| next.                          (* NextResponse.next() *)

Definition startsWith (s prefix : string) : bool := String.prefix prefix s.

Definition middleware (pathname : string) (isAuthenticated : bool) : Guard :=
  let isAuthPage := startsWith pathname "/auth" in
  let isChatPage := startsWith pathname "/chat" in
  if isChatPage && negb isAuthenticated then redirect "/auth/login"
  else if isAuthPage && isAuthenticated then redirect "/chat"
  else next.

(* ------------------------------------------------------------------ *)
(** ** src/components/ChatWindow.tsx: the message list *)

Module ChatWindow.
Definition with_id (msg : MessageData.t) (id : string) : MessageData.t :=
  MessageData.mk id (MessageData.content msg) (MessageData.senderId msg)
    (MessageData.recipientId msg) (MessageData.sessionId msg)
    (MessageData.createdAt msg) (MessageData.sender msg)
    (MessageData.recipient msg).

Definition has_id (id : string) (msg : MessageData.t) : bool :=
  String.eqb (MessageData.id msg) id.

(** The message:receive listener of the open session. *)
Definition on_receive (mounted : bool) (sessionId : string)
           (prev : list MessageData.t) (data : MessageData.t)
  : list MessageData.t :=
  if mounted && String.eqb (MessageData.sessionId data) sessionId then
    if existsb (has_id (MessageData.id data)) prev
    then prev
    else prev ++ [data]
  else prev.

(** [temp-${Date.now()}] and [failed-${tempId}]. *)
Definition temp_id (stamp : string) : string := "temp-" ++ stamp.
Definition failed_id (tempId : string) : string := "failed-" ++ tempId.

(** "Optimistic UI update" *)
Definition add_optimistic (prev : list MessageData.t)
           (optimisticMessage : MessageData.t) : list MessageData.t :=
  prev ++ [optimisticMessage].

(** "Replace optimistic message with real one" (message:sent). *)
Definition on_sent (tempId : string) (data : MessageData.t)
           (prev : list MessageData.t) : list MessageData.t :=
  map (fun msg => if has_id tempId msg then data else msg) prev.

(** "Mark the optimistic message as failed" *)
Definition mark_failed (tempId : string) (prev : list MessageData.t)
  : list MessageData.t :=
  map (fun msg => if has_id tempId msg
                  then with_id msg (failed_id tempId) else msg) prev.


(** The state [handleRetry] reads and writes. *)
Record Retry := mkRetry
  { failedMessageId : option string;
    messages : list MessageData.t;
    inputValue : string }.

Definition handleRetry (st : Retry) : Retry :=
  match failedMessageId st with
  | None => st
  | Some failed =>
      if negb (truthy failed) then st
      else
        match find (has_id failed) (messages st) with
        | None => st
        | Some failedMessage =>
            mkRetry None
                    (filter (fun msg => negb (has_id failed msg))
                            (messages st))
                    (MessageData.content failedMessage)
        end
  end.

(** The [catch] block of [handleSendMessage]. *)
Definition send_failed (tempId : string) (st : Retry) : Retry :=
  mkRetry (Some tempId) (mark_failed tempId (messages st)) (inputValue st).

(** [setHasMore(pagination.page < pagination.totalPages)]; a [null]
    totalPages compares as 0. *)
Definition hasMore (p : Pagination) : bool :=
  match totalPages p with
  | Some n => (page p <? n)%Z
  | None => (page p <? 0)%Z
  end.
End ChatWindow.

(* ------------------------------------------------------------------ *)
(** ** Concrete data for the examples *)

Unset Implicit Arguments.

Module Fixture.
Definition user (id : string) : User.t :=
  User.mk id (id ++ "@example.com") (Some id) None None "jwt".

Definition alice := "alice".
Definition bob := "bob".
Definition carol := "carol".
Definition dave := "dave".

Definition people : list User.t :=
  [user alice; user bob; user carol; user dave].

(** Four users, no session, no message. *)
Definition db0 : DB := mkDB people [] [].

(** The session of alice and bob, stored in sorted order. *)
Definition s1 : ChatSession.t := ChatSession.mk "s1" alice bob false 1 1.

Definition db1 : DB := mkDB people [s1] [].

Definition msg (id content : string) (t : nat) : Message.t :=
  Message.mk id content alice bob "s1" false t.

(** Five messages of s1, inserted out of timestamp order. *)
Definition db5 : DB :=
  mkDB people [s1]
       [msg "m3" "c" 30; msg "m1" "a" 10; msg "m5" "e" 50;
        msg "m2" "b" 20; msg "m4" "d" 40].

Definition world : World :=
  alone (mkFresh "s9" 7) (mkFresh "m9" 8) 9.

(** While the handler waits for [chatSession.create], another request
    inserts the session of alice and bob. *)
Definition racing : World :=
  mkWorld (fun a d =>
             match a with
             | AtCreate =>
                 match Prisma.chatSession_findUnique_pair d alice bob with
                 | Some _ => d
                 | None =>
                     mkDB (users d) (chatSessions d ++ [s1]) (messages d)
                 end
             | _ => d
             end)
          (mkFresh "s9" 7) (mkFresh "m9" 8) 9.

Definition alice_tab1 := Socket.mk "sock-a1" alice.
Definition alice_tab2 := Socket.mk "sock-a2" alice.
Definition bob_tab := Socket.mk "sock-b" bob.
Definition carol_tab := Socket.mk "sock-c" carol.
End Fixture.

Module Sample.


Definition received (id content : string) : MessageData.t :=
  MessageData.mk id content "bob" "alice" "s1" 3
    (UserSelect.of_user (Fixture.user "bob"))
    (UserSelect.of_user (Fixture.user "alice")).

Definition placeholder : MessageData.t :=
  MessageData.mk (ChatWindow.temp_id "1700000000000") "hi" "alice" "bob"
    "s1" 4
    (UserSelect.of_user (Fixture.user "alice"))
    (UserSelect.of_user (Fixture.user "bob")).

(** While the handler waits for [chatSession.update], another task
    removes the session rows: the update finds no record. *)
Definition session_removed : World :=
  mkWorld (fun a d =>
             match a with
             | AtUpdate => mkDB (users d) [] (messages d)
             | _ => d
             end)
          (mkFresh "s9" 7) (mkFresh "m9" 8) 9.

(** A toy token library: one token, which verifies as alice. *)
Definition toy_jwt : JwtLib :=
  mkJwtLib (fun _ _ _ _ => "tok")
           (fun token _ _ =>
              if String.eqb token "tok"
              then Some (Claims.mk "alice" "alice@example.com")
              else None).
End Sample.

(* ------------------------------------------------------------------ *)
(** ** The vocabulary of the properties *)

Ltac break_match :=
  match goal with
  | |- context [match ?x with _ => _ end] => destruct x eqn:?
  end.

(** An event that is not a disconnect of identity [u]. *)
Definition keeps (u : string) (ev : Event) : Prop :=
  match ev with
  | Disconnect s => Socket.userId s <> u
  | _ => True
  end.

Definition payload_of (e : Emit) : Payload :=
  match e with
  | io_emit p | socket_emit _ p | io_to _ p => p
  end.

(** [!recipientId || !content] *)
Definition lacks_required (data : SendData) : bool :=
  negb (truthy_opt (recipientId data)) || negb (truthy_opt (content data)).

Definition missing_fields_error : Payload :=
  message_error "Missing required fields: recipientId and content" None.

Definition createdAt_le (a b : Message.t) : Prop :=
  Message.createdAt a <= Message.createdAt b.

(** The foreign keys of the schema: the users a stored row refers to are
    in the user table. *)
Definition referential (d : DB) : Prop :=
  (forall m, In m (messages d) ->
             Prisma.select_user d (Message.senderId m) <> None
             /\ Prisma.select_user d (Message.recipientId m) <> None)
  /\ (forall s, In s (chatSessions d) ->
                Prisma.select_user d (ChatSession.user1Id s) <> None
                /\ Prisma.select_user d (ChatSession.user2Id s) <> None).

(** Every registry entry names a connected socket of that identity. *)
Definition registry_sound (st : Server) : Prop :=
  forall u c, JsMap.get (onlineUsers st) u = Some c ->
              In (Socket.mk c u) (sockets st).

(** Connection and disconnect, the two events of the gateway. *)
Definition presence_event (ev : Event) : bool :=
  match ev with
  | Connection _ | Disconnect _ => true
  | _ => false
  end.

(** An event that is not a connection of identity [u]. *)
Definition no_connect (u : string) (ev : Event) : Prop :=
  match ev with
  | Connection s => Socket.userId s <> u
  | _ => True
  end.

(** The participants of a session as stored, and what identifies a row. *)
Definition pair_of (s : ChatSession.t) : string * string :=
  (ChatSession.user1Id s, ChatSession.user2Id s).

Definition session_key (s : ChatSession.t) : string * (string * string) :=
  (ChatSession.id s, pair_of s).

(** Every session stores its two participants in sorted order, and no two
    rows store the same ordered pair (the unique index). *)
Definition canonical (d : DB) : Prop :=
  NoDup (map pair_of (chatSessions d))
  /\ Forall (fun s => String.leb (ChatSession.user1Id s)
                                 (ChatSession.user2Id s) = true)
            (chatSessions d).

(** Two sessions between the same two people, in either order. *)
Definition same_people (s1 s2 : ChatSession.t) : Prop :=
  pair_of s1 = pair_of s2
  \/ (ChatSession.user1Id s1 = ChatSession.user2Id s2
      /\ ChatSession.user2Id s1 = ChatSession.user1Id s2).

Definition one_session_per_pair (d : DB) : Prop :=
  forall s1 s2, In s1 (chatSessions d) -> In s2 (chatSessions d) ->
                same_people s1 s2 -> s1 = s2.

(** Most recently updated first. *)
Definition updatedAt_ge (a b : ChatSession.t) : Prop :=
  ChatSession.updatedAt b <= ChatSession.updatedAt a.

(** The rows of the messages an HTTP answer carries. *)
Definition rows (l : list MessageJoined.t) : list Message.t :=
  map MessageJoined.row l.


(** The session row of an entry of the session list. *)
Definition session_of (p : SessionPreview) : ChatSession.t :=
  SessionJoined.row (preview p).

(** [m] is a message of the session that none of its messages is newer
    than. *)
Definition newest_of (d : DB) (sessionId : string) (m : Message.t) : Prop :=
  In m (Prisma.messages_of d sessionId)
  /\ forall m', In m' (Prisma.messages_of d sessionId) ->
                Message.createdAt m' <= Message.createdAt m.

(** The constraints of the schema the routes rely on: the foreign keys to
    the user table and the primary key of the session table. *)
Definition well_formed (d : DB) : Prop :=
  referential d /\ NoDup (map ChatSession.id (chatSessions d)).

(* ------------------------------------------------------------------ *)
(** ** Strings, truthiness, the sorted pair *)

Lemma truthy_true (s : string) : truthy s = true <-> s <> "".
Proof.
  unfold truthy. destruct (String.eqb_spec s ""); simpl; split; congruence.
Qed.

Lemma sort2_comm (a b : string) : sort2 a b = sort2 b a.
Proof.
  unfold sort2, String.ltb.
  rewrite (String.compare_antisym a b).
  destruct (String.compare b a) eqn:E; simpl; try reflexivity.
  apply String.compare_eq_iff in E. now subst.
Qed.

Lemma sort2_cases (a b : string) :
  sort2 a b = (a, b) \/ sort2 a b = (b, a).
Proof. unfold sort2. destruct (String.ltb b a); auto. Qed.

Lemma sort2_ordered (a b x y : string) :
  sort2 a b = (x, y) -> String.leb x y = true.
Proof.
  unfold sort2, String.ltb, String.leb.
  destruct (String.compare b a) eqn:E; intros H; inversion H; subst.
  - rewrite String.compare_antisym, E. reflexivity.
  - now rewrite E.
  - rewrite String.compare_antisym, E. reflexivity.
Qed.

(* ------------------------------------------------------------------ *)
(** ** The presence registry *)

Module JsMapFacts.
Import JsMap.

Lemma get_delete_same (m : t) (k : string) : get (delete m k) k = None.
Proof.
  induction m as [|[k' v'] m IH]; simpl; auto.
  destruct (String.eqb k' k) eqn:E; simpl; auto. now rewrite E.
Qed.

Lemma get_delete_other (m : t) (k k' : string) :
  k' <> k -> get (delete m k) k' = get m k'.
Proof.
  intros Hne. induction m as [|[k0 v0] m IH]; simpl; auto.
  destruct (String.eqb_spec k0 k) as [->|Hk].
  - destruct (String.eqb_spec k k'); [congruence | exact IH].
  - simpl. now rewrite IH.
Qed.

Lemma get_set_same (m : t) (k v : string) : get (set m k v) k = Some v.
Proof.
  induction m as [|[k' v'] m IH]; simpl.
  - now rewrite String.eqb_refl.
  - destruct (String.eqb k' k) eqn:E; simpl; now rewrite E.
Qed.

Lemma get_set_other (m : t) (k k' v : string) :
  k' <> k -> get (set m k v) k' = get m k'.
Proof.
  intros Hne. induction m as [|[k0 v0] m IH]; simpl.
  - destruct (String.eqb_spec k k'); congruence.
  - destruct (String.eqb_spec k0 k) as [->|Hk]; simpl.
    + destruct (String.eqb_spec k k'); congruence.
    + now rewrite IH.
Qed.

Lemma keys_set_same (m : t) (k v : string) : In k (keys (set m k v)).
Proof.
  induction m as [|[k' v'] m IH]; simpl; auto.
  destruct (String.eqb_spec k' k) as [->|Hk]; simpl; auto.
Qed.

Lemma keys_set_keeps (m : t) (k v k' : string) :
  In k' (keys m) -> In k' (keys (set m k v)).
Proof.
  induction m as [|[k0 v0] m IH]; simpl; [tauto|].
  destruct (String.eqb_spec k0 k) as [->|Hk]; simpl; tauto.
Qed.

Lemma keys_delete_keeps (m : t) (k k' : string) :
  k' <> k -> In k' (keys m) -> In k' (keys (delete m k)).
Proof.
  intros Hne. induction m as [|[k0 v0] m IH]; simpl; [tauto|].
  destruct (String.eqb_spec k0 k) as [->|Hk]; simpl; intuition congruence.
Qed.

Lemma keys_get (m : t) (k : string) :
  In k (keys m) <-> exists v, get m k = Some v.
Proof.
  induction m as [|[k0 v0] m IH]; simpl.
  - split; [tauto | intros [v H]; discriminate].
  - destruct (String.eqb_spec k0 k) as [->|Hk].
    + split; eauto.
    + rewrite <- IH. intuition congruence.
Qed.
End JsMapFacts.

(** C1, as the spec words it, fails: alice connects from one tab, then from
    a second one, which takes over her registry entry; when the first tab
    closes, the entry of the second, live connection is removed. *)
Lemma stale_disconnect_removes_current_entry :
  let events := [ Connection Fixture.alice_tab1;
                  Connection Fixture.alice_tab2 ] in
  let st := fst (run (boot Fixture.db0) events) in
  JsMap.get (onlineUsers st) Fixture.alice = Some "sock-a2"
  /\ connected st Fixture.alice_tab1 = true
  /\ Socket.id Fixture.alice_tab1 <> "sock-a2"
  /\ JsMap.get (onlineUsers (fst (step st (Disconnect Fixture.alice_tab1))))
               Fixture.alice = None
  /\ snd (step st (Disconnect Fixture.alice_tab1))
     = [io_emit (user_offline Fixture.alice)].
Proof. repeat split; try reflexivity. discriminate. Qed.

(** C1, amended: the disconnect of any connected socket of identity u
    removes u's registry entry and broadcasts user:offline for u, whatever
    connection the registry holds for u; no other entry changes. *)
Theorem disconnect_always_removes (st : Server) (socket : Socket.t) :
  let userId := Socket.userId socket in
  let st' := fst (on_disconnect (leave_namespace st socket) socket) in
  JsMap.get (onlineUsers st') userId = None
  /\ (forall other, other <> userId ->
        JsMap.get (onlineUsers st') other = JsMap.get (onlineUsers st) other)
  /\ snd (on_disconnect (leave_namespace st socket) socket)
     = [io_emit (user_offline userId)]
  /\ (connected st socket = true ->
      step st (Disconnect socket)
      = on_disconnect (leave_namespace st socket) socket).
Proof.
  simpl. repeat split.
  - apply JsMapFacts.get_delete_same.
  - intros other Hne. now apply JsMapFacts.get_delete_other.
  - intros Hc. now rewrite Hc.
Qed.

(* ------------------------------------------------------------------ *)
(** ** What the listeners leave alone *)

Lemma on_message_send_onlineUsers w st socket data :
  onlineUsers (fst (on_message_send w st socket data)) = onlineUsers st.
Proof.
  unfold on_message_send. repeat break_match; reflexivity.
Qed.

Lemma on_message_send_sockets w st socket data :
  sockets (fst (on_message_send w st socket data)) = sockets st.
Proof.
  unfold on_message_send. repeat break_match; reflexivity.
Qed.

Lemma deliver_and_confirm_no_snapshot online socket r md sid ids :
  ~ In (socket_emit sid (users_online ids))
       (deliver_and_confirm online socket r md).
Proof.
  unfold deliver_and_confirm. intros H. apply in_app_or in H.
  destruct H as [H|H].
  - revert H. repeat break_match; simpl; intuition discriminate.
  - simpl in H. intuition discriminate.
Qed.

Lemma on_message_send_no_snapshot w st socket data sid ids :
  ~ In (socket_emit sid (users_online ids))
       (snd (on_message_send w st socket data)).
Proof.
  unfold on_message_send, missing_fields, send_failed.
  repeat break_match; simpl;
    try apply deliver_and_confirm_no_snapshot; intuition discriminate.
Qed.

Lemma on_typing_silent ev st socket r s :
  fst (on_typing ev st socket r s) = st.
Proof. unfold on_typing. repeat break_match; reflexivity. Qed.

Lemma on_typing_no_snapshot ev st socket r s sid ids :
  (forall a b, ev a b <> users_online ids) ->
  ~ In (socket_emit sid (users_online ids)) (snd (on_typing ev st socket r s)).
Proof.
  intros Hev. unfold on_typing.
  repeat break_match; simpl; intuition discriminate.
Qed.

Lemma on_session_markRead_silent st socket s :
  fst (on_session_markRead st socket s) = st.
Proof. unfold on_session_markRead. repeat break_match; reflexivity. Qed.

Lemma on_session_markRead_no_snapshot st socket s sid ids :
  ~ In (socket_emit sid (users_online ids))
       (snd (on_session_markRead st socket s)).
Proof.
  unfold on_session_markRead.
  repeat break_match; simpl; intuition discriminate.
Qed.

Lemma step_keeps_online (u : string) (st : Server) (ev : Event) :
  In u (JsMap.keys (onlineUsers st)) -> keeps u ev ->
  In u (JsMap.keys (onlineUsers (fst (step st ev)))).
Proof.
  intros Hin Hk. destruct ev; simpl in *;
    try (destruct (connected st socket); simpl; [|exact Hin]).
  - now apply JsMapFacts.keys_set_keeps.
  - exact Hin.
  - now rewrite on_session_markRead_silent.
  - unfold on_typing_start. now rewrite on_typing_silent.
  - unfold on_typing_stop. now rewrite on_typing_silent.
  - now rewrite on_message_send_onlineUsers.
  - apply JsMapFacts.keys_delete_keeps; auto.
Qed.

Lemma step_snapshot_has (u : string) (st : Server) (ev : Event) sid ids :
  In u (JsMap.keys (onlineUsers st)) ->
  In (socket_emit sid (users_online ids)) (snd (step st ev)) -> In u ids.
Proof.
  intros Hin Hem. destruct ev; simpl in *;
    try (destruct (connected st socket); simpl in *; [|tauto]).
  - destruct Hem as [Hem|[Hem|[]]]; [discriminate|].
    inversion Hem; subst. now apply JsMapFacts.keys_set_keeps.
  - destruct Hem as [Hem|[]]. inversion Hem; subst. exact Hin.
  - now apply on_session_markRead_no_snapshot in Hem.
  - apply on_typing_no_snapshot in Hem; [tauto | discriminate].
  - apply on_typing_no_snapshot in Hem; [tauto | discriminate].
  - now apply on_message_send_no_snapshot in Hem.
  - destruct Hem as [Hem|[]]. discriminate.
Qed.

Lemma run_keeps_online (u : string) (evs : list Event) : forall st,
  In u (JsMap.keys (onlineUsers st)) -> Forall (keeps u) evs ->
  In u (JsMap.keys (onlineUsers (fst (run st evs))))
  /\ forall sid ids,
       In (socket_emit sid (users_online ids)) (snd (run st evs)) -> In u ids.
Proof.
  induction evs as [|ev evs IH]; intros st Hin Hall; simpl.
  - split; [exact Hin | tauto].
  - inversion Hall as [|? ? Hev Hevs]; subst.
    pose proof (step_keeps_online u st ev Hin Hev) as H1.
    pose proof (fun sid ids => step_snapshot_has u st ev sid ids Hin) as H2.
    destruct (step st ev) as [st1 out1]. simpl in *.
    destruct (IH st1 H1 Hevs) as [H3 H4].
    destruct (run st1 evs) as [st2 out2]. simpl in *.
    split; [exact H3|].
    intros sid ids Hem. apply in_app_or in Hem. destruct Hem; eauto.
Qed.

(** C10, as the spec words it, fails: alice connects from one tab and then
    from a second one; the first tab closes, which removes her registry
    entry. The second tab is still connected, and the reply to its own
    status:request does not list alice. *)
Lemma status_reply_omits_connected_identity :
  let st1 := fst (step (boot Fixture.db0) (Connection Fixture.alice_tab1)) in
  let st2 := fst (step st1 (Connection Fixture.alice_tab2)) in
  let st := fst (step st2 (Disconnect Fixture.alice_tab1)) in
  snd (step st1 (Connection Fixture.alice_tab2))
  = [ io_emit (user_online Fixture.alice);
      socket_emit "sock-a2" (users_online [Fixture.alice]) ]
  /\ connected st Fixture.alice_tab2 = true
  /\ step st (StatusRequest Fixture.alice_tab2)
     = (st, [socket_emit "sock-a2" (users_online [])])
  /\ ~ In Fixture.alice [].
Proof. repeat split; try reflexivity. intros []. Qed.

(** C10, amended: the connection listener answers the new socket with a
    users:online snapshot that contains the connecting identity itself, and
    broadcasts user:online to every connected socket, the new one included;
    until a socket of that identity disconnects, every later users:online
    snapshot, the reply to any status:request among them, contains it. *)
Theorem snapshot_includes_self (st : Server) (socket : Socket.t)
        (evs : list Event) :
  Forall (keeps (Socket.userId socket)) evs ->
  let u := Socket.userId socket in
  let st1 := fst (step st (Connection socket)) in
  let st2 := fst (run st1 evs) in
  (exists ids,
      snd (step st (Connection socket))
      = [ io_emit (user_online u);
          socket_emit (Socket.id socket) (users_online ids) ]
      /\ In u ids)
  /\ recipients (sockets st1) (io_emit (user_online u))
     = (map Socket.id (sockets st) ++ [Socket.id socket])%list
  /\ (forall sid ids,
        In (socket_emit sid (users_online ids)) (snd (run st1 evs)) ->
        In u ids)
  /\ (forall requester,
        exists ids,
          on_status_request st2 requester
          = (st2, [socket_emit (Socket.id requester) (users_online ids)])
          /\ In u ids).
Proof.
  intros Hall u st1 st2.
  assert (Hin : In u (JsMap.keys (onlineUsers st1))).
  { subst st1 u. simpl. apply JsMapFacts.keys_set_same. }
  destruct (run_keeps_online u evs st1 Hin Hall) as [H1 H2].
  repeat split.
  - eexists. split; [reflexivity|]. apply JsMapFacts.keys_set_same.
  - subst st1. simpl. now rewrite map_app.
  - exact H2.
  - intros requester. eexists. split; [reflexivity | exact H1].
Qed.

Lemma snapshot_includes_self_witness :
  let evs := [ Connection Fixture.bob_tab;
               StatusRequest Fixture.bob_tab;
               Disconnect Fixture.bob_tab;
               StatusRequest Fixture.alice_tab1 ] in
  Forall (keeps Fixture.alice) evs
  /\ snd (run (fst (step (boot Fixture.db0)
                         (Connection Fixture.alice_tab1))) evs)
     = [ io_emit (user_online "bob");
         socket_emit "sock-b" (users_online ["alice"; "bob"]);
         socket_emit "sock-b" (users_online ["alice"; "bob"]);
         io_emit (user_offline "bob");
         socket_emit "sock-a1" (users_online ["alice"]) ]
  /\ forall sid ids,
       In (socket_emit sid (users_online ids))
          (snd (run (fst (step (boot Fixture.db0)
                               (Connection Fixture.alice_tab1))) evs)) ->
       In Fixture.alice ids.
Proof.
  intros evs.
  assert (H : Forall (keeps Fixture.alice) evs).
  { repeat constructor. discriminate. }
  split; [exact H|]. split; [reflexivity|].
  exact (proj1 (proj2 (proj2
    (snapshot_includes_self (boot Fixture.db0) Fixture.alice_tab1 evs H)))).
Defined.

(* ------------------------------------------------------------------ *)
(** ** message:send, validation and the explicit session *)

Lemma with_db_same (st : Server) : with_db st (db st) = st.
Proof. now destruct st. Qed.

Lemma deliver_and_confirm_payloads online socket r md e :
  In e (deliver_and_confirm online socket r md) ->
  payload_of e = message_receive md \/ payload_of e = message_sent md.
Proof.
  unfold deliver_and_confirm. intros H. apply in_app_or in H.
  destruct H as [H|[H|[]]]; [|subst; simpl; auto].
  revert H. repeat break_match; simpl; intuition (subst; simpl; auto).
Qed.

(** C5: a message:send whose content or recipient is absent or empty is
    answered with one message:error naming the missing fields, emitted on
    the sending socket alone, and the server state (registry, store) is
    returned as it was; with both present and non-empty no such error is
    emitted. *)
Theorem missing_fields_rejected (w : World) (st : Server) (socket : Socket.t)
        (data : SendData) :
  (lacks_required data = true ->
   on_message_send w st socket data
   = (st, [socket_emit (Socket.id socket) missing_fields_error])
   /\ recipients (sockets st)
                 (socket_emit (Socket.id socket) missing_fields_error)
      = [Socket.id socket])
  /\ (lacks_required data = false ->
      forall e, In e (snd (on_message_send w st socket data)) ->
                payload_of e <> missing_fields_error).
Proof.
  unfold lacks_required, on_message_send, missing_fields, send_failed,
    missing_fields_error.
  destruct data as [[r|] [c|] sid]; simpl; split; intros H;
    try (rewrite ?orb_true_r in H; discriminate); try (split; reflexivity).
  - rewrite H. split; reflexivity.
  - rewrite H. intros e.
    repeat break_match; simpl; intros He;
      try (destruct He as [<-|[]]; simpl; discriminate).
    apply deliver_and_confirm_payloads in He.
    destruct He as [-> | ->]; discriminate.
Qed.

Lemma missing_fields_rejected_witness :
  on_message_send Fixture.world
    (fst (step (boot Fixture.db1) (Connection Fixture.alice_tab1)))
    Fixture.alice_tab1 (mkSendData (Some "bob") (Some "") None)
  = (fst (step (boot Fixture.db1) (Connection Fixture.alice_tab1)),
     [socket_emit "sock-a1" missing_fields_error])
  /\ forall e,
       In e (snd (on_message_send Fixture.world (boot Fixture.db1)
                    Fixture.alice_tab1
                    (mkSendData (Some "bob") (Some "hi") None))) ->
       payload_of e <> missing_fields_error.
Proof.
  split.
  - apply (proj1 (missing_fields_rejected Fixture.world _ Fixture.alice_tab1
                    (mkSendData (Some "bob") (Some "") None))).
    reflexivity.
  - apply (proj2 (missing_fields_rejected Fixture.world (boot Fixture.db1)
                    Fixture.alice_tab1
                    (mkSendData (Some "bob") (Some "hi") None))).
    reflexivity.
Defined.

(** C9: a message:send with non-empty content, a recipient and an explicit
    sessionId that names no session row is answered with one message:error
    on the sending socket; the listener creates no message and no session:
    the store it leaves is the store its single lookup read, which is the
    store it started from when no other task ran. *)
Theorem unknown_session_rejected (w : World) (st : Server)
        (socket : Socket.t) (r c sid : string) :
  r <> "" -> c <> "" -> sid <> "" ->
  Prisma.chatSession_findUnique (interleave w AtFind (db st)) sid = None ->
  on_message_send w st socket (mkSendData (Some r) (Some c) (Some sid))
  = (with_db st (interleave w AtFind (db st)),
     [socket_emit (Socket.id socket)
                  (message_error "Failed to create or find session" None)])
  /\ (sequential w ->
      fst (on_message_send w st socket
             (mkSendData (Some r) (Some c) (Some sid))) = st).
Proof.
  intros Hr Hc Hs Hnone.
  apply truthy_true in Hr, Hc, Hs.
  assert (E : on_message_send w st socket
                (mkSendData (Some r) (Some c) (Some sid))
              = (with_db st (interleave w AtFind (db st)),
                 [socket_emit (Socket.id socket)
                    (message_error "Failed to create or find session" None)])).
  { unfold on_message_send, find_or_create_session. simpl.
    now rewrite Hr, Hc, Hs, Hnone. }
  split; [exact E|].
  intros Hseq. rewrite E. simpl. rewrite Hseq. apply with_db_same.
Qed.

Lemma unknown_session_rejected_witness :
  on_message_send Fixture.world (boot Fixture.db1) Fixture.alice_tab1
    (mkSendData (Some "bob") (Some "hi") (Some "nope"))
  = (boot Fixture.db1,
     [socket_emit "sock-a1"
        (message_error "Failed to create or find session" None)]).
Proof.
  refine (proj1 (unknown_session_rejected Fixture.world (boot Fixture.db1)
                   Fixture.alice_tab1 "bob" "hi" "nope" _ _ _ _));
    [discriminate | discriminate | discriminate | reflexivity].
Defined.

(* ------------------------------------------------------------------ *)
(** ** The store operations *)

Lemma find_in_some {A} (f : A -> bool) (l : list A) (x : A) :
  In x l -> f x = true -> find f l <> None.
Proof.
  intros Hin Hf Hnone. pose proof (find_none f l Hnone x Hin). congruence.
Qed.

Lemma chatSession_findUnique_in (d : DB) (s : ChatSession.t) :
  In s (chatSessions d) ->
  Prisma.chatSession_findUnique d (ChatSession.id s) <> None.
Proof.
  intros Hin. unfold Prisma.chatSession_findUnique.
  apply find_in_some with (x := s); [exact Hin | apply String.eqb_refl].
Qed.

Lemma chatSession_findUnique_pair_some (d : DB) (a b : string)
      (s : ChatSession.t) :
  Prisma.chatSession_findUnique_pair d a b = Some s ->
  In s (chatSessions d)
  /\ ChatSession.user1Id s = a /\ ChatSession.user2Id s = b.
Proof.
  unfold Prisma.chatSession_findUnique_pair. intros H.
  apply find_some in H. destruct H as [Hin Hb].
  apply andb_prop in Hb. destruct Hb as [H1 H2].
  apply String.eqb_eq in H1, H2. auto.
Qed.

Lemma chatSession_create_ok (f : Fresh) (d d' : DB) (a b : string)
      (s : ChatSession.t) :
  Prisma.chatSession_create f d a b = inr (s, d') ->
  s = ChatSession.mk (newId f) a b false (now f) (now f)
  /\ d' = mkDB (users d) (chatSessions d ++ [s]) (messages d)
  /\ Prisma.chatSession_findUnique_pair d a b = None
  /\ Prisma.user_findUnique d a <> None
  /\ Prisma.user_findUnique d b <> None.
Proof.
  unfold Prisma.chatSession_create.
  repeat break_match; intros H; try discriminate.
  inversion H; subst. repeat split; congruence.
Qed.

Lemma message_create_ok (f : Fresh) (d d' : DB) (c s r sid : string)
      (m : MessageJoined.t) :
  Prisma.message_create f d c s r sid = inr (m, d') ->
  MessageJoined.row m = Message.mk (newId f) c s r sid false (now f)
  /\ Prisma.select_user d s = Some (MessageJoined.sender m)
  /\ Prisma.select_user d r = Some (MessageJoined.recipient m)
  /\ Prisma.chatSession_findUnique d sid <> None
  /\ d' = mkDB (users d) (chatSessions d)
               (messages d ++ [MessageJoined.row m]).
Proof.
  unfold Prisma.message_create.
  repeat break_match; intros H; try discriminate.
  inversion H; subst. simpl. repeat split; congruence.
Qed.

Lemma chatSession_update_ok (d : DB) (id : string) (t : nat) :
  Prisma.chatSession_findUnique d id <> None ->
  exists d', Prisma.chatSession_update d id t = inr d'
             /\ users d' = users d /\ messages d' = messages d.
Proof.
  unfold Prisma.chatSession_update. intros H.
  destruct (Prisma.chatSession_findUnique d id); [|congruence].
  eexists. repeat split.
Qed.

Lemma chatSession_update_messages (d d' : DB) (id : string) (t : nat) :
  Prisma.chatSession_update d id t = inr d' ->
  users d' = users d /\ messages d' = messages d.
Proof.
  unfold Prisma.chatSession_update.
  destruct (Prisma.chatSession_findUnique d id); [|discriminate].
  intros H. inversion H. auto.
Qed.

(** ** Session resolution inside message:send *)

Lemma session_of_pair_spec (w : World) (d d' : DB) (u r : string)
      (res : PrismaError + option ChatSession.t) :
  sequential w ->
  session_of_pair w d u r = (d', res) ->
  users d' = users d /\ messages d' = messages d
  /\ res <> inr None
  /\ forall s, res = inr (Some s) ->
               In s (chatSessions d')
               /\ (ChatSession.user1Id s, ChatSession.user2Id s) = sort2 u r.
Proof.
  intros Hseq. unfold session_of_pair.
  destruct (sort2 u r) as [a b]. rewrite !Hseq.
  destruct (Prisma.chatSession_findUnique_pair d a b) as [s|] eqn:Ef.
  - intros H. inversion H; subst.
    split; [reflexivity|]. split; [reflexivity|]. split; [congruence|].
    intros s0 Hs. inversion Hs; subst.
    apply chatSession_findUnique_pair_some in Ef.
    destruct Ef as (Hin & -> & ->). auto.
  - destruct (Prisma.chatSession_create (freshSession w) d a b)
      as [e|[s d1]] eqn:Ec; intros H; inversion H; subst.
    + split; [reflexivity|]. split; [reflexivity|]. split; [congruence|].
      intros s Hs. discriminate.
    + apply chatSession_create_ok in Ec.
      destruct Ec as (Hs & Hd & _). subst d'. simpl.
      split; [reflexivity|]. split; [reflexivity|]. split; [congruence|].
      intros s0 E0. inversion E0; subst s0. split.
      * apply in_or_app. right. now left.
      * rewrite Hs. reflexivity.
Qed.

Lemma find_or_create_session_spec (w : World) (d d' : DB) (u r : string)
      (sid : option string) (res : PrismaError + option ChatSession.t) :
  sequential w ->
  find_or_create_session w d u r sid = (d', res) ->
  users d' = users d /\ messages d' = messages d
  /\ forall s, res = inr (Some s) -> In s (chatSessions d').
Proof.
  intros Hseq. unfold find_or_create_session.
  assert (Hpair : session_of_pair w d u r = (d', res) ->
                  users d' = users d /\ messages d' = messages d
                  /\ forall s, res = inr (Some s) -> In s (chatSessions d')).
  { intros H. apply session_of_pair_spec in H; [|exact Hseq].
    destruct H as (H1 & H2 & _ & H3).
    split; [exact H1|]. split; [exact H2|].
    intros s Hs. now apply H3. }
  destruct sid as [sid|]; [|exact Hpair].
  destruct (truthy sid); [|exact Hpair].
  rewrite Hseq. intros H. inversion H; subst.
  split; [reflexivity|]. split; [reflexivity|].
  intros s Hs. inversion Hs as [Hf].
  unfold Prisma.chatSession_findUnique in Hf.
  apply find_some in Hf. tauto.
Qed.

Lemma select_user_users (d d' : DB) (id : string) :
  users d' = users d -> Prisma.select_user d' id = Prisma.select_user d id.
Proof.
  unfold Prisma.select_user, Prisma.user_findUnique. now intros ->.
Qed.






(** The two deliveries on concrete data: bob connected, then bob absent. *)
Example send_to_online_recipient :
  let st := fst (run (boot Fixture.db1)
                     [Connection Fixture.alice_tab1;
                      Connection Fixture.bob_tab]) in
  let md := MessageData.mk "m9" "hi" "alice" "bob" "s1" 8
              (UserSelect.of_user (Fixture.user "alice"))
              (UserSelect.of_user (Fixture.user "bob")) in
  snd (on_message_send Fixture.world st Fixture.alice_tab1
         (mkSendData (Some "bob") (Some "hi") None))
  = [io_to "sock-b" (message_receive md);
     socket_emit "sock-a1" (message_sent md)].
Proof. reflexivity. Qed.

Example send_to_offline_recipient :
  let st := fst (run (boot Fixture.db1) [Connection Fixture.alice_tab1]) in
  let md := MessageData.mk "m9" "hi" "alice" "bob" "s1" 8
              (UserSelect.of_user (Fixture.user "alice"))
              (UserSelect.of_user (Fixture.user "bob")) in
  on_message_send Fixture.world st Fixture.alice_tab1
    (mkSendData (Some "bob") (Some "hi") None)
  = (with_db st
       (mkDB Fixture.people
             [ChatSession.with_updatedAt Fixture.s1 9]
             [Message.mk "m9" "hi" "alice" "bob" "s1" false 8]),
     [socket_emit "sock-a1" (message_sent md)]).
Proof. reflexivity. Qed.

(* ------------------------------------------------------------------ *)
(** ** Sender and recipient against the owning session *)

Lemma is_participant_sort2 (s : ChatSession.t) (u r : string) :
  (ChatSession.user1Id s, ChatSession.user2Id s) = sort2 u r ->
  is_participant s u = true /\ is_participant s r = true.
Proof.
  unfold is_participant. intros H.
  destruct (sort2_cases u r) as [E|E]; rewrite E in H;
    inversion H as [[H1 H2]]; rewrite !String.eqb_refl;
    split; auto using orb_true_r.
Qed.

(** The HTTP route stores a message only between the two participants of
    the session it names. *)
Lemma POST_messages_participants (w : World) (d d' : DB) (auth : option string)
      (c r sid : option string) (m : MessageJoined.t) (status : nat) :
  POST_messages w d auth c r sid = (d', json m status) ->
  exists s,
    Prisma.chatSession_findUnique (interleave w AtFind d)
      (Message.sessionId (MessageJoined.row m)) = Some s
    /\ is_participant s (Message.senderId (MessageJoined.row m)) = true
    /\ is_participant s (Message.recipientId (MessageJoined.row m)) = true.
Proof.
  unfold POST_messages.
  destruct auth as [senderId|]; [|discriminate].
  destruct c as [c|], r as [r|], sid as [sid|]; try discriminate.
  destruct (negb (truthy c) || negb (truthy r) || negb (truthy sid));
    [discriminate|].
  destruct (Prisma.chatSession_findUnique (interleave w AtFind d) sid)
    as [s|] eqn:Ef; [|discriminate].
  destruct (is_participant s senderId) eqn:E1; [|discriminate].
  destruct (is_participant s r) eqn:E2; [|discriminate]. simpl.
  destruct (Prisma.message_create _ _ _ _ _ _) as [e|[message d2]] eqn:Em;
    [discriminate|].
  destruct (Prisma.chatSession_update _ _ _); [discriminate|].
  intros H. inversion H; subst.
  apply message_create_ok in Em. destruct Em as (Hrow & _).
  rewrite Hrow. simpl. eauto.
Qed.

(** So does the relay when it resolves the session from the pair. *)
Lemma session_of_pair_participants (w : World) (d d' : DB) (u r : string)
      (s : ChatSession.t) :
  sequential w ->
  session_of_pair w d u r = (d', inr (Some s)) ->
  is_participant s u = true /\ is_participant s r = true.
Proof.
  intros Hseq H. apply session_of_pair_spec in H; [|exact Hseq].
  destruct H as (_ & _ & _ & H). destruct (H s eq_refl) as [_ Hp].
  now apply is_participant_sort2.
Qed.

(** C2 fails on the relay: carol, who is not in the session of alice and
    bob, names it in a message:send to dave; the message is stored in that
    session and acknowledged. *)
Theorem explicit_session_not_checked :
  let st := fst (step (boot Fixture.db1) (Connection Fixture.carol_tab)) in
  let data := mkSendData (Some "dave") (Some "x") (Some "s1") in
  let st' := fst (on_message_send Fixture.world st Fixture.carol_tab data) in
  messages (db st') = [Message.mk "m9" "x" "carol" "dave" "s1" false 8]
  /\ Prisma.chatSession_findUnique (db st') "s1"
     = Some (ChatSession.with_updatedAt Fixture.s1 9)
  /\ is_participant Fixture.s1 "carol" = false
  /\ is_participant Fixture.s1 "dave" = false
  /\ snd (on_message_send Fixture.world st Fixture.carol_tab data)
     = [socket_emit "sock-c"
          (message_sent
             (MessageData.mk "m9" "x" "carol" "dave" "s1" 8
                (UserSelect.of_user (Fixture.user "carol"))
                (UserSelect.of_user (Fixture.user "dave"))))].
Proof. repeat split. Qed.

(* ------------------------------------------------------------------ *)
(** ** Self-pairing *)

(** The HTTP route refuses a session of a user with themselves and leaves
    the store alone. *)
Lemma POST_sessions_rejects_self (w : World) (d : DB) (u : string) :
  u <> "" ->
  POST_sessions w d (Some u) (Some u)
  = (d, error_json "Cannot create session with yourself" 400).
Proof.
  intros Hu. apply truthy_true in Hu. unfold POST_sessions.
  now rewrite Hu, String.eqb_refl.
Qed.

(** C4 fails on the relay: alice sends to herself; a session of alice with
    alice is created and the message is stored in it. *)
Theorem relay_accepts_self_pairing :
  let st := fst (step (boot Fixture.db0) (Connection Fixture.alice_tab1)) in
  let data := mkSendData (Some "alice") (Some "note") None in
  let st' := fst (on_message_send Fixture.world st Fixture.alice_tab1 data) in
  chatSessions (db st') = [ChatSession.mk "s9" "alice" "alice" false 7 9]
  /\ messages (db st') = [Message.mk "m9" "note" "alice" "alice" "s9" false 8]
  /\ (forall e,
        In e (snd (on_message_send Fixture.world st Fixture.alice_tab1 data))
        -> forall error details,
          payload_of e <> message_error error details)
  /\ POST_sessions Fixture.world Fixture.db0 (Some "alice") (Some "alice")
     = (Fixture.db0, error_json "Cannot create session with yourself" 400).
Proof.
  repeat split.
  simpl. intros e [<-|[<-|[]]]; discriminate.
Qed.

(* ------------------------------------------------------------------ *)
(** ** The create race *)

(** The HTTP route: when the create is refused with P2002 the pair is read
    again; the session found is the answer, and only a second miss is
    reported as a failure. *)
Lemma create_or_reread_tolerates_race (w : World) (d : DB) (a b : string) :
  Include.create (freshSession w) (interleave w AtCreate d) a b = inl P2002 ->
  let d2 := interleave w AtReread (interleave w AtCreate d) in
  (forall s, Include.findUnique_pair d2 a b = inr (Some s) ->
             create_or_reread w d a b = (d2, json s 200))
  /\ (Include.findUnique_pair d2 a b = inr None ->
      create_or_reread w d a b = (d2, sessions_failed)).
Proof.
  intros Hc d2. unfold create_or_reread. rewrite Hc. fold d2.
  split; [intros s Hs | intros Hs]; now rewrite Hs.
Qed.

(** C3 fails on the relay: alice sends her first message to bob while
    another request creates their session between the relay's lookup and
    its create. The create is refused with P2002, the relay does not read
    the pair again: it reports the failure and stores no message, although
    the session now exists. The HTTP route, in the same race, answers with
    that session. *)
Theorem relay_surfaces_create_race :
  let st := fst (step (boot Fixture.db0) (Connection Fixture.alice_tab1)) in
  let data := mkSendData (Some "bob") (Some "hi") None in
  Prisma.chatSession_findUnique_pair
    (interleave Fixture.racing AtFind (db st)) "alice" "bob" = None
  /\ Prisma.chatSession_create (freshSession Fixture.racing)
       (interleave Fixture.racing AtCreate (db st)) "alice" "bob" = inl P2002
  /\ on_message_send Fixture.racing st Fixture.alice_tab1 data
     = (with_db st Fixture.db1,
        [socket_emit "sock-a1"
           (message_error "Failed to send message" (Some P2002))])
  /\ Prisma.chatSession_findUnique_pair Fixture.db1 "alice" "bob"
     = Some Fixture.s1
  /\ POST_sessions Fixture.racing Fixture.db0 (Some "alice") (Some "bob")
     = (Fixture.db1,
        json (SessionJoined.mk Fixture.s1
                (UserSelect.of_user (Fixture.user "alice"))
                (UserSelect.of_user (Fixture.user "bob")) [])
             200).
Proof. repeat split. Qed.

(* ------------------------------------------------------------------ *)
(** ** The canonical pair *)

Lemma chatSession_findUnique_pair_app (d : DB) (a b : string)
      (s : ChatSession.t) :
  Prisma.chatSession_findUnique_pair d a b = None ->
  ChatSession.user1Id s = a -> ChatSession.user2Id s = b ->
  Prisma.chatSession_findUnique_pair
    (mkDB (users d) (chatSessions d ++ [s]) (messages d)) a b = Some s.
Proof.
  unfold Prisma.chatSession_findUnique_pair. simpl.
  intros Hnone <- <-. induction (chatSessions d) as [|x l IH]; simpl in *.
  - now rewrite !String.eqb_refl.
  - destruct (String.eqb (ChatSession.user1Id x) (ChatSession.user1Id s)
              && String.eqb (ChatSession.user2Id x) (ChatSession.user2Id s));
      [discriminate | now apply IH].
Qed.

(** Resolving the pair a second time, in either order, finds what the first
    resolution returned and leaves the store alone. *)
Lemma session_of_pair_again (w : World) (d d' : DB) (a b : string)
      (s : ChatSession.t) :
  sequential w ->
  session_of_pair w d a b = (d', inr (Some s)) ->
  session_of_pair w d' b a = (d', inr (Some s))
  /\ session_of_pair w d' a b = (d', inr (Some s)).
Proof.
  intros Hseq H.
  assert (Hfound : forall x y, sort2 a b = (x, y) ->
            Prisma.chatSession_findUnique_pair d' x y = Some s).
  { intros x y Hxy. revert H. unfold session_of_pair.
    rewrite Hxy, !Hseq.
    destruct (Prisma.chatSession_findUnique_pair d x y) as [s0|] eqn:Ef.
    - intros H. inversion H; subst. exact Ef.
    - destruct (Prisma.chatSession_create (freshSession w) d x y)
        as [e|[s1 d1]] eqn:Ec; intros H; inversion H; subst.
      apply chatSession_create_ok in Ec. destruct Ec as (Hs & -> & _).
      apply chatSession_findUnique_pair_app; [exact Ef | |];
        rewrite Hs; reflexivity. }
  unfold session_of_pair. rewrite (sort2_comm b a).
  destruct (sort2 a b) as [x y]. rewrite !Hseq.
  now rewrite (Hfound x y eq_refl).
Qed.

Lemma join_session_users {M} (d d' : DB) (s : ChatSession.t) (l : list M) :
  users d' = users d ->
  Include.join_session d' s l = Include.join_session d s l.
Proof.
  intros Hu. unfold Include.join_session.
  now rewrite !(select_user_users d d' _ Hu).
Qed.

Lemma user_findUnique_users (d d' : DB) (id : string) :
  users d' = users d ->
  Prisma.user_findUnique d' id = Prisma.user_findUnique d id.
Proof. unfold Prisma.user_findUnique. now intros ->. Qed.

(** What a 200 answer of the HTTP resolver tells, when no other task ran. *)
Lemma POST_sessions_ok_inv (w : World) (d d' : DB) (A B : string)
      (js : SessionJoined.t Message.t) (status : nat) :
  sequential w ->
  POST_sessions w d (Some A) (Some B) = (d', json js status) ->
  truthy B = true /\ A <> B
  /\ Prisma.user_findUnique d A <> None
  /\ Prisma.user_findUnique d B <> None
  /\ exists x y,
      sort2 A B = (x, y)
      /\ ((Include.findUnique_pair d x y = inr (Some js) /\ d' = d)
          \/ (Include.findUnique_pair d x y = inr None
              /\ Include.create (freshSession w) d x y = inr (js, d'))).
Proof.
  intros Hseq. unfold POST_sessions, create_or_reread, sessions_failed.
  destruct (truthy B); simpl; [|discriminate].
  destruct (String.eqb_spec A B) as [|Hne]; [discriminate|].
  rewrite !Hseq.
  destruct (Prisma.user_findUnique d A) eqn:EA; [|discriminate].
  destruct (Prisma.user_findUnique d B) eqn:EB; [|discriminate].
  destruct (sort2 A B) as [x y]. cbv beta iota zeta. rewrite ?Hseq.
  destruct (Include.findUnique_pair d x y) as [e|[found|]] eqn:Ef;
    [discriminate | |].
  - intros H. inversion H; subst.
    repeat split; try congruence. exists x, y. auto.
  - destruct (Include.create (freshSession w) d x y) as [e|[c d1]] eqn:Ec.
    + destruct e; discriminate.
    + intros H. inversion H; subst.
      repeat split; try congruence. exists x, y. auto.
Qed.

Lemma Include_create_then_find (f : Fresh) (d d' : DB) (x y : string)
      (js : SessionJoined.t Message.t) :
  Include.create f d x y = inr (js, d') ->
  users d' = users d
  /\ exists js', Include.findUnique_pair d' x y = inr (Some js')
                 /\ SessionJoined.row js' = SessionJoined.row js.
Proof.
  unfold Include.create.
  destruct (Prisma.chatSession_create f d x y) as [e|[s d1]] eqn:Ec;
    [discriminate|].
  apply chatSession_create_ok in Ec.
  destruct Ec as (Hs & Hd1 & Hnone & _).
  unfold Include.join_session.
  destruct (Prisma.select_user d1 (ChatSession.user1Id s)) as [u1|] eqn:E1;
    [|discriminate].
  destruct (Prisma.select_user d1 (ChatSession.user2Id s)) as [u2|] eqn:E2;
    [|discriminate].
  intros H. inversion H; subst js d'. clear H.
  split; [subst d1; reflexivity|].
  unfold Include.findUnique_pair.
  assert (Hf : Prisma.chatSession_findUnique_pair d1 x y = Some s).
  { rewrite Hd1. apply chatSession_findUnique_pair_app;
      [exact Hnone | |]; rewrite Hs; reflexivity. }
  rewrite Hf. unfold Include.join_session. rewrite E1, E2.
  eexists. split; reflexivity.
Qed.

(** C7: the two identities are sorted before the lookup, so the pair
    (A, B) and the pair (B, A) are the same key; once (A, B) has been
    resolved, on the relay or through the HTTP route, resolving (B, A)
    returns the same session row and leaves the store as it is. *)
Theorem swapped_pair_same_session (w : World) (d d' : DB) (A B : string) :
  sequential w -> A <> B -> A <> "" ->
  sort2 A B = sort2 B A
  /\ (forall x y, sort2 A B = (x, y) -> String.leb x y = true)
  /\ (forall s, session_of_pair w d A B = (d', inr (Some s)) ->
                session_of_pair w d' B A = (d', inr (Some s)))
  /\ (forall js status,
        POST_sessions w d (Some A) (Some B) = (d', json js status) ->
        exists js',
          POST_sessions w d' (Some B) (Some A) = (d', json js' 200)
          /\ SessionJoined.row js' = SessionJoined.row js).
Proof.
  intros Hseq Hne HA.
  split; [apply sort2_comm|].
  split; [intros x y; apply sort2_ordered|].
  split.
  { intros s H. now apply (session_of_pair_again w d d' A B s Hseq H). }
  intros js status H.
  apply POST_sessions_ok_inv in H; [|exact Hseq].
  destruct H as (HB & _ & HuA & HuB & x & y & Hxy & Hcase).
  assert (Hu : users d' = users d /\
               exists js', Include.findUnique_pair d' x y = inr (Some js')
                           /\ SessionJoined.row js' = SessionJoined.row js).
  { destruct Hcase as [[Hf ->]|[_ Hc]].
    - split; [reflexivity|]. exists js. auto.
    - now apply Include_create_then_find in Hc. }
  destruct Hu as (Hu & js' & Hf' & Hrow).
  exists js'. split; [|exact Hrow].
  apply truthy_true in HA.
  unfold POST_sessions. rewrite HA. simpl.
  destruct (String.eqb_spec B A) as [E|_]; [congruence|].
  cbv beta iota zeta.
  rewrite !Hseq, !(user_findUnique_users d d' _ Hu).
  destruct (Prisma.user_findUnique d B); [|congruence].
  destruct (Prisma.user_findUnique d A); [|congruence].
  rewrite (sort2_comm B A), Hxy. cbv beta iota zeta.
  rewrite ?Hseq, Hf'. reflexivity.
Qed.

Lemma swapped_pair_same_session_witness :
  let d' := mkDB Fixture.people
                 [ChatSession.mk "s9" "alice" "bob" false 7 7] [] in
  let js := SessionJoined.mk (ChatSession.mk "s9" "alice" "bob" false 7 7)
              (UserSelect.of_user (Fixture.user "alice"))
              (UserSelect.of_user (Fixture.user "bob")) [] in
  POST_sessions Fixture.world Fixture.db0 (Some "bob") (Some "alice")
  = (d', json js 200)
  /\ session_of_pair Fixture.world Fixture.db0 "bob" "alice"
     = (d', inr (Some (SessionJoined.row js)))
  /\ session_of_pair Fixture.world d' "alice" "bob"
     = (d', inr (Some (SessionJoined.row js)))
  /\ exists js',
      POST_sessions Fixture.world d' (Some "alice") (Some "bob")
      = (d', json js' 200)
      /\ SessionJoined.row js' = SessionJoined.row js.
Proof.
  intros d' js.
  assert (Hseq : sequential Fixture.world) by (intros a x; reflexivity).
  assert (Hne : "bob" <> "alice") by discriminate.
  assert (Hb : "bob" <> "") by discriminate.
  pose proof (swapped_pair_same_session Fixture.world Fixture.db0 d'
                "bob" "alice" Hseq Hne Hb) as (_ & _ & Hws & Hhttp).
  split; [reflexivity|]. split; [reflexivity|].
  split; [apply Hws; reflexivity | apply (Hhttp js 200); reflexivity].
Defined.

(* ------------------------------------------------------------------ *)
(** ** Ordering and paging *)

Lemma insert_by_createdAt_perm (m : Message.t) (l : list Message.t) :
  Permutation (Prisma.insert_by_createdAt m l) (m :: l).
Proof.
  induction l as [|x l IH]; simpl; [reflexivity|].
  destruct (Nat.ltb (Message.createdAt m) (Message.createdAt x));
    [reflexivity|].
  rewrite IH. apply perm_swap.
Qed.

Lemma insert_by_createdAt_hd (x m : Message.t) (l : list Message.t) :
  createdAt_le x m -> HdRel createdAt_le x l ->
  HdRel createdAt_le x (Prisma.insert_by_createdAt m l).
Proof.
  intros Hxm Hhd. destruct l as [|y l]; simpl; [now constructor|].
  destruct (Nat.ltb (Message.createdAt m) (Message.createdAt y));
    constructor; [exact Hxm | now inversion Hhd].
Qed.

Lemma insert_by_createdAt_sorted (m : Message.t) (l : list Message.t) :
  Sorted createdAt_le l -> Sorted createdAt_le (Prisma.insert_by_createdAt m l).
Proof.
  induction 1 as [|x l Hs IH Hhd]; simpl.
  - repeat constructor.
  - destruct (Nat.ltb_spec (Message.createdAt m) (Message.createdAt x)).
    + constructor; [now constructor|]. constructor.
      unfold createdAt_le. lia.
    + constructor; [exact IH|].
      apply insert_by_createdAt_hd; [exact H | exact Hhd].
Qed.

Lemma fold_insert_spec (l : list Message.t) : forall acc,
  Sorted createdAt_le acc ->
  Sorted createdAt_le
    (fold_left (fun a m => Prisma.insert_by_createdAt m a) l acc)
  /\ Permutation
       (fold_left (fun a m => Prisma.insert_by_createdAt m a) l acc)
       (acc ++ l).
Proof.
  induction l as [|m l IH]; intros acc Hacc; simpl.
  - split; [exact Hacc | now rewrite app_nil_r].
  - destruct (IH (Prisma.insert_by_createdAt m acc)
                 (insert_by_createdAt_sorted m acc Hacc)) as [H1 H2].
    split; [exact H1|].
    rewrite H2, insert_by_createdAt_perm.
    change (m :: acc ++ l)%list with ((m :: acc) ++ l)%list.
    apply Permutation_middle.
Qed.

Lemma orderBy_createdAt_asc_sorted (l : list Message.t) :
  Sorted createdAt_le (Prisma.orderBy_createdAt_asc l).
Proof. apply fold_insert_spec. constructor. Qed.

Lemma orderBy_createdAt_asc_perm (l : list Message.t) :
  Permutation (Prisma.orderBy_createdAt_asc l) l.
Proof. apply (fold_insert_spec l []). constructor. Qed.

Lemma join_messages_ok (d : DB) (l : list Message.t) :
  (forall m, In m l ->
             Prisma.select_user d (Message.senderId m) <> None
             /\ Prisma.select_user d (Message.recipientId m) <> None) ->
  exists js, Prisma.join_messages d l = inr js
             /\ map MessageJoined.row js = l.
Proof.
  induction l as [|m l IH]; intros H; simpl.
  - exists []. auto.
  - destruct IH as (js & Hjs & Hrows).
    { intros x Hx. apply H. now right. }
    destruct (H m (or_introl eq_refl)) as [Hs Hr].
    unfold Prisma.join_message.
    destruct (Prisma.select_user d (Message.senderId m)); [|congruence].
    destruct (Prisma.select_user d (Message.recipientId m)); [|congruence].
    rewrite Hjs. eexists. split; [reflexivity|]. simpl. now rewrite Hrows.
Qed.

Lemma Math_ceil_div_spec (a b : Z) :
  (1 <= b)%Z ->
  exists n, Math_ceil_div a b = Some n
            /\ ((n - 1) * b < a <= n * b)%Z.
Proof.
  intros Hb. unfold Math_ceil_div.
  destruct (Z.eqb_spec b 0); [lia|].
  eexists. split; [reflexivity|].
  pose proof (Z.div_mod (- a) b ltac:(lia)).
  pose proof (Z.mod_pos_bound (- a) b ltac:(lia)).
  nia.
Qed.

Lemma Sorted_skipn {A} (R : A -> A -> Prop) (n : nat) : forall l,
  Sorted R l -> Sorted R (skipn n l).
Proof.
  induction n as [|n IH]; intros l Hs; simpl; [exact Hs|].
  destruct l; [constructor|]. inversion Hs; subst. now apply IH.
Qed.

Lemma Sorted_firstn {A} (R : A -> A -> Prop) (l : list A) : forall n,
  Sorted R l -> Sorted R (firstn n l).
Proof.
  induction l as [|a l IH]; intros n Hs; destruct n; simpl;
    try constructor.
  - inversion Hs; subst. now apply IH.
  - inversion Hs as [|? ? _ Hhd]; subst.
    destruct l, n; simpl; constructor. now inversion Hhd.
Qed.

Lemma rows_from_skipn {A} (l : list A) : forall n,
  Include.rows_from n l = skipn (Z.to_nat n) l.
Proof.
  induction l as [|x l IH]; intros n; simpl; [now rewrite skipn_nil|].
  destruct (Z.leb_spec n 0) as [Hn|Hn].
  - now replace (Z.to_nat n) with 0 by lia.
  - replace (Z.to_nat n) with (S (Z.to_nat (n - 1))) by lia. apply IH.
Qed.

Lemma first_rows_firstn {A} (l : list A) : forall n,
  Include.first_rows n l = firstn (Z.to_nat n) l.
Proof.
  induction l as [|x l IH]; intros n; simpl; [now rewrite firstn_nil|].
  destruct (Z.leb_spec n 0) as [Hn|Hn].
  - now replace (Z.to_nat n) with 0 by lia.
  - replace (Z.to_nat n) with (S (Z.to_nat (n - 1))) by lia.
    simpl. now rewrite IH.
Qed.

Lemma skip_take_spec {A} (skip take : Z) (l : list A) :
  Include.skip_take skip take l
  = if (0 <=? take)%Z
    then firstn (Z.to_nat take) (skipn (Z.to_nat skip) l)
    else rev (firstn (Z.to_nat (- take)) (skipn (Z.to_nat skip) (rev l))).
Proof.
  unfold Include.skip_take.
  now rewrite !first_rows_firstn, !rows_from_skipn.
Qed.

Lemma In_firstn {A} (n : nat) (l : list A) (x : A) :
  In x (firstn n l) -> In x l.
Proof.
  intros H. rewrite <- (firstn_skipn n l). apply in_or_app. now left.
Qed.

Lemma In_skipn {A} (n : nat) (l : list A) (x : A) :
  In x (skipn n l) -> In x l.
Proof.
  intros H. rewrite <- (firstn_skipn n l). apply in_or_app. now right.
Qed.

(** ** Numbers: where the arithmetic of the page route is exact *)

Lemma to_double_exact (n : Z) :
  (Z.abs n <= 2 ^ 53)%Z -> to_double n = n.
Proof.
  intros H. unfold to_double.
  destruct (Z.ltb_spec (Z.abs n) (2 ^ 53)) as [|Hge]; [reflexivity|].
  assert (E : n = (2 ^ 53)%Z \/ n = (- 2 ^ 53)%Z) by lia.
  destruct E as [-> | ->]; reflexivity.
Qed.

Lemma isFinite_exact (n : Z) :
  (Z.abs n <= 2 ^ 53)%Z -> isFinite n = true.
Proof.
  intros H. unfold isFinite. apply Z.ltb_lt.
  apply (Z.le_lt_trans _ (2 ^ 53)); [exact H | reflexivity].
Qed.

Lemma fits_i64_exact (n : Z) :
  (Z.abs n <= 2 ^ 53)%Z -> Include.fits_i64 n = true.
Proof.
  intros H. unfold Include.fits_i64.
  apply andb_true_intro. split; [apply Z.leb_le | apply Z.ltb_lt]; lia.
Qed.

Lemma query_int_exact (n fallback : Z) :
  (Z.abs n <= 2 ^ 53)%Z -> query_int (Some n) fallback = n.
Proof. apply to_double_exact. Qed.

Lemma skip_exact (page limit : Z) :
  (1 <= page)%Z -> (1 <= limit)%Z -> (page * limit <= 2 ^ 53)%Z ->
  Number_mul (Number_sub page 1) limit = ((page - 1) * limit)%Z.
Proof.
  intros Hp Hl Hb. unfold Number_mul, Number_sub.
  rewrite (to_double_exact (page - 1)) by nia.
  apply to_double_exact. nia.
Qed.

(** Rounding does not bring a number from 2^53 on below 2^53. *)
Lemma to_double_large (n : Z) :
  (2 ^ 53 <= n)%Z -> (2 ^ 53 <= to_double n)%Z.
Proof.
  intros H. unfold to_double.
  rewrite (Z.abs_eq n) by lia.
  destruct (Z.ltb_spec n (2 ^ 53)) as [|_]; [lia|].
  assert (Hk : (53 <= Z.log2 n)%Z).
  { change 53%Z with (Z.log2 (2 ^ 53)) at 1. now apply Z.log2_le_mono. }
  destruct (Z.log2_spec n ltac:(lia)) as [Hlo _].
  set (ulp := (2 ^ (Z.log2 n - 52))%Z).
  assert (Hulp : (2 ^ Z.log2 n = 2 ^ 52 * ulp)%Z).
  { unfold ulp. rewrite <- Z.pow_add_r by lia. f_equal. lia. }
  assert (H2 : (2 <= ulp)%Z).
  { change 2%Z with (2 ^ 1)%Z at 1. unfold ulp.
    apply Z.pow_le_mono_r; lia. }
  assert (Hq : (2 ^ 52 <= n / ulp)%Z).
  { apply Z.div_le_lower_bound; lia. }
  rewrite (Z.sgn_pos n) by lia.
  set (q := (n / ulp)%Z) in *.
  destruct (2 * (n mod ulp) <? ulp)%Z;
    [|destruct (ulp <? 2 * (n mod ulp))%Z; [|destruct (Z.even q)]];
    nia.
Qed.

Lemma to_double_small (n : Z) :
  (0 <= n)%Z -> (to_double n < 2 ^ 53)%Z -> to_double n = n.
Proof.
  intros H0 H. apply to_double_exact.
  destruct (Z.le_gt_cases (2 ^ 53) n) as [Hn|Hn].
  - apply to_double_large in Hn. lia.
  - lia.
Qed.

(** An offset below 2^53 was computed exactly; an offset from 2^53 on
    stands for an exact offset from 2^53 on. *)
Lemma skip_cases (page limit : Z) :
  (1 <= page)%Z -> (1 <= limit)%Z ->
  let skip := Number_mul (Number_sub page 1) limit in
  (skip = (page - 1) * limit)%Z
  \/ (2 ^ 53 <= skip /\ 2 ^ 53 <= (page - 1) * limit)%Z.
Proof.
  intros Hp Hl skip.
  destruct (Z.le_gt_cases (2 ^ 53) ((page - 1) * limit)) as [Hbig|Hsmall].
  - right. split; [|exact Hbig]. unfold skip, Number_mul, Number_sub.
    apply to_double_large.
    destruct (Z.le_gt_cases (2 ^ 53) (page - 1)) as [Hp1|Hp1].
    + apply to_double_large in Hp1. nia.
    + rewrite (to_double_exact (page - 1)) by lia. exact Hbig.
  - left. unfold skip, Number_mul, Number_sub.
    rewrite (to_double_exact (page - 1)) by nia.
    apply to_double_exact. nia.
Qed.

(** C8, as the spec words it, fails: a page number beyond 64 bits, here
    10^20 with limit 2, is a page >= 1 of a session alice takes part in,
    but the offset does not fit the query and the route answers 500
    instead of a page. *)
Lemma page_beyond_64_bits_is_refused :
  Prisma.chatSession_findUnique Fixture.db5 "s1" = Some Fixture.s1
  /\ is_participant Fixture.s1 "alice" = true
  /\ (1 <= 10 ^ 20)%Z /\ (1 <= 2)%Z
  /\ GET_session Fixture.world Fixture.db5 (Some "alice") "s1"
                 (Some (10 ^ 20)%Z) (Some 2%Z)
     = error_json "Failed to fetch chat session" 500.
Proof.
  split; [reflexivity|]. split; [reflexivity|].
  split; [vm_compute; discriminate|]. split; [lia|].
  vm_compute. reflexivity.
Qed.

(** C8, amended: for an existing session the caller takes part in, with
    page >= 1, limit >= 1 and page * limit at most 2^53, the route answers
    200; the messages it returns are the rows at offsets
    (page-1)*limit .. page*limit-1 of the messages stored with that
    session's id, ordered by creation time, oldest first (fewer when the
    order ends before), and totalPages is the least n with n*limit >= the
    number of messages stored with that session's id when the route counts
    them. [d0] is the store as the page query finds it, [d1] the store as
    the count finds it; they are [d] when no other task runs meanwhile. *)
Theorem page_of_session (w : World) (d : DB) (userId id : string)
        (page limit : Z) (s : ChatSession.t) :
  let d0 := interleave w AtFind d in
  let d1 := interleave w AtCount d0 in
  referential d0 ->
  (1 <= page)%Z -> (1 <= limit)%Z -> (page * limit <= 2 ^ 53)%Z ->
  Prisma.chatSession_findUnique d0 id = Some s ->
  is_participant s userId = true ->
  let in_session :=
    filter (fun m => String.eqb (Message.sessionId m) id) (messages d0) in
  let counted :=
    filter (fun m => String.eqb (Message.sessionId m) id) (messages d1) in
  let ordered := Prisma.orderBy_createdAt_asc in_session in
  let skip := Z.to_nat ((page - 1) * limit) in
  exists body,
    GET_session w d (Some userId) id (Some page) (Some limit) = json body 200
    /\ SessionJoined.row (chatSession body) = s
    /\ Sorted createdAt_le ordered
    /\ Permutation ordered in_session
    /\ (let rows := map MessageJoined.row
                        (SessionJoined.messages (chatSession body)) in
        Sorted createdAt_le rows
        /\ length rows = Nat.min (Z.to_nat limit) (length ordered - skip)
        /\ forall i, i < Z.to_nat limit ->
                     nth_error rows i = nth_error ordered (skip + i))
    /\ exists n,
        pagination body
        = mkPagination page limit (Z.of_nat (length counted)) (Some n)
        /\ ((n - 1) * limit < Z.of_nat (length counted) <= n * limit)%Z.
Proof.
  intros d0 d1 [Hmsgs Hsess] Hpage Hlimit Hbound Hfind Hpart
         in_session counted ordered skip.
  pose proof (orderBy_createdAt_asc_sorted in_session) as Hsorted.
  pose proof (orderBy_createdAt_asc_perm in_session) as Hperm.
  fold ordered in Hsorted, Hperm.
  set (slice := firstn (Z.to_nat limit) (skipn skip ordered)).
  destruct (join_messages_ok d0 slice) as (js & Hjs & Hrows).
  { intros m Hm. apply Hmsgs.
    apply In_firstn, In_skipn in Hm.
    apply (Permutation_in _ Hperm) in Hm.
    apply filter_In in Hm. tauto. }
  assert (Hin : In s (chatSessions d0)).
  { unfold Prisma.chatSession_findUnique in Hfind.
    apply find_some in Hfind. tauto. }
  destruct (Hsess s Hin) as [H1 H2].
  destruct (Prisma.select_user d0 (ChatSession.user1Id s)) as [u1|] eqn:E1;
    [|congruence].
  destruct (Prisma.select_user d0 (ChatSession.user2Id s)) as [u2|] eqn:E2;
    [|congruence].
  destruct (Math_ceil_div_spec (Z.of_nat (length counted)) limit Hlimit)
    as (n & Hn & Hceil).
  assert (Hp53 : (Z.abs page <= 2 ^ 53)%Z) by nia.
  assert (Hl53 : (Z.abs limit <= 2 ^ 53)%Z) by nia.
  assert (Hs53 : (Z.abs ((page - 1) * limit) <= 2 ^ 53)%Z) by nia.
  assert (Hget :
    GET_session w d (Some userId) id (Some page) (Some limit)
    = json (mkSessionPage (SessionJoined.mk s u1 u2 js)
              (mkPagination page limit (Z.of_nat (length counted))
                            (Some n)))
           200).
  { unfold GET_session. cbv beta iota zeta.
    rewrite (query_int_exact page 1 Hp53), (query_int_exact limit 50 Hl53).
    rewrite (skip_exact page limit Hpage Hlimit Hbound).
    rewrite (isFinite_exact page Hp53), (isFinite_exact limit Hl53).
    unfold Include.findUnique_page.
    rewrite (fits_i64_exact _ Hs53), (fits_i64_exact _ Hl53).
    destruct (Z.ltb_spec ((page - 1) * limit) 0) as [|_]; [nia|].
    fold d0. fold d1. cbv beta iota zeta. simpl orb. simpl negb. cbv iota.
    rewrite Hfind, skip_take_spec. unfold Include.join_session.
    destruct (Z.leb_spec 0 limit) as [_|]; [|lia].
    unfold Prisma.messages_of, Prisma.message_count, Prisma.messages_of.
    fold in_session. fold counted. fold ordered. fold skip. fold slice.
    rewrite Hjs, E1, E2. cbv beta iota zeta.
    unfold SessionJoined.row. rewrite Hpart. simpl negb. cbv iota.
    now rewrite Hn. }
  eexists. split; [exact Hget|]. simpl.
  split; [reflexivity|]. split; [exact Hsorted|]. split; [exact Hperm|].
  split.
  - rewrite Hrows. split; [|split].
    + apply Sorted_firstn, Sorted_skipn, Hsorted.
    + unfold slice. now rewrite length_firstn, length_skipn.
    + intros i Hi. unfold slice.
      rewrite nth_error_firstn, nth_error_skipn.
      destruct (Nat.ltb_spec i (Z.to_nat limit)); [reflexivity | lia].
  - exists n. split; [reflexivity | exact Hceil].
Qed.

Lemma referential_db5 : referential Fixture.db5.
Proof.
  split; intros x Hin; simpl in Hin;
    repeat (destruct Hin as [<-|Hin]; [split; discriminate|]);
    contradiction.
Defined.

Lemma page_of_session_witness :
  exists body,
    GET_session Fixture.world Fixture.db5 (Some "bob") "s1" (Some 2%Z)
                (Some 2%Z) = json body 200
    /\ map MessageJoined.row (SessionJoined.messages (chatSession body))
       = [Fixture.msg "m3" "c" 30; Fixture.msg "m4" "d" 40]
    /\ pagination body = mkPagination 2 2 5 (Some 3%Z).
Proof.
  destruct (page_of_session Fixture.world Fixture.db5 "bob" "s1"
              2 2 Fixture.s1 referential_db5
              ltac:(lia) ltac:(lia) ltac:(vm_compute; discriminate)
              eq_refl eq_refl)
    as (body & Hget & _).
  exists body. split; [exact Hget|].
  vm_compute in Hget. inversion Hget. split; reflexivity.
Defined.

(** The last page of the same session holds the one remaining message. *)
Example last_page_is_short :
  match GET_session Fixture.world Fixture.db5 (Some "alice") "s1"
                    (Some 3%Z) (Some 2%Z) with
  | json body 200 =>
      map MessageJoined.row (SessionJoined.messages (chatSession body))
      = [Fixture.msg "m5" "e" 50]
      /\ pagination body = mkPagination 3 2 5 (Some 3%Z)
  | _ => False
  end.
Proof. vm_compute. split; reflexivity. Qed.

(** The store operations keep the foreign keys. *)
Lemma message_create_referential (f : Fresh) (d d' : DB)
      (c s r sid : string) (m : MessageJoined.t) :
  referential d ->
  Prisma.message_create f d c s r sid = inr (m, d') -> referential d'.
Proof.
  intros [Hm Hs] H. apply message_create_ok in H.
  destruct H as (Hrow & Hsel & Hrec & _ & ->).
  split; simpl.
  - intros x Hx.
    apply in_app_or in Hx. destruct Hx as [Hx|[<-|[]]]; [exact (Hm x Hx)|].
    rewrite Hrow. simpl.
    change (Prisma.select_user d s <> None /\ Prisma.select_user d r <> None).
    split; congruence.
  - intros x Hx. exact (Hs x Hx).
Qed.

Lemma chatSession_create_referential (f : Fresh) (d d' : DB) (a b : string)
      (s : ChatSession.t) :
  referential d ->
  Prisma.chatSession_create f d a b = inr (s, d') -> referential d'.
Proof.
  intros [Hm Hs] H. apply chatSession_create_ok in H.
  destruct H as (-> & -> & _ & Ha & Hb).
  split; simpl.
  - intros x Hx. exact (Hm x Hx).
  - intros x Hx.
    apply in_app_or in Hx. destruct Hx as [Hx|[<-|[]]]; [exact (Hs x Hx)|].
    simpl.
    change (Prisma.select_user d a <> None /\ Prisma.select_user d b <> None).
    unfold Prisma.select_user.
    destruct (Prisma.user_findUnique d a); [|congruence].
    destruct (Prisma.user_findUnique d b); [|congruence].
    split; discriminate.
Qed.

Lemma chatSession_update_referential (d d' : DB) (id : string) (t : nat) :
  referential d ->
  Prisma.chatSession_update d id t = inr d' -> referential d'.
Proof.
  intros [Hm Hs]. unfold Prisma.chatSession_update.
  destruct (Prisma.chatSession_findUnique d id); [|discriminate].
  intros H. inversion H; subst. clear H. split; simpl.
  - intros x Hx. exact (Hm x Hx).
  - intros x Hx.
    apply in_map_iff in Hx. destruct Hx as (s0 & <- & Hs0).
    destruct (String.eqb (ChatSession.id s0) id); simpl; exact (Hs s0 Hs0).
Qed.

(* ------------------------------------------------------------------ *)
(** ** The registry along a run *)

Lemma Socket_eta (s : Socket.t) : Socket.mk (Socket.id s) (Socket.userId s) = s.
Proof. now destruct s. Qed.

Lemma keys_set_inv (m : JsMap.t) (k v x : string) :
  In x (JsMap.keys (JsMap.set m k v)) -> x = k \/ In x (JsMap.keys m).
Proof.
  induction m as [|[k0 v0] m IH]; simpl.
  - intuition.
  - destruct (String.eqb_spec k0 k) as [->|Hk]; simpl; intuition.
Qed.

Lemma keys_delete_inv (m : JsMap.t) (k x : string) :
  In x (JsMap.keys (JsMap.delete m k)) -> In x (JsMap.keys m) /\ x <> k.
Proof.
  induction m as [|[k0 v0] m IH]; simpl; [tauto|].
  destruct (String.eqb_spec k0 k) as [->|Hk]; simpl.
  - intros H. destruct (IH H). auto.
  - intros [<-|H]; [auto|]. destruct (IH H). auto.
Qed.

Lemma keys_set_NoDup (m : JsMap.t) (k v : string) :
  NoDup (JsMap.keys m) -> NoDup (JsMap.keys (JsMap.set m k v)).
Proof.
  induction m as [|[k0 v0] m IH]; simpl; intros Hnd.
  - repeat constructor. intros [].
  - inversion Hnd as [|? ? Hnotin Hnd']; subst.
    destruct (String.eqb_spec k0 k) as [->|Hk]; simpl.
    + now constructor.
    + constructor; [|now apply IH].
      intros Hin. apply keys_set_inv in Hin. intuition.
Qed.

Lemma keys_delete_NoDup (m : JsMap.t) (k : string) :
  NoDup (JsMap.keys m) -> NoDup (JsMap.keys (JsMap.delete m k)).
Proof.
  induction m as [|[k0 v0] m IH]; simpl; intros Hnd; [constructor|].
  inversion Hnd as [|? ? Hnotin Hnd']; subst.
  destruct (String.eqb_spec k0 k) as [->|Hk]; simpl; [now apply IH|].
  constructor; [|now apply IH].
  intros Hin. apply keys_delete_inv in Hin. tauto.
Qed.

(** What an event other than a connection or a disconnect leaves alone. *)
Lemma step_frame (st : Server) (ev : Event) :
  presence_event ev = false ->
  onlineUsers (fst (step st ev)) = onlineUsers st
  /\ sockets (fst (step st ev)) = sockets st.
Proof.
  destruct ev; simpl; try discriminate; intros _;
    destruct (connected st socket); simpl; auto.
  - now rewrite on_session_markRead_silent.
  - unfold on_typing_start. now rewrite on_typing_silent.
  - unfold on_typing_stop. now rewrite on_typing_silent.
  - now rewrite on_message_send_onlineUsers, on_message_send_sockets.
Qed.

Lemma step_registry_sound (st : Server) (ev : Event) :
  registry_sound st -> registry_sound (fst (step st ev)).
Proof.
  intros Hs. destruct (presence_event ev) eqn:Ep.
  - destruct ev; try discriminate; simpl.
    + intros u c. simpl.
      destruct (String.eqb_spec u (Socket.userId socket)) as [->|Hne].
      * rewrite JsMapFacts.get_set_same. intros H. inversion H; subst.
        rewrite Socket_eta. apply in_or_app. right. now left.
      * rewrite JsMapFacts.get_set_other by exact Hne.
        intros H. apply in_or_app. left. now apply Hs.
    + destruct (connected st socket); [|exact Hs].
      intros u c. simpl.
      destruct (String.eqb_spec u (Socket.userId socket)) as [->|Hne].
      * now rewrite JsMapFacts.get_delete_same.
      * rewrite JsMapFacts.get_delete_other by exact Hne.
        intros H. apply filter_In. split; [now apply Hs|].
        unfold Socket.eqb. simpl.
        destruct (String.eqb_spec (Socket.userId socket) u);
          [congruence | now rewrite andb_false_r].
  - destruct (step_frame st ev Ep) as [Ho Hk].
    intros u c. rewrite Ho, Hk. apply Hs.
Qed.

Lemma run_registry_sound (evs : list Event) : forall st,
  registry_sound st -> registry_sound (fst (run st evs)).
Proof.
  induction evs as [|ev evs IH]; intros st Hs; simpl; [exact Hs|].
  pose proof (step_registry_sound st ev Hs) as H1.
  destruct (step st ev) as [st1 out1]. simpl in H1.
  specialize (IH st1 H1). destruct (run st1 evs) as [st2 out2]. exact IH.
Qed.

(** X1: whatever sequence of events the relay has handled since it
    started, an identity the registry lists as online is bound to a socket
    that is connected and authenticated as that identity. *)
Theorem registry_points_to_connected (d : DB) (evs : list Event)
        (u c : string) :
  JsMap.get (onlineUsers (fst (run (boot d) evs))) u = Some c ->
  In (Socket.mk c u) (sockets (fst (run (boot d) evs))).
Proof.
  apply (run_registry_sound evs (boot d)). intros u0 c0 H. discriminate.
Qed.

Lemma registry_points_to_connected_witness :
  let evs := [ Connection Fixture.alice_tab1; Connection Fixture.bob_tab;
               Connection Fixture.alice_tab2; Disconnect Fixture.bob_tab ] in
  JsMap.get (onlineUsers (fst (run (boot Fixture.db0) evs))) "alice"
  = Some "sock-a2"
  /\ In Fixture.alice_tab2 (sockets (fst (run (boot Fixture.db0) evs))).
Proof.
  intros evs. split; [reflexivity|].
  exact (registry_points_to_connected Fixture.db0 evs "alice" "sock-a2"
           eq_refl).
Defined.

(** X2: a connection or a disconnect aside, no event changes the presence
    registry or the set of connected sockets; status:request,
    session:markRead and the typing events leave the whole server state,
    store included, as it was. *)
Theorem only_gateway_changes_presence (st : Server) (ev : Event) :
  presence_event ev = false ->
  onlineUsers (fst (step st ev)) = onlineUsers st
  /\ sockets (fst (step st ev)) = sockets st
  /\ match ev with
     | MessageSend _ _ _ => True
     | _ => fst (step st ev) = st
     end.
Proof.
  intros Hp. destruct (step_frame st ev Hp) as [H1 H2].
  split; [exact H1|]. split; [exact H2|].
  destruct ev; try discriminate; try exact I; simpl;
    destruct (connected st socket); simpl; auto.
  - apply on_session_markRead_silent.
  - apply on_typing_silent.
  - apply on_typing_silent.
Qed.

Lemma only_gateway_changes_presence_witness :
  let st := fst (run (boot Fixture.db1)
                     [Connection Fixture.alice_tab1;
                      Connection Fixture.bob_tab]) in
  let ev := MessageSend Fixture.world Fixture.alice_tab1
              (mkSendData (Some "bob") (Some "hi") None) in
  onlineUsers (fst (step st ev)) = [("alice", "sock-a1"); ("bob", "sock-b")]
  /\ fst (step st (TypingStart Fixture.alice_tab1 (Some "bob") (Some "s1")))
     = st.
Proof.
  intros st ev. split.
  - exact (proj1 (only_gateway_changes_presence st ev eq_refl)).
  - exact (proj2 (proj2 (only_gateway_changes_presence st
             (TypingStart Fixture.alice_tab1 (Some "bob") (Some "s1"))
             eq_refl))).
Defined.

Lemma step_snapshot_keys (st : Server) (ev : Event) (sid : string)
      (ids : list string) :
  In (socket_emit sid (users_online ids)) (snd (step st ev)) ->
  ids = JsMap.keys (onlineUsers (fst (step st ev))).
Proof.
  intros Hem. destruct ev; simpl in *;
    try (destruct (connected st socket); simpl in *; [|tauto]).
  - destruct Hem as [Hem|[Hem|[]]]; [discriminate|]. now inversion Hem.
  - destruct Hem as [Hem|[]]. now inversion Hem.
  - now apply on_session_markRead_no_snapshot in Hem.
  - apply on_typing_no_snapshot in Hem; [tauto | discriminate].
  - apply on_typing_no_snapshot in Hem; [tauto | discriminate].
  - now apply on_message_send_no_snapshot in Hem.
  - destruct Hem as [Hem|[]]. discriminate.
Qed.

Lemma step_keys_NoDup (st : Server) (ev : Event) :
  NoDup (JsMap.keys (onlineUsers st)) ->
  NoDup (JsMap.keys (onlineUsers (fst (step st ev)))).
Proof.
  intros Hnd. destruct (presence_event ev) eqn:Ep.
  - destruct ev; try discriminate; simpl.
    + now apply keys_set_NoDup.
    + destruct (connected st socket); simpl; [|exact Hnd].
      now apply keys_delete_NoDup.
  - now rewrite (proj1 (step_frame st ev Ep)).
Qed.

Lemma run_snapshots (P : list string -> Prop) (evs : list Event) : forall st,
  P (JsMap.keys (onlineUsers st)) ->
  (forall st' ev, In ev evs -> P (JsMap.keys (onlineUsers st')) ->
                  P (JsMap.keys (onlineUsers (fst (step st' ev))))) ->
  P (JsMap.keys (onlineUsers (fst (run st evs))))
  /\ forall sid ids,
       In (socket_emit sid (users_online ids)) (snd (run st evs)) -> P ids.
Proof.
  induction evs as [|ev evs IH]; intros st HP Hstep; simpl.
  - split; [exact HP | tauto].
  - pose proof (Hstep st ev (or_introl eq_refl) HP) as H1.
    pose proof (step_snapshot_keys st ev) as Hk.
    destruct (step st ev) as [st1 out1]. simpl in *.
    destruct (IH st1 H1) as [H2 H3].
    { intros st' ev' Hin. apply Hstep. now right. }
    destruct (run st1 evs) as [st2 out2]. simpl in *.
    split; [exact H2|].
    intros sid ids Hem. apply in_app_or in Hem. destruct Hem as [Hem|Hem].
    + rewrite (Hk sid ids Hem). exact H1.
    + now apply (H3 sid ids).
Qed.

(** X3: no users:online snapshot the relay ever sends lists an identity
    twice, however often that identity connected. *)
Theorem snapshot_lists_each_identity_once (d : DB) (evs : list Event)
        (sid : string) (ids : list string) :
  In (socket_emit sid (users_online ids)) (snd (run (boot d) evs)) ->
  NoDup ids.
Proof.
  apply (run_snapshots (@NoDup string) evs (boot d)).
  - constructor.
  - intros st' ev _. apply step_keys_NoDup.
Qed.

Lemma snapshot_lists_each_identity_once_witness :
  let evs := [ Connection Fixture.alice_tab1; Connection Fixture.bob_tab;
               Connection Fixture.alice_tab2 ] in
  In (socket_emit "sock-a2" (users_online ["alice"; "bob"]))
     (snd (run (boot Fixture.db0) evs))
  /\ NoDup ["alice"; "bob"].
Proof.
  intros evs.
  assert (H : In (socket_emit "sock-a2" (users_online ["alice"; "bob"]))
                 (snd (run (boot Fixture.db0) evs))).
  { simpl. do 5 right. now left. }
  split; [exact H|].
  exact (snapshot_lists_each_identity_once Fixture.db0 evs "sock-a2"
           ["alice"; "bob"] H).
Defined.

Lemma step_stays_offline (u : string) (st : Server) (ev : Event) :
  no_connect u ev ->
  ~ In u (JsMap.keys (onlineUsers st)) ->
  ~ In u (JsMap.keys (onlineUsers (fst (step st ev)))).
Proof.
  intros Hnc Hout. destruct (presence_event ev) eqn:Ep.
  - destruct ev; try discriminate; simpl in *.
    + intros Hin. apply keys_set_inv in Hin. intuition.
    + destruct (connected st socket); simpl; [|exact Hout].
      intros Hin. apply keys_delete_inv in Hin. tauto.
  - now rewrite (proj1 (step_frame st ev Ep)).
Qed.

(** X4: when a connected socket of identity u disconnects, u leaves the
    registry and user:offline is broadcast; until a socket of u connects
    again, no users:online snapshot, the answer to any status:request among
    them, lists u. *)
Theorem offline_until_reconnect (st : Server) (socket : Socket.t)
        (evs : list Event) :
  connected st socket = true ->
  Forall (no_connect (Socket.userId socket)) evs ->
  let u := Socket.userId socket in
  let st1 := fst (step st (Disconnect socket)) in
  snd (step st (Disconnect socket)) = [io_emit (user_offline u)]
  /\ JsMap.get (onlineUsers st1) u = None
  /\ ~ In u (JsMap.keys (onlineUsers (fst (run st1 evs))))
  /\ forall sid ids,
       In (socket_emit sid (users_online ids)) (snd (run st1 evs)) ->
       ~ In u ids.
Proof.
  intros Hc Hall u st1.
  assert (E : step st (Disconnect socket)
              = on_disconnect (leave_namespace st socket) socket).
  { simpl. now rewrite Hc. }
  subst st1. rewrite E. simpl.
  split; [reflexivity|]. split; [apply JsMapFacts.get_delete_same|].
  apply (run_snapshots (fun ids => ~ In u ids) evs).
  - simpl. intros Hin. apply keys_delete_inv in Hin. tauto.
  - intros st' ev Hin. apply step_stays_offline.
    rewrite Forall_forall in Hall. now apply Hall.
Qed.

Lemma offline_until_reconnect_witness :
  let st := fst (run (boot Fixture.db0)
                     [Connection Fixture.alice_tab1;
                      Connection Fixture.bob_tab]) in
  let evs := [ StatusRequest Fixture.alice_tab1;
               Connection Fixture.carol_tab ] in
  snd (run (fst (step st (Disconnect Fixture.bob_tab))) evs)
  = [ socket_emit "sock-a1" (users_online ["alice"]);
      io_emit (user_online "carol");
      socket_emit "sock-c" (users_online ["alice"; "carol"]) ]
  /\ forall sid ids,
       In (socket_emit sid (users_online ids))
          (snd (run (fst (step st (Disconnect Fixture.bob_tab))) evs)) ->
       ~ In "bob" ids.
Proof.
  intros st evs. split; [reflexivity|].
  assert (Hall : Forall (no_connect (Socket.userId Fixture.bob_tab)) evs).
  { repeat constructor. discriminate. }
  exact (proj2 (proj2 (proj2
           (offline_until_reconnect st Fixture.bob_tab evs eq_refl Hall)))).
Defined.

(* ------------------------------------------------------------------ *)
(** ** Who receives what *)

Lemma on_message_send_out (w : World) (st : Server) (socket : Socket.t)
      (data : SendData) (e : Emit) :
  In e (snd (on_message_send w st socket data)) ->
  (exists p, e = socket_emit (Socket.id socket) p)
  \/ exists r c cnt sid message d0 d1,
      recipientId data = Some r
      /\ JsMap.get (onlineUsers st) r = Some c
      /\ Prisma.message_create (freshMessage w) d0 cnt
           (Socket.userId socket) r sid = inr (message, d1)
      /\ e = io_to c (message_receive (MessageData.of_message message)).
Proof.
  unfold on_message_send, missing_fields, send_failed.
  destruct data as [[r|] [cnt|] sid]; simpl;
    try (intros [<-|[]]; left; eauto).
  destruct (negb (truthy r) || negb (truthy cnt));
    [intros [<-|[]]; left; eauto|].
  destruct (find_or_create_session w (db st) (Socket.userId socket) r sid)
    as [d [err|[session|]]]; try (intros [<-|[]]; left; eauto).
  destruct (Prisma.message_create _ _ _ _ _ _) as [err|[message d1]] eqn:Em;
    [intros [<-|[]]; left; eauto|].
  destruct (Prisma.chatSession_update _ _ _);
    [intros [<-|[]]; left; eauto|].
  simpl. unfold deliver_and_confirm. intros Hin.
  apply in_app_or in Hin. destruct Hin as [Hin|[<-|[]]]; [|left; eauto].
  destruct (JsMap.get (onlineUsers st) r) as [c|] eqn:Eg; [|destruct Hin].
  destruct (truthy c); [|destruct Hin].
  destruct Hin as [<-|[]]. right.
  exists r, c, cnt, (ChatSession.id session), message. eauto 10.
Qed.

(** X5: a message:receive the relay emits while handling a message:send is
    addressed to a socket that is connected and authenticated as the
    message's recipient, carries the sender's authenticated identity and the
    recipient the request named, and nothing a message:send causes is ever
    broadcast. *)
Theorem receive_reaches_the_recipient (w : World) (st : Server)
        (socket : Socket.t) (data : SendData) :
  registry_sound st ->
  (forall target md,
      In (io_to target (message_receive md))
         (snd (on_message_send w st socket data)) ->
      recipientId data = Some (MessageData.recipientId md)
      /\ MessageData.senderId md = Socket.userId socket
      /\ In (Socket.mk target (MessageData.recipientId md)) (sockets st))
  /\ forall p, ~ In (io_emit p) (snd (on_message_send w st socket data)).
Proof.
  intros Hs. split.
  - intros target md Hin. apply on_message_send_out in Hin.
    destruct Hin as [[p Hp]|(r & c & cnt & sid & message & d0 & d1
                              & Hr & Hg & Hm & He)]; [discriminate|].
    inversion He; subst. apply message_create_ok in Hm.
    destruct Hm as (Hrow & _). unfold MessageData.of_message.
    rewrite Hrow. simpl. auto.
  - intros p Hin. apply on_message_send_out in Hin.
    destruct Hin as [[q Hq]|(r & c & cnt & sid & message & d0 & d1
                              & _ & _ & _ & He)]; discriminate.
Qed.

Lemma receive_reaches_the_recipient_witness :
  let st := fst (run (boot Fixture.db1)
                     [Connection Fixture.alice_tab1;
                      Connection Fixture.bob_tab]) in
  let md := MessageData.mk "m9" "hi" "alice" "bob" "s1" 8
              (UserSelect.of_user (Fixture.user "alice"))
              (UserSelect.of_user (Fixture.user "bob")) in
  In (io_to "sock-b" (message_receive md))
     (snd (on_message_send Fixture.world st Fixture.alice_tab1
             (mkSendData (Some "bob") (Some "hi") None)))
  /\ In Fixture.bob_tab (sockets st).
Proof.
  intros st md.
  assert (Hs : registry_sound st).
  { apply (run_registry_sound _ (boot Fixture.db1)). intros u c H.
    discriminate. }
  assert (Hin : In (io_to "sock-b" (message_receive md))
                   (snd (on_message_send Fixture.world st Fixture.alice_tab1
                           (mkSendData (Some "bob") (Some "hi") None)))).
  { now left. }
  split; [exact Hin|].
  exact (proj2 (proj2 (proj1 (receive_reaches_the_recipient Fixture.world st
           Fixture.alice_tab1 (mkSendData (Some "bob") (Some "hi") None) Hs)
           "sock-b" md Hin))).
Defined.

(** X6: a typing:start or typing:stop changes nothing on the server and
    emits at most one event; that event goes to a socket connected and
    authenticated as the named recipient and carries the authenticated
    identity of the sender with the session id as given; with the recipient
    absent from the registry nothing is emitted, and the sender is never
    answered. *)
Theorem typing_is_relayed_to_the_recipient
        (event : string -> string -> Payload) (st : Server)
        (socket : Socket.t) (r sid : option string) :
  registry_sound st ->
  fst (on_typing event st socket r sid) = st
  /\ length (snd (on_typing event st socket r sid)) <= 1
  /\ (forall e, In e (snd (on_typing event st socket r sid)) ->
        exists r' sid' c,
          r = Some r' /\ sid = Some sid'
          /\ e = io_to c (event (Socket.userId socket) sid')
          /\ In (Socket.mk c r') (sockets st))
  /\ (forall r', r = Some r' -> JsMap.get (onlineUsers st) r' = None ->
                 snd (on_typing event st socket r sid) = [])
  /\ (forall r' sid' c,
        r = Some r' -> sid = Some sid' -> r' <> "" -> sid' <> "" ->
        JsMap.get (onlineUsers st) r' = Some c -> c <> "" ->
        snd (on_typing event st socket r sid)
        = [io_to c (event (Socket.userId socket) sid')]).
Proof.
  intros Hs. split; [apply on_typing_silent|].
  unfold on_typing. split; [repeat break_match; simpl; lia|].
  split; [|split].
  - intros e. destruct r as [r'|], sid as [sid'|]; simpl; try tauto.
    destruct (truthy r' && truthy sid'); simpl; [|tauto].
    destruct (JsMap.get (onlineUsers st) r') as [c|] eqn:Eg; simpl; [|tauto].
    destruct (truthy c); simpl; [|tauto].
    intros [<-|[]]. exists r', sid', c. auto.
  - intros r' -> Hg. destruct sid; [|reflexivity].
    rewrite Hg. now destruct (truthy r' && truthy s).
  - intros r' sid' c -> -> Hr Hsid Hg Hc.
    apply truthy_true in Hr, Hsid, Hc. now rewrite Hr, Hsid, Hg, Hc.
Qed.

Lemma typing_is_relayed_to_the_recipient_witness :
  let st := fst (run (boot Fixture.db1)
                     [Connection Fixture.alice_tab1;
                      Connection Fixture.bob_tab]) in
  on_typing_start st Fixture.alice_tab1 (Some "bob") (Some "s1")
  = (st, [io_to "sock-b" (typing_start "alice" "s1")])
  /\ on_typing_stop st Fixture.alice_tab1 (Some "carol") (Some "s1")
     = (st, []).
Proof.
  intros st.
  assert (Hs : registry_sound st).
  { apply (run_registry_sound _ (boot Fixture.db1)). intros u c H.
    discriminate. }
  pose proof (typing_is_relayed_to_the_recipient typing_start st
                Fixture.alice_tab1 (Some "bob") (Some "s1") Hs)
    as (H1 & _ & _ & _ & H5).
  pose proof (typing_is_relayed_to_the_recipient typing_stop st
                Fixture.alice_tab1 (Some "carol") (Some "s1") Hs)
    as (K1 & _ & _ & K4 & _).
  split.
  - unfold on_typing_start.
    rewrite (surjective_pairing (on_typing _ _ _ _ _)), H1.
    rewrite (H5 "bob" "s1" "sock-b" eq_refl eq_refl); try discriminate;
      reflexivity.
  - unfold on_typing_stop.
    rewrite (surjective_pairing (on_typing _ _ _ _ _)), K1.
    now rewrite (K4 "carol" eq_refl eq_refl).
Defined.

(* ------------------------------------------------------------------ *)
(** ** One session per pair *)

Lemma NoDup_map_In_inj {A B} (f : A -> B) (l : list A) (x y : A) :
  NoDup (map f l) -> In x l -> In y l -> f x = f y -> x = y.
Proof.
  induction l as [|a l IH]; simpl; [tauto|].
  intros Hnd Hx Hy Hf. inversion Hnd as [|? ? Hnotin Hnd']; subst.
  destruct Hx as [->|Hx], Hy as [->|Hy]; auto.
  - exfalso. apply Hnotin. rewrite Hf. now apply in_map.
  - exfalso. apply Hnotin. rewrite <- Hf. now apply in_map.
Qed.

Lemma canonical_one_session_per_pair (d : DB) :
  canonical d -> one_session_per_pair d.
Proof.
  intros [Hnd Hsorted] s1 s2 H1 H2 Hsame.
  apply (NoDup_map_In_inj pair_of (chatSessions d)); auto.
  destruct Hsame as [E|[Ea Eb]]; [exact E|].
  rewrite Forall_forall in Hsorted.
  pose proof (Hsorted s1 H1) as L1. pose proof (Hsorted s2 H2) as L2.
  rewrite Ea, Eb in L1.
  pose proof (String.leb_antisym _ _ L2 L1) as E.
  unfold pair_of. congruence.
Qed.

Lemma findUnique_pair_none_notin (d : DB) (a b : string) :
  Prisma.chatSession_findUnique_pair d a b = None ->
  ~ In (a, b) (map pair_of (chatSessions d)).
Proof.
  unfold Prisma.chatSession_findUnique_pair. intros Hnone Hin.
  apply in_map_iff in Hin. destruct Hin as (s & Hp & Hin).
  pose proof (find_none _ _ Hnone s Hin) as Hf. simpl in Hf.
  unfold pair_of in Hp. inversion Hp; subst.
  now rewrite !String.eqb_refl in Hf.
Qed.

Lemma canonical_sessions (d d' : DB) :
  map pair_of (chatSessions d') = map pair_of (chatSessions d) ->
  canonical d -> canonical d'.
Proof.
  intros E [Hnd Hs]. split; [now rewrite E|].
  rewrite Forall_forall in *. intros s Hin.
  assert (Hp : In (pair_of s) (map pair_of (chatSessions d))).
  { rewrite <- E. now apply in_map. }
  apply in_map_iff in Hp. destruct Hp as (s0 & Hp & Hin0).
  specialize (Hs s0 Hin0). unfold pair_of in Hp. inversion Hp.
  congruence.
Qed.

Lemma canonical_create (f : Fresh) (d d' : DB) (a b : string)
      (s : ChatSession.t) :
  canonical d -> String.leb a b = true ->
  Prisma.chatSession_create f d a b = inr (s, d') -> canonical d'.
Proof.
  intros [Hnd Hs] Hab H. apply chatSession_create_ok in H.
  destruct H as (-> & -> & Hnone & _). simpl. split; simpl.
  - rewrite map_app. apply NoDup_app; [exact Hnd | |].
    + simpl. repeat constructor. intros [].
    + intros p Hp [<-|[]]. revert Hp.
      now apply findUnique_pair_none_notin.
  - apply Forall_app. split; [exact Hs|]. now repeat constructor.
Qed.

Lemma chatSession_update_keys (d d' : DB) (id : string) (t : nat) :
  Prisma.chatSession_update d id t = inr d' ->
  map session_key (chatSessions d') = map session_key (chatSessions d).
Proof.
  unfold Prisma.chatSession_update.
  destruct (Prisma.chatSession_findUnique d id); [|discriminate].
  intros H. inversion H; subst. simpl. rewrite map_map.
  apply map_ext. intros s. now destruct (String.eqb (ChatSession.id s) id).
Qed.

Lemma keys_pairs (l l' : list ChatSession.t) :
  map session_key l' = map session_key l -> map pair_of l' = map pair_of l.
Proof.
  intros E. change pair_of with (fun s => snd (session_key s)).
  rewrite <- !(map_map session_key snd). now rewrite E.
Qed.

(** What the relay's session resolution does to the store when no other
    task runs: nothing, or one session appended for the sorted pair. *)
Lemma find_or_create_session_effect (w : World) (d d' : DB) (u r : string)
      (sid : option string) (res : PrismaError + option ChatSession.t) :
  sequential w ->
  find_or_create_session w d u r sid = (d', res) ->
  d' = d
  \/ exists s, d' = mkDB (users d) (chatSessions d ++ [s]) (messages d)
               /\ res = inr (Some s)
               /\ pair_of s = sort2 u r
               /\ Prisma.chatSession_create (freshSession w) d
                    (fst (sort2 u r)) (snd (sort2 u r)) = inr (s, d').
Proof.
  intros Hseq. unfold find_or_create_session.
  assert (Hpair : session_of_pair w d u r = (d', res) ->
    d' = d
    \/ exists s, d' = mkDB (users d) (chatSessions d ++ [s]) (messages d)
                 /\ res = inr (Some s)
                 /\ pair_of s = sort2 u r
                 /\ Prisma.chatSession_create (freshSession w) d
                      (fst (sort2 u r)) (snd (sort2 u r)) = inr (s, d')).
  { unfold session_of_pair. destruct (sort2 u r) as [a b]. rewrite !Hseq.
    destruct (Prisma.chatSession_findUnique_pair d a b);
      [intros H; inversion H; auto|].
    destruct (Prisma.chatSession_create (freshSession w) d a b)
      as [e|[s d1]] eqn:Ec; intros H; inversion H; subst; [auto|].
    right. exists s. pose proof Ec as Ec'.
    apply chatSession_create_ok in Ec'. destruct Ec' as (Hs & Hd & _).
    repeat split; auto. rewrite Hs. reflexivity. }
  destruct sid as [sid|]; [|exact Hpair].
  destruct (truthy sid); [|exact Hpair].
  rewrite Hseq. intros H. inversion H. auto.
Qed.

(** X7: handling a message:send, with no other task interleaved, never
    removes a session and never changes the identifier or the participants
    of one: the sessions afterwards are those before, followed by at most
    one new session, whose participants are the sorted pair of sender and
    recipient; the user table is untouched. *)
Theorem send_keeps_the_sessions (w : World) (st : Server)
        (socket : Socket.t) (data : SendData) :
  sequential w ->
  let d := db st in
  let d' := db (fst (on_message_send w st socket data)) in
  users d' = users d
  /\ exists added,
      map session_key (chatSessions d')
      = (map session_key (chatSessions d) ++ map session_key added)%list
      /\ length added <= 1
      /\ forall s r, In s added -> recipientId data = Some r ->
                     pair_of s = sort2 (Socket.userId socket) r.
Proof.
  intros Hseq. unfold on_message_send.
  assert (Hsame : users (db st) = users (db st)
    /\ exists added,
        map session_key (chatSessions (db st))
        = (map session_key (chatSessions (db st))
           ++ map session_key added)%list
        /\ length added <= 1
        /\ forall s r, In s added -> recipientId data = Some r ->
                       pair_of s = sort2 (Socket.userId socket) r).
  { split; [reflexivity|]. exists []. simpl.
    rewrite app_nil_r. repeat split; auto. intros s r []. }
  destruct data as [[r|] [cnt|] sid]; simpl; try exact Hsame.
  destruct (negb (truthy r) || negb (truthy cnt)); [exact Hsame|].
  destruct (find_or_create_session w (db st) (Socket.userId socket) r sid)
    as [d res] eqn:Ef.
  apply find_or_create_session_effect in Ef; [|exact Hseq].
  assert (Hd : users d = users (db st)
    /\ exists added,
        map session_key (chatSessions d)
        = (map session_key (chatSessions (db st))
           ++ map session_key added)%list
        /\ length added <= 1
        /\ forall s r0, In s added -> Some r = Some r0 ->
                        pair_of s = sort2 (Socket.userId socket) r0).
  { destruct Ef as [->|(s & -> & _ & Hp & _)]; [exact Hsame|].
    simpl. split; [reflexivity|]. exists [s]. rewrite map_app.
    repeat split; auto. intros s0 r0 [<-|[]] Hr. inversion Hr; subst.
    exact Hp. }
  destruct res as [e|[session|]]; simpl; try exact Hd.
  rewrite !Hseq.
  destruct (Prisma.message_create _ _ _ _ _ _) as [e|[message d1]] eqn:Em;
    simpl; [exact Hd|].
  apply message_create_ok in Em. destruct Em as (_ & _ & _ & _ & Hd1).
  rewrite Hseq.
  destruct (Prisma.chatSession_update d1 _ _) as [e|d3] eqn:Eu; simpl.
  - subst d1. exact Hd.
  - pose proof (chatSession_update_keys _ _ _ _ Eu) as Hk.
    apply chatSession_update_messages in Eu. destruct Eu as [Hu _].
    rewrite Hu, Hk. subst d1. exact Hd.
Qed.

Lemma send_keeps_the_sessions_witness :
  let st := fst (step (boot Fixture.db1) (Connection Fixture.bob_tab)) in
  let data := mkSendData (Some "carol") (Some "hello") None in
  sequential Fixture.world
  /\ map session_key
         (chatSessions (db (fst (on_message_send Fixture.world st
                                   Fixture.bob_tab data))))
     = [("s1", ("alice", "bob")); ("s9", ("bob", "carol"))]
  /\ users (db (fst (on_message_send Fixture.world st Fixture.bob_tab data)))
     = Fixture.people.
Proof.
  intros st data.
  assert (Hseq : sequential Fixture.world) by (intros a x; reflexivity).
  split; [exact Hseq|]. split; [reflexivity|].
  exact (proj1 (send_keeps_the_sessions Fixture.world st Fixture.bob_tab
                  data Hseq)).
Defined.

(** X8: if the store holds at most one session per pair of people, with
    the pair stored sorted, it still does after the relay has handled a
    message:send (no other task interleaved): no send, self-addressed or
    with an explicit session id, can create a second session for two
    people who have one. *)
Theorem send_keeps_one_session_per_pair (w : World) (st : Server)
        (socket : Socket.t) (data : SendData) :
  sequential w -> canonical (db st) ->
  canonical (db (fst (on_message_send w st socket data)))
  /\ one_session_per_pair (db (fst (on_message_send w st socket data))).
Proof.
  intros Hseq Hc.
  assert (H : canonical (db (fst (on_message_send w st socket data)))).
  { unfold on_message_send.
    destruct data as [[r|] [cnt|] sid]; simpl; try exact Hc.
    destruct (negb (truthy r) || negb (truthy cnt)); [exact Hc|].
    destruct (find_or_create_session w (db st) (Socket.userId socket) r sid)
      as [d res] eqn:Ef.
    apply find_or_create_session_effect in Ef; [|exact Hseq].
    assert (Hd : canonical d).
    { destruct Ef as [->|(s & _ & _ & _ & Hcr)]; [exact Hc|].
      apply (canonical_create _ _ _ _ _ _ Hc) in Hcr; [exact Hcr|].
      apply (sort2_ordered (Socket.userId socket) r).
      now destruct (sort2 (Socket.userId socket) r). }
    destruct res as [e|[session|]]; simpl; try exact Hd.
    rewrite !Hseq.
    destruct (Prisma.message_create _ _ _ _ _ _) as [e|[message d1]] eqn:Em;
      simpl; [exact Hd|].
    apply message_create_ok in Em. destruct Em as (_ & _ & _ & _ & Hd1).
    assert (Hc1 : canonical d1).
    { apply (canonical_sessions d); [now subst d1 | exact Hd]. }
    rewrite Hseq.
    destruct (Prisma.chatSession_update d1 _ _) as [e|d3] eqn:Eu; simpl;
      [exact Hc1|].
    apply chatSession_update_keys, keys_pairs in Eu.
    now apply (canonical_sessions d1). }
  split; [exact H | now apply canonical_one_session_per_pair].
Qed.

Lemma canonical_db1 : canonical Fixture.db1.
Proof.
  split; simpl.
  - repeat constructor. intros [].
  - repeat constructor.
Defined.

Lemma send_keeps_one_session_per_pair_witness :
  let st := fst (step (boot Fixture.db1) (Connection Fixture.bob_tab)) in
  one_session_per_pair
    (db (fst (on_message_send Fixture.world st Fixture.bob_tab
                (mkSendData (Some "alice") (Some "hello") None)))).
Proof.
  intros st.
  assert (Hseq : sequential Fixture.world) by (intros a x; reflexivity).
  exact (proj2 (send_keeps_one_session_per_pair Fixture.world st
                  Fixture.bob_tab
                  (mkSendData (Some "alice") (Some "hello") None)
                  Hseq canonical_db1)).
Defined.

(* ------------------------------------------------------------------ *)
(** ** Sends that cannot be stored *)

Lemma select_user_none (d : DB) (id : string) :
  Prisma.user_findUnique d id = None -> Prisma.select_user d id = None.
Proof. unfold Prisma.select_user. now intros ->. Qed.

Lemma message_create_unknown_recipient (f : Fresh) (d : DB)
      (c s r sid : string) :
  Prisma.user_findUnique d r = None ->
  exists e, Prisma.message_create f d c s r sid = inl e.
Proof.
  intros Hr. unfold Prisma.message_create.
  rewrite (select_user_none d r Hr).
  destruct (Prisma.message_findUnique d (newId f)); [eauto|].
  destruct (Prisma.select_user d s); eauto.
Qed.

Lemma chatSession_create_unknown_user (f : Fresh) (d : DB) (a b : string) :
  Prisma.user_findUnique d a = None \/ Prisma.user_findUnique d b = None ->
  exists e, Prisma.chatSession_create f d a b = inl e.
Proof.
  intros H. destruct (Prisma.chatSession_create f d a b) as [e|[s d']] eqn:E;
    [eauto|].
  apply chatSession_create_ok in E. destruct E as (_ & _ & _ & Ha & Hb).
  tauto.
Qed.

(** X9: a well-formed message:send whose recipient is not in the user
    table is answered with exactly one message:error on the sending socket
    and leaves the server as it was (no session, no message), whether or
    not it names a session, when no other task interleaves. *)
Theorem unknown_recipient_stores_nothing (w : World) (st : Server)
        (socket : Socket.t) (r c : string) (sid : option string) :
  sequential w -> r <> "" -> c <> "" ->
  Prisma.user_findUnique (db st) r = None ->
  fst (on_message_send w st socket (mkSendData (Some r) (Some c) sid)) = st
  /\ exists error details,
      snd (on_message_send w st socket (mkSendData (Some r) (Some c) sid))
      = [socket_emit (Socket.id socket) (message_error error details)].
Proof.
  intros Hseq Hr Hc Hu. apply truthy_true in Hr, Hc.
  unfold on_message_send, send_failed. simpl. rewrite Hr, Hc. simpl.
  destruct (find_or_create_session w (db st) (Socket.userId socket) r sid)
    as [d res] eqn:Ef.
  apply find_or_create_session_effect in Ef; [|exact Hseq].
  destruct Ef as [->|(s & _ & _ & _ & Hcr)].
  - destruct res as [e|[session|]]; simpl;
      try (rewrite with_db_same; split; [reflexivity | eauto]).
    rewrite !Hseq.
    destruct (message_create_unknown_recipient (freshMessage w) (db st) c
                (Socket.userId socket) r (ChatSession.id session) Hu)
      as [e ->].
    simpl. rewrite with_db_same. split; [reflexivity | eauto].
  - exfalso.
    destruct (chatSession_create_unknown_user (freshSession w) (db st)
                (fst (sort2 (Socket.userId socket) r))
                (snd (sort2 (Socket.userId socket) r))) as [e He];
      [|congruence].
    destruct (sort2_cases (Socket.userId socket) r) as [-> | ->]; simpl; auto.
Qed.

Lemma unknown_recipient_stores_nothing_witness :
  let st := fst (step (boot Fixture.db1) (Connection Fixture.alice_tab1)) in
  on_message_send Fixture.world st Fixture.alice_tab1
    (mkSendData (Some "mallory") (Some "hi") None)
  = (st, [socket_emit "sock-a1"
            (message_error "Failed to send message" (Some P2003))]).
Proof.
  intros st.
  assert (Hseq : sequential Fixture.world) by (intros a x; reflexivity).
  destruct (unknown_recipient_stores_nothing Fixture.world st
              Fixture.alice_tab1 "mallory" "hi" None Hseq
              ltac:(discriminate) ltac:(discriminate) eq_refl)
    as [H1 _].
  rewrite (surjective_pairing (on_message_send _ _ _ _)), H1. reflexivity.
Defined.

(* ------------------------------------------------------------------ *)
(** ** What the HTTP routes write *)

(** X10: POST /api/messages, whatever other tasks do meanwhile. An answer
    401, 400, 404 or 403 comes without a write of the route. The answer
    201 comes after [message.create] stored exactly one message, the one
    in the answer, sent by the authenticated caller with the content,
    recipient and session of the request, both sender and recipient being
    participants of that session as the route read it, and after
    [chatSession.update] succeeded. The answer 500 comes either when
    [message.create] was refused, nothing written, or when
    [chatSession.update] was refused after the message was stored: the
    message stays stored. With no other task interleaved a 201 leaves the
    users and the sessions' ids and participants as they were and the
    messages are the old ones followed by the returned one. *)
Theorem POST_messages_outcome (w : World) (d d' : DB)
        (auth c r sid : option string) (resp : Response MessageJoined.t) :
  POST_messages w d auth c r sid = (d', resp) ->
  let d0 := interleave w AtFind d in
  let d1 := interleave w AtMessageCreate d0 in
  match resp with
  | json message status =>
      let row := MessageJoined.row message in
      status = 201
      /\ auth = Some (Message.senderId row)
      /\ c = Some (Message.content row)
      /\ r = Some (Message.recipientId row)
      /\ sid = Some (Message.sessionId row)
      /\ (exists s,
             Prisma.chatSession_findUnique d0 (Message.sessionId row) = Some s
             /\ is_participant s (Message.senderId row) = true
             /\ is_participant s (Message.recipientId row) = true)
      /\ (exists d2,
             messages d2 = (messages d1 ++ [row])%list
             /\ Prisma.chatSession_update (interleave w AtUpdate d2)
                  (Message.sessionId row) (clock w) = inr d'
             /\ messages d' = messages (interleave w AtUpdate d2))
      /\ (sequential w ->
          messages d' = (messages d ++ [row])%list
          /\ users d' = users d
          /\ map session_key (chatSessions d')
             = map session_key (chatSessions d))
  | error_json _ status =>
      (status <> 500 /\ (d' = d \/ d' = d0))
      \/ (status = 500
          /\ (d' = d1
              \/ exists message d2,
                  messages d2
                  = (messages d1 ++ [MessageJoined.row message])%list
                  /\ d' = interleave w AtUpdate d2
                  /\ Prisma.chatSession_update d'
                       (Message.sessionId (MessageJoined.row message))
                       (clock w) = inl P2025))
  end.
Proof.
  unfold POST_messages. cbv zeta.
  destruct auth as [senderId|];
    [|intros H; inversion H; left; split; [discriminate | now left]].
  destruct c as [c|], r as [r|], sid as [sid|];
    try (intros H; inversion H; left; split; [discriminate | now left]).
  destruct (negb (truthy c) || negb (truthy r) || negb (truthy sid));
    [intros H; inversion H; left; split; [discriminate | now left]|].
  destruct (Prisma.chatSession_findUnique (interleave w AtFind d) sid)
    as [s|] eqn:Ef;
    [|intros H; inversion H; left; split; [discriminate | now right]].
  destruct (is_participant s senderId) eqn:E1;
    [|intros H; inversion H; left; split; [discriminate | now right]].
  destruct (is_participant s r) eqn:E2;
    [|intros H; inversion H; left; split; [discriminate | now right]].
  cbv beta iota delta [negb].
  destruct (Prisma.message_create (freshMessage w)
              (interleave w AtMessageCreate (interleave w AtFind d))
              c senderId r sid) as [e|[message d2]] eqn:Em;
    [intros H; inversion H; right; split; [reflexivity | now left]|].
  apply message_create_ok in Em.
  destruct Em as (Hrow & _ & _ & _ & Hd2).
  assert (Hm2 : messages d2
                = (messages (interleave w AtMessageCreate
                               (interleave w AtFind d))
                   ++ [MessageJoined.row message])%list)
    by (rewrite Hd2; reflexivity).
  destruct (Prisma.chatSession_update (interleave w AtUpdate d2) sid
                                      (clock w)) as [e|d4] eqn:Eu.
  - intros H. inversion H; subst d'. right. split; [reflexivity|]. right.
    exists message, d2. split; [exact Hm2|]. split; [reflexivity|].
    rewrite Hrow. simpl.
    unfold Prisma.chatSession_update in Eu |- *.
    destruct (Prisma.chatSession_findUnique (interleave w AtUpdate d2) sid);
      [discriminate | reflexivity].
  - intros H. inversion H; subst d' resp. clear H.
    pose proof (chatSession_update_messages _ _ _ _ Eu) as [Hu4 Hm4].
    pose proof (chatSession_update_keys _ _ _ _ Eu) as Hk4.
    rewrite Hrow. simpl.
    repeat (split; [reflexivity|]).
    split; [exists s; auto|].
    split; [exists d2; rewrite Hrow in Hm2; auto|].
    intros Hseq. rewrite !Hseq in *.
    rewrite Hm4, Hu4, Hk4, Hd2, Hrow. simpl. auto.
Qed.

(** The message is stored and the answer is 500: the session row is gone
    when the route reaches [chatSession.update]. *)
Lemma POST_messages_outcome_witness :
  POST_messages Fixture.world Fixture.db1 (Some "carol") (Some "x")
                (Some "dave") (Some "s1")
  = (Fixture.db1, error_json "Forbidden" 403)
  /\ POST_messages Sample.session_removed Fixture.db1 (Some "bob")
                   (Some "yo") (Some "alice") (Some "s1")
     = (mkDB Fixture.people []
             [Message.mk "m9" "yo" "bob" "alice" "s1" false 8],
        error_json "Failed to create message" 500)
  /\ exists message,
      POST_messages Fixture.world Fixture.db1 (Some "bob") (Some "yo")
                    (Some "alice") (Some "s1")
      = (mkDB Fixture.people [ChatSession.with_updatedAt Fixture.s1 9]
              [Message.mk "m9" "yo" "bob" "alice" "s1" false 8],
         json message 201)
      /\ messages (mkDB Fixture.people
                        [ChatSession.with_updatedAt Fixture.s1 9]
                        [Message.mk "m9" "yo" "bob" "alice" "s1" false 8])
         = (messages Fixture.db1 ++ [MessageJoined.row message])%list.
Proof.
  split; [reflexivity|]. split; [reflexivity|].
  eexists. split; [reflexivity|].
  assert (Hseq : sequential Fixture.world) by (intros a x; reflexivity).
  pose proof (POST_messages_outcome Fixture.world Fixture.db1 _
                (Some "bob") (Some "yo") (Some "alice") (Some "s1")
                _ eq_refl) as H.
  cbv beta iota zeta in H.
  destruct H as (_ & _ & _ & _ & _ & _ & _ & Hs).
  destruct (Hs Hseq) as [Hm _]. exact Hm.
Defined.

Lemma Include_findUnique_pair_some (d : DB) (x y : string)
      (js : SessionJoined.t Message.t) :
  Include.findUnique_pair d x y = inr (Some js) ->
  In (SessionJoined.row js) (chatSessions d)
  /\ pair_of (SessionJoined.row js) = (x, y).
Proof.
  unfold Include.findUnique_pair, Include.join_session.
  destruct (Prisma.chatSession_findUnique_pair d x y) as [s|] eqn:Ef;
    [|discriminate].
  apply chatSession_findUnique_pair_some in Ef.
  destruct Ef as (Hin & H1 & H2).
  destruct (Prisma.select_user d (ChatSession.user1Id s)); [|discriminate].
  destruct (Prisma.select_user d (ChatSession.user2Id s)); [|discriminate].
  intros H. inversion H; subst; simpl. unfold pair_of. auto.
Qed.

Lemma Include_create_ok (f : Fresh) (d d' : DB) (x y : string)
      (js : SessionJoined.t Message.t) :
  Include.create f d x y = inr (js, d') ->
  Prisma.chatSession_create f d x y = inr (SessionJoined.row js, d').
Proof.
  unfold Include.create, Include.join_session.
  destruct (Prisma.chatSession_create f d x y) as [e|[s d1]];
    [discriminate|].
  destruct (Prisma.select_user d1 (ChatSession.user1Id s)); [|discriminate].
  destruct (Prisma.select_user d1 (ChatSession.user2Id s)); [|discriminate].
  intros H. inversion H; subst; reflexivity.
Qed.

(** The store after POST /api/sessions, when no other task runs: as it
    was, or with the one session [chatSession.create] made for the sorted
    pair. *)
Lemma POST_sessions_effect (w : World) (d d' : DB) (auth other : option string)
      (resp : Response (SessionJoined.t Message.t)) :
  sequential w ->
  POST_sessions w d auth other = (d', resp) ->
  d' = d
  \/ exists A B s,
      auth = Some A /\ other = Some B
      /\ Prisma.chatSession_create (freshSession w) d
           (fst (sort2 A B)) (snd (sort2 A B)) = inr (s, d').
Proof.
  intros Hseq. unfold POST_sessions, create_or_reread, sessions_failed.
  destruct auth as [A|]; [|intros H; inversion H; subst; auto].
  destruct other as [B|]; [|intros H; inversion H; subst; auto].
  destruct (negb (truthy B)); [intros H; inversion H; subst; auto|].
  destruct (String.eqb A B); [intros H; inversion H; subst; auto|].
  cbv beta iota zeta. rewrite !Hseq.
  destruct (Prisma.user_findUnique d A); [|intros H; inversion H; subst; auto].
  destruct (Prisma.user_findUnique d B); [|intros H; inversion H; subst; auto].
  destruct (sort2 A B) as [x y] eqn:Exy. cbv beta iota zeta. rewrite ?Hseq.
  destruct (Include.findUnique_pair d x y) as [e|[found|]];
    try (intros H; inversion H; subst; auto; fail).
  destruct (Include.create (freshSession w) d x y) as [e|[c d1]] eqn:Ec.
  - destruct e; intros H; inversion H; subst; auto.
  - intros H. inversion H; subst. right.
    apply Include_create_ok in Ec. exists A, B. rewrite Exy. simpl. eauto.
Qed.

(** X11: POST /api/sessions, with no other task interleaved, either
    answers an error and leaves the store untouched, or answers 200 with a
    session between the caller and the other user, two distinct existing
    users, stored as their sorted pair; that session already existed and
    the store is untouched, or no session for the pair existed and exactly
    that one was appended. *)
Theorem POST_sessions_outcome (w : World) (d d' : DB)
        (auth other : option string)
        (resp : Response (SessionJoined.t Message.t)) :
  sequential w ->
  POST_sessions w d auth other = (d', resp) ->
  match resp with
  | error_json _ _ => d' = d
  | json chatSession status =>
      let row := SessionJoined.row chatSession in
      status = 200
      /\ users d' = users d /\ messages d' = messages d
      /\ exists A B,
          auth = Some A /\ other = Some B /\ A <> B
          /\ Prisma.user_findUnique d A <> None
          /\ Prisma.user_findUnique d B <> None
          /\ pair_of row = sort2 A B
          /\ ((d' = d /\ In row (chatSessions d))
              \/ (chatSessions d' = (chatSessions d ++ [row])%list
                  /\ ~ In (sort2 A B) (map pair_of (chatSessions d))))
  end.
Proof.
  intros Hseq. unfold POST_sessions, create_or_reread, sessions_failed.
  destruct auth as [A|]; [|intros H; inversion H; reflexivity].
  destruct other as [B|]; [|intros H; inversion H; reflexivity].
  destruct (negb (truthy B)); [intros H; inversion H; reflexivity|].
  destruct (String.eqb_spec A B) as [|Hne];
    [intros H; inversion H; reflexivity|].
  cbv beta iota zeta. rewrite !Hseq.
  destruct (Prisma.user_findUnique d A) eqn:EA;
    [|intros H; inversion H; reflexivity].
  destruct (Prisma.user_findUnique d B) eqn:EB;
    [|intros H; inversion H; reflexivity].
  destruct (sort2 A B) as [x y] eqn:Exy. cbv beta iota zeta. rewrite ?Hseq.
  destruct (Include.findUnique_pair d x y) as [e|[found|]] eqn:Ef;
    [intros H; inversion H; reflexivity | |].
  - intros H. inversion H; subst d' resp. clear H.
    apply Include_findUnique_pair_some in Ef. destruct Ef as [Hin Hp].
    simpl. repeat split. exists A, B.
    repeat split; auto; try congruence.
  - destruct (Include.create (freshSession w) d x y) as [e|[c d1]] eqn:Ec.
    + destruct e; intros H; inversion H; reflexivity.
    + intros H. inversion H; subst d' resp. clear H.
      apply Include_create_ok, chatSession_create_ok in Ec.
      destruct Ec as (Hs & -> & Hnone & _). simpl.
      repeat split. exists A, B.
      repeat split; auto; try congruence.
      * rewrite Hs, Exy. reflexivity.
      * right. split; [reflexivity|]. rewrite Exy.
        now apply findUnique_pair_none_notin.
Qed.

Lemma POST_sessions_outcome_witness :
  POST_sessions Fixture.world Fixture.db1 (Some "carol") (Some "alice")
  = (mkDB Fixture.people
          [Fixture.s1; ChatSession.mk "s9" "alice" "carol" false 7 7] [],
     json (SessionJoined.mk (ChatSession.mk "s9" "alice" "carol" false 7 7)
             (UserSelect.of_user (Fixture.user "alice"))
             (UserSelect.of_user (Fixture.user "carol")) [])
          200)
  /\ fst (POST_sessions Fixture.world Fixture.db1 (Some "carol")
            (Some "mallory")) = Fixture.db1.
Proof.
  assert (Hseq : sequential Fixture.world) by (intros a x; reflexivity).
  split; [reflexivity|].
  exact (POST_sessions_outcome Fixture.world Fixture.db1 _ (Some "carol")
           (Some "mallory") (error_json "User not found" 404) Hseq eq_refl).
Defined.

(** X12: if the store holds at most one session per pair of people, with
    the pair stored sorted, it still does after POST /api/sessions,
    whatever the answer (no other task interleaved). *)
Theorem POST_sessions_keeps_one_session_per_pair (w : World) (d d' : DB)
        (auth other : option string)
        (resp : Response (SessionJoined.t Message.t)) :
  sequential w -> canonical d ->
  POST_sessions w d auth other = (d', resp) ->
  canonical d' /\ one_session_per_pair d'.
Proof.
  intros Hseq Hc H.
  assert (Hc' : canonical d').
  { apply POST_sessions_effect in H; [|exact Hseq].
    destruct H as [->|(A & B & s & _ & _ & Hcr)]; [exact Hc|].
    apply (canonical_create _ _ _ _ _ _ Hc) in Hcr; [exact Hcr|].
    apply (sort2_ordered A B). now destruct (sort2 A B). }
  split; [exact Hc' | now apply canonical_one_session_per_pair].
Qed.

Lemma POST_sessions_keeps_one_session_per_pair_witness :
  one_session_per_pair
    (fst (POST_sessions Fixture.world Fixture.db1 (Some "bob")
            (Some "alice"))).
Proof.
  assert (Hseq : sequential Fixture.world) by (intros a x; reflexivity).
  exact (proj2 (POST_sessions_keeps_one_session_per_pair Fixture.world
                  Fixture.db1 _ (Some "bob") (Some "alice") _
                  Hseq canonical_db1 (surjective_pairing _))).
Defined.

(* ------------------------------------------------------------------ *)
(** ** What the HTTP routes disclose *)

Lemma join_messages_rows (d : DB) (l : list Message.t) : forall js,
  Prisma.join_messages d l = inr js -> rows js = l.
Proof.
  induction l as [|m l IH]; simpl; intros js H.
  - now inversion H.
  - unfold Prisma.join_message in H.
    destruct (Prisma.select_user d (Message.senderId m)); [|discriminate].
    destruct (Prisma.select_user d (Message.recipientId m)); [|discriminate].
    destruct (Prisma.join_messages d l) as [e|js']; [discriminate|].
    inversion H; subst. simpl. now rewrite (IH js' eq_refl).
Qed.

Lemma messages_of_session (d : DB) (sid : string) (m : Message.t) :
  In m (Prisma.messages_of d sid) ->
  Message.sessionId m = sid /\ In m (messages d).
Proof.
  unfold Prisma.messages_of. intros H. apply filter_In in H.
  destruct H as [Hin Hb]. apply String.eqb_eq in Hb. auto.
Qed.

(** X13: GET /api/messages answers with messages only to an authenticated
    participant of the session it names; the answer is then the messages
    of that session, all of them, each once, ordered oldest first. *)
Theorem GET_messages_only_for_participants (w : World) (between : DB -> DB)
        (d : DB) (auth sessionId : option string)
        (body : list MessageJoined.t) (status : nat) :
  GET_messages w between d auth sessionId = json body status ->
  status = 200
  /\ exists userId sid s,
      auth = Some userId /\ sessionId = Some sid
      /\ Prisma.chatSession_findUnique (interleave w AtFind d) sid = Some s
      /\ is_participant s userId = true
      /\ (forall m, In m (rows body) -> Message.sessionId m = sid)
      /\ Sorted createdAt_le (rows body)
      /\ Permutation (rows body)
           (Prisma.messages_of (between (interleave w AtFind d)) sid).
Proof.
  unfold GET_messages.
  destruct auth as [userId|]; [|discriminate].
  destruct sessionId as [sid|]; [|discriminate].
  destruct (negb (truthy sid)); [discriminate|].
  destruct (Prisma.chatSession_findUnique (interleave w AtFind d) sid)
    as [s|] eqn:Ef; [|discriminate].
  destruct (is_participant s userId) eqn:Ep; [|discriminate]. simpl.
  destruct (Prisma.join_messages _ _) as [e|js] eqn:Ej; [discriminate|].
  intros H. inversion H; subst. split; [reflexivity|].
  apply join_messages_rows in Ej.
  exists userId, sid, s. rewrite Ej.
  repeat split; auto.
  - intros m Hm.
    apply (Permutation_in _ (orderBy_createdAt_asc_perm _)) in Hm.
    now apply messages_of_session in Hm.
  - apply orderBy_createdAt_asc_sorted.
  - apply orderBy_createdAt_asc_perm.
Qed.

Lemma GET_messages_only_for_participants_witness :
  GET_messages Fixture.world (fun d => d) Fixture.db5 (Some "carol")
               (Some "s1") = error_json "Forbidden" 403
  /\ exists body,
      GET_messages Fixture.world (fun d => d) Fixture.db5 (Some "bob")
                   (Some "s1") = json body 200
      /\ rows body
         = [Fixture.msg "m1" "a" 10; Fixture.msg "m2" "b" 20;
            Fixture.msg "m3" "c" 30; Fixture.msg "m4" "d" 40;
            Fixture.msg "m5" "e" 50]
      /\ Sorted createdAt_le (rows body).
Proof.
  split; [reflexivity|]. eexists. split; [reflexivity|].
  split; [reflexivity|].
  destruct (GET_messages_only_for_participants Fixture.world (fun d => d)
              Fixture.db5 (Some "bob") (Some "s1") _ 200 eq_refl)
    as (_ & u & sid & s & _ & _ & _ & _ & _ & Hsorted & _).
  exact Hsorted.
Defined.

Lemma In_skip_take {A} (skip take : Z) (l : list A) (x : A) :
  In x (Include.skip_take skip take l) -> In x l.
Proof.
  rewrite skip_take_spec. destruct (0 <=? take)%Z; intros H.
  - now apply In_firstn, In_skipn in H.
  - apply in_rev in H. apply In_firstn, In_skipn in H. now apply in_rev.
Qed.

(** What a 200 answer of GET /api/sessions/[id] was computed from. *)
Lemma GET_session_inv (w : World) (d : DB) (auth : option string)
      (id : string) (pageParam limitParam : option Z)
      (body : SessionPage) (status : nat) :
  GET_session w d auth id pageParam limitParam = json body status ->
  let page := query_int pageParam 1 in
  let limit := query_int limitParam 50 in
  let skip := Number_mul (Number_sub page 1) limit in
  let d0 := interleave w AtFind d in
  status = 200
  /\ (0 <= skip)%Z
  /\ (exists userId,
         auth = Some userId
         /\ is_participant (SessionJoined.row (chatSession body)) userId
            = true)
  /\ Prisma.chatSession_findUnique d0 id
     = Some (SessionJoined.row (chatSession body))
  /\ rows (SessionJoined.messages (chatSession body))
     = Include.skip_take skip limit
         (Prisma.orderBy_createdAt_asc (Prisma.messages_of d0 id))
  /\ pagination body
     = mkPagination page limit
         (Prisma.message_count (interleave w AtCount d0) id)
         (Math_ceil_div (Prisma.message_count (interleave w AtCount d0) id)
                        limit).
Proof.
  unfold GET_session, Include.findUnique_page, Include.join_session.
  destruct auth as [userId|]; [|discriminate]. cbv beta iota zeta.
  destruct (negb (isFinite (query_int pageParam 1)
                  && isFinite (query_int limitParam 50)));
    [discriminate|].
  destruct (Z.ltb_spec (Number_mul (Number_sub (query_int pageParam 1) 1)
                                   (query_int limitParam 50))
                       0) as [|Hskip]; [discriminate|].
  repeat match goal with
         | |- context [Include.fits_i64 ?a] =>
             destruct (Include.fits_i64 a);
             cbv beta iota delta [orb negb]; [|discriminate]
         end.
  destruct (Prisma.chatSession_findUnique (interleave w AtFind d) id)
    as [s|] eqn:Ef; [|discriminate].
  destruct (Prisma.join_messages _ _) as [e|js] eqn:Ej; [discriminate|].
  destruct (Prisma.select_user _ (ChatSession.user1Id s)); [|discriminate].
  destruct (Prisma.select_user _ (ChatSession.user2Id s)); [|discriminate].
  simpl. destruct (is_participant s userId) eqn:Ep; [|discriminate]. simpl.
  intros H. inversion H; subst. simpl.
  apply join_messages_rows in Ej. rewrite Ej.
  repeat split; eauto.
Qed.

(** X14: GET /api/sessions/[id] answers with a page only to an
    authenticated participant of that session, whatever the page and limit
    parameters, and every message on the page belongs to that session. *)
Theorem GET_session_only_for_participants (w : World) (d : DB)
        (auth : option string) (id : string) (pageParam limitParam : option Z)
        (body : SessionPage) (status : nat) :
  GET_session w d auth id pageParam limitParam = json body status ->
  Prisma.chatSession_findUnique (interleave w AtFind d) id
  = Some (SessionJoined.row (chatSession body))
  /\ (exists userId,
         auth = Some userId
         /\ is_participant (SessionJoined.row (chatSession body)) userId
            = true)
  /\ forall m, In m (rows (SessionJoined.messages (chatSession body))) ->
               Message.sessionId m = id.
Proof.
  intros H. apply GET_session_inv in H.
  destruct H as (_ & _ & Hp & Hf & Hrows & _).
  split; [exact Hf|]. split; [exact Hp|].
  intros m Hm. rewrite Hrows in Hm. apply In_skip_take in Hm.
  apply (Permutation_in _ (orderBy_createdAt_asc_perm _)) in Hm.
  now apply messages_of_session in Hm.
Qed.

Lemma GET_session_only_for_participants_witness :
  GET_session Fixture.world Fixture.db5 (Some "carol") "s1" None None
  = error_json "Forbidden" 403
  /\ exists body,
      GET_session Fixture.world Fixture.db5 (Some "alice") "s1" None None
      = json body 200
      /\ forall m, In m (rows (SessionJoined.messages (chatSession body))) ->
                   Message.sessionId m = "s1".
Proof.
  split; [reflexivity|]. eexists. split; [reflexivity|].
  exact (proj2 (proj2 (GET_session_only_for_participants Fixture.world
           Fixture.db5 (Some "alice") "s1" None None _ 200 eq_refl))).
Defined.

(** X15: for a page the route answered (page >= 1, limit >= 1, no other
    task between the page query and the count), the client's "has more"
    flag, page < totalPages, is set exactly when the session holds
    messages beyond the end of that page. *)
Theorem hasMore_iff_messages_remain (w : World) (d : DB)
        (auth : option string) (id : string) (pageParam limitParam : option Z)
        (body : SessionPage) (status : nat) :
  sequential w ->
  (1 <= query_int pageParam 1)%Z -> (1 <= query_int limitParam 50)%Z ->
  GET_session w d auth id pageParam limitParam = json body status ->
  ChatWindow.hasMore (pagination body) = true
  <-> (query_int pageParam 1 * query_int limitParam 50
       < Z.of_nat (length (Prisma.messages_of d id)))%Z.
Proof.
  intros Hseq Hpage Hlimit H. apply GET_session_inv in H.
  destruct H as (_ & _ & _ & _ & _ & Hpag).
  rewrite Hpag, !Hseq. unfold ChatWindow.hasMore. simpl.
  destruct (Math_ceil_div_spec (Prisma.message_count d id)
              (query_int limitParam 50) Hlimit) as (n & -> & Hn).
  unfold Prisma.message_count in Hn.
  rewrite Z.ltb_lt.
  set (p := query_int pageParam 1) in *.
  set (l := query_int limitParam 50) in *.
  set (t := Z.of_nat (length (Prisma.messages_of d id))) in *.
  split; intros Hlt.
  - assert (p * l <= (n - 1) * l)%Z
      by (apply Z.mul_le_mono_nonneg_r; lia).
    lia.
  - destruct (Z.lt_ge_cases p n) as [|Hge]; [assumption|].
    assert (n * l <= p * l)%Z by (apply Z.mul_le_mono_nonneg_r; lia).
    lia.
Qed.

Lemma hasMore_iff_messages_remain_witness :
  exists body,
    GET_session Fixture.world Fixture.db5 (Some "alice") "s1" (Some 2%Z)
                (Some 2%Z) = json body 200
    /\ ChatWindow.hasMore (pagination body) = true.
Proof.
  eexists. split; [reflexivity|].
  apply (hasMore_iff_messages_remain Fixture.world Fixture.db5 (Some "alice")
           "s1" (Some 2%Z) (Some 2%Z) _ 200).
  - intros a x. reflexivity.
  - vm_compute. discriminate.
  - vm_compute. discriminate.
  - reflexivity.
  - vm_compute. reflexivity.
Defined.

Lemma StronglySorted_app_le {A} (R : A -> A -> Prop) (a b : list A) :
  StronglySorted R (a ++ b) -> forall x y, In x a -> In y b -> R x y.
Proof.
  induction a as [|h a IH]; simpl; intros Hs x y Hx Hy; [tauto|].
  inversion Hs as [|? ? Hs' Hall]; subst.
  destruct Hx as [<-|Hx]; [|now apply IH].
  rewrite Forall_forall in Hall. apply Hall. apply in_or_app. now right.
Qed.

Lemma createdAt_le_trans : Relations_1.Transitive createdAt_le.
Proof. intros a b c. unfold createdAt_le. lia. Qed.

Lemma firstn_add_skipn {A} (k n : nat) : forall l : list A,
  firstn (k + n) l = (firstn k l ++ firstn n (skipn k l))%list.
Proof.
  induction k as [|k IH]; intros l; simpl; [reflexivity|].
  destruct l; simpl; [now rewrite firstn_nil | now rewrite IH].
Qed.

(** Two slices of a list sorted by creation time, the second starting at
    or after the end of the first. *)
Lemma slices_in_order (l : list Message.t) (k1 n1 k2 n2 : nat) :
  Sorted createdAt_le l -> k1 + n1 <= k2 ->
  forall x y, In x (firstn n1 (skipn k1 l)) ->
              In y (firstn n2 (skipn k2 l)) -> createdAt_le x y.
Proof.
  intros Hs Hk x y Hx Hy.
  apply (Sorted_StronglySorted createdAt_le_trans) in Hs.
  rewrite <- (firstn_skipn (k1 + n1) l) in Hs.
  apply (StronglySorted_app_le _ _ _ Hs).
  - rewrite firstn_add_skipn. apply in_or_app. now right.
  - apply In_firstn in Hy.
    replace k2 with ((k2 - (k1 + n1)) + (k1 + n1)) in Hy by lia.
    rewrite <- skipn_skipn in Hy. now apply In_skipn in Hy.
Qed.

(** The rows of an answered page, in a message table of fewer than 2^53
    rows: where the offset is rounded it lies beyond the table, as the
    exact offset does. *)
Lemma page_rows (w : World) (d : DB) (auth : option string) (id : string)
      (pageParam limitParam : option Z) (body : SessionPage) (status : nat) :
  (1 <= query_int pageParam 1)%Z -> (1 <= query_int limitParam 50)%Z ->
  (Z.of_nat (length (messages (interleave w AtFind d))) < 2 ^ 53)%Z ->
  GET_session w d auth id pageParam limitParam = json body status ->
  rows (SessionJoined.messages (chatSession body))
  = firstn (Z.to_nat (query_int limitParam 50))
      (skipn (Z.to_nat ((query_int pageParam 1 - 1)
                        * query_int limitParam 50))
         (Prisma.orderBy_createdAt_asc
            (Prisma.messages_of (interleave w AtFind d) id))).
Proof.
  intros Hp Hl Hb H. apply GET_session_inv in H.
  destruct H as (_ & _ & _ & _ & Hrows & _). rewrite Hrows, skip_take_spec.
  destruct (Z.leb_spec 0 (query_int limitParam 50)) as [_|]; [|lia].
  destruct (skip_cases _ _ Hp Hl) as [-> | [H1 H2]]; [reflexivity|].
  assert (Hlen :
    (Z.of_nat (length (Prisma.orderBy_createdAt_asc
                         (Prisma.messages_of (interleave w AtFind d) id)))
     < 2 ^ 53)%Z).
  { rewrite (Permutation_length (orderBy_createdAt_asc_perm _)).
    unfold Prisma.messages_of.
    pose proof (filter_length_le
                  (fun m => String.eqb (Message.sessionId m) id)
                  (messages (interleave w AtFind d))).
    lia. }
  rewrite !skipn_all2 by lia. reflexivity.
Qed.

(** X16: of two pages of one session read from the same store with the
    same limit >= 1, the one with the higher page number holds the more
    recent messages: none of its messages is older than any message of the
    other page. Page 1 is the oldest part of the conversation. The message
    table holds fewer than 2^53 rows: beyond that the doubles the route
    computes offsets with no longer tell neighbouring pages apart. *)
Theorem later_pages_are_newer (w : World) (d : DB) (auth1 auth2 : option string)
        (id : string) (page1 page2 limitParam : option Z)
        (body1 body2 : SessionPage) (status1 status2 : nat) :
  (1 <= query_int page1 1 < query_int page2 1)%Z ->
  (1 <= query_int limitParam 50)%Z ->
  (Z.of_nat (length (messages (interleave w AtFind d))) < 2 ^ 53)%Z ->
  GET_session w d auth1 id page1 limitParam = json body1 status1 ->
  GET_session w d auth2 id page2 limitParam = json body2 status2 ->
  forall m1 m2,
    In m1 (rows (SessionJoined.messages (chatSession body1))) ->
    In m2 (rows (SessionJoined.messages (chatSession body2))) ->
    Message.createdAt m1 <= Message.createdAt m2.
Proof.
  intros Hp Hl Hb H1 H2 m1 m2.
  assert (Hp1 : (1 <= query_int page1 1)%Z) by lia.
  assert (Hp2 : (1 <= query_int page2 1)%Z) by lia.
  rewrite (page_rows _ _ _ _ _ _ _ _ Hp1 Hl Hb H1).
  rewrite (page_rows _ _ _ _ _ _ _ _ Hp2 Hl Hb H2).
  apply slices_in_order; [apply orderBy_createdAt_asc_sorted|].
  rewrite <- Z2Nat.inj_add by nia. apply Z2Nat.inj_le; nia.
Qed.

Lemma later_pages_are_newer_witness :
  exists body1 body2,
    GET_session Fixture.world Fixture.db5 (Some "alice") "s1" (Some 1%Z)
                (Some 2%Z) = json body1 200
    /\ GET_session Fixture.world Fixture.db5 (Some "alice") "s1" (Some 3%Z)
                   (Some 2%Z) = json body2 200
    /\ rows (SessionJoined.messages (chatSession body1))
       = [Fixture.msg "m1" "a" 10; Fixture.msg "m2" "b" 20]
    /\ rows (SessionJoined.messages (chatSession body2))
       = [Fixture.msg "m5" "e" 50]
    /\ forall m1 m2,
        In m1 (rows (SessionJoined.messages (chatSession body1))) ->
        In m2 (rows (SessionJoined.messages (chatSession body2))) ->
        Message.createdAt m1 <= Message.createdAt m2.
Proof.
  eexists. eexists. split; [reflexivity|]. split; [reflexivity|].
  split; [reflexivity|]. split; [reflexivity|].
  apply (later_pages_are_newer Fixture.world Fixture.db5 (Some "alice")
           (Some "alice") "s1" (Some 1%Z) (Some 3%Z) (Some 2%Z) _ _ 200 200).
  - vm_compute. split; [discriminate | reflexivity].
  - vm_compute. discriminate.
  - vm_compute. reflexivity.
  - reflexivity.
  - reflexivity.
Defined.

(* ------------------------------------------------------------------ *)
(** ** The session list *)

Section OrderByDesc.
Variable A : Type.
Variable key : A -> nat.

Let ge (a b : A) : Prop := key b <= key a.

Lemma insert_desc_perm (x : A) (l : list A) :
  Permutation (Query.insert_desc key x l) (x :: l).
Proof.
  induction l as [|y l IH]; simpl; [reflexivity|].
  destruct (Nat.ltb (key y) (key x)); [reflexivity|].
  rewrite IH. apply perm_swap.
Qed.

Lemma insert_desc_hd (y x : A) (l : list A) :
  ge y x -> HdRel ge y l -> HdRel ge y (Query.insert_desc key x l).
Proof.
  intros Hyx Hhd. destruct l as [|z l]; simpl; [now constructor|].
  destruct (Nat.ltb (key z) (key x)); constructor;
    [exact Hyx | now inversion Hhd].
Qed.

Lemma insert_desc_sorted (x : A) (l : list A) :
  Sorted ge l -> Sorted ge (Query.insert_desc key x l).
Proof.
  induction 1 as [|y l Hs IH Hhd]; simpl.
  - repeat constructor.
  - destruct (Nat.ltb_spec (key y) (key x)).
    + constructor; [now constructor|]. constructor. unfold ge. lia.
    + constructor; [exact IH|]. now apply insert_desc_hd.
Qed.

Lemma fold_insert_desc (l : list A) : forall acc,
  Sorted ge acc ->
  Sorted ge (fold_left (fun a x => Query.insert_desc key x a) l acc)
  /\ Permutation (fold_left (fun a x => Query.insert_desc key x a) l acc)
                 (acc ++ l).
Proof.
  induction l as [|x l IH]; intros acc Hacc; simpl.
  - split; [exact Hacc | now rewrite app_nil_r].
  - destruct (IH (Query.insert_desc key x acc)
                 (insert_desc_sorted x acc Hacc)) as [H1 H2].
    split; [exact H1|].
    rewrite H2, insert_desc_perm.
    change (x :: acc ++ l)%list with ((x :: acc) ++ l)%list.
    apply Permutation_middle.
Qed.

Lemma orderBy_desc_sorted (l : list A) :
  Sorted (fun a b => key b <= key a) (Query.orderBy_desc key l).
Proof. apply (fold_insert_desc l []). constructor. Qed.

Lemma orderBy_desc_perm (l : list A) :
  Permutation (Query.orderBy_desc key l) l.
Proof. apply (fold_insert_desc l []). constructor. Qed.

(** The head of a descending order is a maximum of what was ordered. *)
Lemma orderBy_desc_head (l : list A) :
  match hd_error (firstn 1 (Query.orderBy_desc key l)) with
  | None => l = []
  | Some m => In m l /\ forall m', In m' l -> key m' <= key m
  end.
Proof.
  pose proof (orderBy_desc_sorted l) as Hs.
  pose proof (orderBy_desc_perm l) as Hp.
  destruct (Query.orderBy_desc key l) as [|m rest]; simpl.
  - now apply Permutation_nil.
  - split; [apply (Permutation_in _ Hp); now left|].
    intros m' Hm'. apply (Permutation_in _ (Permutation_sym Hp)) in Hm'.
    apply Sorted_StronglySorted in Hs; [|intros a b c; lia].
    inversion Hs as [|? ? _ Hall]; subst.
    destruct Hm' as [<-|Hin]; [lia|].
    rewrite Forall_forall in Hall. now apply Hall.
Qed.
End OrderByDesc.

Lemma join_previews_inv (d : DB) (l : list ChatSession.t) : forall js,
  Query.join_previews d l = inr js ->
  map (@SessionJoined.row Message.t) js = l
  /\ forall j, In j js ->
               SessionJoined.messages j
               = Query.last_message d (SessionJoined.row j).
Proof.
  induction l as [|s l IH]; simpl; intros js H.
  - inversion H. split; [reflexivity | intros j []].
  - unfold Include.join_session in H.
    destruct (Prisma.select_user d (ChatSession.user1Id s)); [|discriminate].
    destruct (Prisma.select_user d (ChatSession.user2Id s)); [|discriminate].
    destruct (Query.join_previews d l) as [e|js']; [discriminate|].
    inversion H; subst. destruct (IH js' eq_refl) as [H1 H2].
    split; [simpl; now rewrite H1|].
    intros j [<-|Hj]; [reflexivity | now apply H2].
Qed.

(** X17: the session list GET /api/sessions answers an authenticated
    caller with holds exactly the sessions the caller takes part in, each
    once, most recently updated first; each entry's lastMessage is a newest
    message of that session, or null exactly when the session has no
    message, and its unreadCount is 0. *)
Theorem GET_sessions_lists_my_sessions (w : World) (d : DB)
        (auth : option string) (body : list SessionPreview) (status : nat) :
  GET_sessions w d auth = json body status ->
  let d0 := interleave w AtFind d in
  status = 200
  /\ exists userId,
      auth = Some userId
      /\ Permutation (map session_of body) (Query.sessions_of d0 userId)
      /\ Sorted updatedAt_ge (map session_of body)
      /\ forall p, In p body ->
           is_participant (session_of p) userId = true
           /\ unreadCount p = 0%Z
           /\ match lastMessage p with
              | None =>
                  Prisma.messages_of d0 (ChatSession.id (session_of p)) = []
              | Some m => newest_of d0 (ChatSession.id (session_of p)) m
              end.
Proof.
  unfold GET_sessions. destruct auth as [userId|]; [|discriminate].
  cbv beta iota zeta.
  destruct (Query.join_previews _ _) as [e|js] eqn:Ej; [discriminate|].
  intros H. inversion H; subst. split; [reflexivity|].
  apply join_previews_inv in Ej. destruct Ej as [Hrows Hlast].
  exists userId. split; [reflexivity|].
  assert (Hmap : map session_of
                   (map (fun session =>
                           mkSessionPreview session
                             (hd_error (SessionJoined.messages session)) 0)
                        js)
                 = Query.orderBy_desc ChatSession.updatedAt
                     (Query.sessions_of (interleave w AtFind d) userId)).
  { rewrite map_map. exact Hrows. }
  rewrite Hmap. split; [apply orderBy_desc_perm|].
  split; [apply orderBy_desc_sorted|].
  intros p Hp. apply in_map_iff in Hp. destruct Hp as (j & <- & Hj).
  unfold session_of. simpl. split; [|split; [reflexivity|]].
  - assert (Hin : In (SessionJoined.row j)
                     (Query.sessions_of (interleave w AtFind d) userId)).
    { apply (Permutation_in _ (orderBy_desc_perm _ ChatSession.updatedAt _)).
      rewrite <- Hrows. now apply in_map. }
    unfold Query.sessions_of in Hin. apply filter_In in Hin. tauto.
  - rewrite (Hlast j Hj). unfold Query.last_message, newest_of.
    apply orderBy_desc_head.
Qed.

Lemma GET_sessions_lists_my_sessions_witness :
  let d := mkDB Fixture.people
             [Fixture.s1; ChatSession.mk "s2" "bob" "carol" false 2 5;
              ChatSession.mk "s3" "alice" "dave" false 3 9]
             [Fixture.msg "m1" "a" 10; Fixture.msg "m2" "b" 20] in
  exists body,
    GET_sessions Fixture.world d (Some "alice") = json body 200
    /\ map session_of body
       = [ChatSession.mk "s3" "alice" "dave" false 3 9; Fixture.s1]
    /\ map lastMessage body = [None; Some (Fixture.msg "m2" "b" 20)]
    /\ Sorted updatedAt_ge (map session_of body).
Proof.
  intros d. eexists. split; [reflexivity|]. split; [reflexivity|].
  split; [reflexivity|].
  destruct (GET_sessions_lists_my_sessions Fixture.world d (Some "alice")
              _ 200 eq_refl) as (_ & u & _ & _ & Hs & _).
  exact Hs.
Defined.

(* ------------------------------------------------------------------ *)
(** ** The client's message list *)




Lemma existsb_has_id (id : string) (l : list MessageData.t) :
  existsb (ChatWindow.has_id id) l = true <-> In id (map MessageData.id l).
Proof.
  rewrite existsb_exists, in_map_iff. unfold ChatWindow.has_id.
  split; intros (m & H1 & H2).
  - apply String.eqb_eq in H2. eauto.
  - exists m. split; [exact H2 | now apply String.eqb_eq].
Qed.

(** X19: the message:receive listener of the open conversation never
    shows a message twice: if the identifiers in the list are distinct
    they stay distinct, a message received a second time changes nothing,
    and a message of another session (or one arriving after the window was
    unmounted) is ignored. *)
Theorem receive_never_duplicates (mounted : bool) (sessionId : string)
        (prev : list MessageData.t) (data : MessageData.t) :
  (NoDup (map MessageData.id prev) ->
   NoDup (map MessageData.id
              (ChatWindow.on_receive mounted sessionId prev data)))
  /\ ChatWindow.on_receive mounted sessionId
       (ChatWindow.on_receive mounted sessionId prev data) data
     = ChatWindow.on_receive mounted sessionId prev data
  /\ (MessageData.sessionId data <> sessionId \/ mounted = false ->
      ChatWindow.on_receive mounted sessionId prev data = prev)
  /\ (mounted = true -> MessageData.sessionId data = sessionId ->
      ~ In (MessageData.id data) (map MessageData.id prev) ->
      ChatWindow.on_receive mounted sessionId prev data
      = (prev ++ [data])%list).
Proof.
  unfold ChatWindow.on_receive.
  destruct (mounted && String.eqb (MessageData.sessionId data) sessionId)
    eqn:Eg.
  - assert (Hguard : ~ (MessageData.sessionId data <> sessionId
                        \/ mounted = false)).
    { apply andb_prop in Eg. destruct Eg as [Em Es].
      apply String.eqb_eq in Es. intros [Hne|Hm]; congruence. }
    destruct (existsb (ChatWindow.has_id (MessageData.id data)) prev)
      eqn:Ee.
    + cbv beta iota. rewrite Ee.
      split; [auto|]. split; [reflexivity|]. split; [tauto|].
      intros _ _ Hnew. exfalso. apply Hnew. now apply existsb_has_id.
    + assert (Hin : existsb (ChatWindow.has_id (MessageData.id data))
                            (prev ++ [data]) = true).
      { rewrite existsb_app. simpl. unfold ChatWindow.has_id at 2.
        rewrite String.eqb_refl. apply orb_true_r. }
      cbv beta iota. rewrite Hin.
      split; [|split; [reflexivity|split; [tauto|auto]]].
      intros Hnd. rewrite map_app. simpl.
      apply NoDup_app; [exact Hnd | repeat constructor; intros [] |].
      intros x Hx [<-|[]]. apply existsb_has_id in Hx. congruence.
  - split; [auto|]. split; [reflexivity|]. split; [reflexivity|].
    intros -> Hs _. rewrite Hs, String.eqb_refl in Eg. discriminate.
Qed.

Lemma receive_never_duplicates_witness :
  let prev := [Sample.received "m1" "one"] in
  ChatWindow.on_receive true "s1"
    (ChatWindow.on_receive true "s1" prev (Sample.received "m2" "two"))
    (Sample.received "m2" "two")
  = [Sample.received "m1" "one"; Sample.received "m2" "two"]
  /\ NoDup (map MessageData.id
                (ChatWindow.on_receive true "s1" prev
                   (Sample.received "m2" "two"))).
Proof.
  intros prev. split; [reflexivity|].
  apply (proj1 (receive_never_duplicates true "s1" prev
                  (Sample.received "m2" "two"))).
  repeat constructor. intros [].
Defined.

(** X20: when the acknowledgment arrives, the placeholder shown for the
    message is replaced by the acknowledged message in place: what was
    shown before it and what arrived after it keep their position, as long
    as no other entry carries the temporary identifier. *)
Theorem sent_replaces_the_placeholder (tempId : string)
        (data optimisticMessage : MessageData.t)
        (prev later : list MessageData.t) :
  MessageData.id optimisticMessage = tempId ->
  ~ In tempId (map MessageData.id prev) ->
  ~ In tempId (map MessageData.id later) ->
  ChatWindow.on_sent tempId data
    (ChatWindow.add_optimistic prev optimisticMessage ++ later)
  = (prev ++ [data] ++ later)%list.
Proof.
  intros Hid Hprev Hlater.
  assert (Hkeep : forall l, ~ In tempId (map MessageData.id l) ->
                            ChatWindow.on_sent tempId data l = l).
  { induction l as [|m l IH]; simpl; intros Hn; [reflexivity|].
    unfold ChatWindow.has_id.
    destruct (String.eqb_spec (MessageData.id m) tempId) as [E|_];
      [tauto|].
    f_equal. apply IH. tauto. }
  unfold ChatWindow.add_optimistic, ChatWindow.on_sent.
  rewrite !map_app. simpl. unfold ChatWindow.has_id at 2.
  rewrite Hid, String.eqb_refl.
  fold (ChatWindow.on_sent tempId data prev).
  fold (ChatWindow.on_sent tempId data later).
  rewrite (Hkeep prev Hprev), (Hkeep later Hlater).
  now rewrite <- app_assoc.
Qed.

Lemma sent_replaces_the_placeholder_witness :
  let tempId := ChatWindow.temp_id "1700000000000" in
  ChatWindow.on_sent tempId (ChatWindow.with_id Sample.placeholder "m9")
    (ChatWindow.add_optimistic [Sample.received "m1" "one"]
                               Sample.placeholder
     ++ [Sample.received "m2" "two"])
  = [Sample.received "m1" "one";
     ChatWindow.with_id Sample.placeholder "m9";
     Sample.received "m2" "two"].
Proof.
  intros tempId.
  apply (sent_replaces_the_placeholder tempId
           (ChatWindow.with_id Sample.placeholder "m9") Sample.placeholder
           [Sample.received "m1" "one"] [Sample.received "m2" "two"]).
  - reflexivity.
  - simpl. intros [H|[]]. discriminate.
  - simpl. intros [H|[]]. discriminate.
Defined.

Lemma length_append (a b : string) :
  String.length (a ++ b) = String.length a + String.length b.
Proof. induction a as [|c a IH]; simpl; [reflexivity | now rewrite IH]. Qed.

Lemma failed_id_differs (tempId : string) :
  ChatWindow.failed_id tempId <> tempId.
Proof.
  intros E. apply (f_equal String.length) in E.
  unfold ChatWindow.failed_id in E. rewrite length_append in E.
  simpl in E. lia.
Qed.

(** X21: after a failed send the window remembers the temporary
    identifier but renames the placeholder to "failed-" followed by it, so
    [handleRetry] finds no message under the remembered identifier and
    changes nothing: neither the list, nor the input, nor the remembered
    identifier. *)
Theorem retry_after_a_failed_send_changes_nothing (tempId : string)
        (st : ChatWindow.Retry) :
  (forall msg, In msg (ChatWindow.messages (ChatWindow.send_failed tempId st))
               -> MessageData.id msg <> tempId)
  /\ ChatWindow.handleRetry (ChatWindow.send_failed tempId st)
     = ChatWindow.send_failed tempId st.
Proof.
  assert (Hnone : forall msg,
             In msg (ChatWindow.mark_failed tempId (ChatWindow.messages st))
             -> MessageData.id msg <> tempId).
  { intros msg Hin. unfold ChatWindow.mark_failed in Hin.
    apply in_map_iff in Hin. destruct Hin as (m & <- & _).
    unfold ChatWindow.has_id.
    destruct (String.eqb_spec (MessageData.id m) tempId) as [|Hne];
      [apply failed_id_differs | exact Hne]. }
  split; [exact Hnone|].
  unfold ChatWindow.handleRetry, ChatWindow.send_failed. simpl.
  destruct (negb (truthy tempId)); [reflexivity|].
  destruct (find (ChatWindow.has_id tempId)
                 (ChatWindow.mark_failed tempId (ChatWindow.messages st)))
    as [m|] eqn:Ef; [|reflexivity].
  apply find_some in Ef. destruct Ef as [Hin Hid].
  apply String.eqb_eq in Hid. now apply Hnone in Hin.
Qed.

(* ------------------------------------------------------------------ *)
(** ** Tokens and the page guard *)

(** X22: a token GET /api/socket/token issues is accepted by the relay's
    handshake under the same NEXTAUTH_SECRET, and binds the socket to the
    identity and email of the session the token was issued for, provided
    jsonwebtoken verifies, at the time of the handshake, the non-empty token
    it signed for those claims. The route issues a token only for a session
    that carries both an id and an email. *)
Theorem issued_token_is_admitted (jwt : JwtLib) (secret : option string)
        (issuedAt connectedAt : nat) (session : option SessionUser)
        (token : string) (status : nat) :
  GET_socket_token jwt secret issuedAt session = json token status ->
  token <> "" ->
  (forall id email s,
      session = Some (mkSessionUser (Some id) (Some email)) ->
      secret = Some s ->
      jwt_verify jwt (jwt_sign jwt (Claims.mk id email) s expiresIn_24h
                               issuedAt)
                 s connectedAt
      = Some (Claims.mk id email)) ->
  exists id email,
    session = Some (mkSessionUser (Some id) (Some email))
    /\ id <> "" /\ email <> ""
    /\ io_use jwt secret connectedAt (Some token) = admitted id email.
Proof.
  unfold GET_socket_token, io_use. intros H Htoken Hlib.
  destruct session as [[[id|] [email|]]|]; try discriminate.
  destruct (truthy id) eqn:Ei; [|discriminate].
  destruct (truthy email) eqn:Ee; [|discriminate]. simpl in H.
  destruct secret as [s|]; [|discriminate].
  destruct (truthy s) eqn:Es; [|discriminate].
  inversion H; subst. apply truthy_true in Htoken. rewrite Htoken. simpl.
  rewrite (Hlib id email s eq_refl eq_refl). simpl.
  exists id, email. repeat split; now apply truthy_true.
Qed.

Lemma issued_token_is_admitted_witness :
  let session := Some (mkSessionUser (Some "alice")
                                     (Some "alice@example.com")) in
  GET_socket_token Sample.toy_jwt (Some "secret") 100 session = json "tok" 200
  /\ exists id email,
      session = Some (mkSessionUser (Some id) (Some email))
      /\ id <> "" /\ email <> ""
      /\ io_use Sample.toy_jwt (Some "secret") 200 (Some "tok")
         = admitted id email.
Proof.
  intros session. split; [reflexivity|].
  apply (issued_token_is_admitted Sample.toy_jwt (Some "secret") 100 200
           session "tok" 200).
  - reflexivity.
  - discriminate.
  - intros id email s Hs _. inversion Hs. reflexivity.
Defined.

(** X23: the page guard never sends a request in circles: the page it
    redirects to is one it lets through for the same visitor. A visitor
    without a session never gets through to a page under /chat, one with a
    session never to a page under /auth, and every other page is let
    through. *)
Theorem middleware_redirects_once (pathname : string)
        (isAuthenticated : bool) :
  (forall target,
      middleware pathname isAuthenticated = redirect target ->
      middleware target isAuthenticated = next)
  /\ (startsWith pathname "/chat" = true ->
      middleware pathname false = redirect "/auth/login")
  /\ (startsWith pathname "/auth" = true ->
      middleware pathname true = redirect "/chat")
  /\ (startsWith pathname "/chat" = false ->
      startsWith pathname "/auth" = false ->
      middleware pathname isAuthenticated = next).
Proof.
  unfold middleware. split; [|split; [|split]].
  - intros target.
    destruct (startsWith pathname "/chat"), (startsWith pathname "/auth"),
      isAuthenticated; simpl; intros H; inversion H; subst; reflexivity.
  - intros ->. reflexivity.
  - intros ->. destruct (startsWith pathname "/chat"); reflexivity.
  - intros -> ->. reflexivity.
Qed.

Lemma middleware_redirects_once_witness :
  middleware "/chat/room" false = redirect "/auth/login"
  /\ middleware "/auth/login" false = next
  /\ middleware "/auth/register" true = redirect "/chat"
  /\ middleware "/about" true = next.
Proof.
  pose proof (middleware_redirects_once "/chat/room" false)
    as (H1 & H2 & _ & _).
  pose proof (middleware_redirects_once "/auth/register" true)
    as (_ & _ & H3 & _).
  pose proof (middleware_redirects_once "/about" true) as (_ & _ & _ & H4).
  split; [apply H2; reflexivity|].
  split; [apply H1; apply H2; reflexivity|].
  split; [apply H3; reflexivity | apply H4; reflexivity].
Defined.

(* ------------------------------------------------------------------ *)
(** ** The schema's constraints are kept *)

Lemma chatSession_findUnique_none_notin (d : DB) (id : string) :
  Prisma.chatSession_findUnique d id = None ->
  ~ In id (map ChatSession.id (chatSessions d)).
Proof.
  unfold Prisma.chatSession_findUnique. intros Hnone Hin.
  apply in_map_iff in Hin. destruct Hin as (s & <- & Hin).
  pose proof (find_none _ _ Hnone s Hin) as Hf. simpl in Hf.
  now rewrite String.eqb_refl in Hf.
Qed.

Lemma chatSession_create_fresh_id (f : Fresh) (d d' : DB) (a b : string)
      (s : ChatSession.t) :
  Prisma.chatSession_create f d a b = inr (s, d') ->
  Prisma.chatSession_findUnique d (newId f) = None.
Proof.
  unfold Prisma.chatSession_create.
  destruct (Prisma.chatSession_findUnique d (newId f)); [|reflexivity].
  discriminate.
Qed.

Lemma well_formed_create (f : Fresh) (d d' : DB) (a b : string)
      (s : ChatSession.t) :
  well_formed d ->
  Prisma.chatSession_create f d a b = inr (s, d') -> well_formed d'.
Proof.
  intros [Hr Hn] H. split.
  - exact (chatSession_create_referential f d d' a b s Hr H).
  - pose proof (chatSession_create_fresh_id _ _ _ _ _ _ H) as Hfresh.
    apply chatSession_create_ok in H. destruct H as (-> & -> & _).
    simpl. rewrite map_app. simpl.
    apply NoDup_app; [exact Hn | repeat constructor; intros [] |].
    intros x Hx [<-|[]]. revert Hx.
    now apply chatSession_findUnique_none_notin.
Qed.

Lemma well_formed_message_create (f : Fresh) (d d' : DB)
      (c s r sid : string) (m : MessageJoined.t) :
  well_formed d ->
  Prisma.message_create f d c s r sid = inr (m, d') -> well_formed d'.
Proof.
  intros [Hr Hn] H. split.
  - exact (message_create_referential f d d' c s r sid m Hr H).
  - apply message_create_ok in H. destruct H as (_ & _ & _ & _ & ->).
    exact Hn.
Qed.

Lemma keys_ids (l l' : list ChatSession.t) :
  map session_key l' = map session_key l ->
  map ChatSession.id l' = map ChatSession.id l.
Proof.
  intros E. change ChatSession.id with (fun s => fst (session_key s)).
  rewrite <- !(map_map session_key fst). now rewrite E.
Qed.

Lemma well_formed_update (d d' : DB) (id : string) (t : nat) :
  well_formed d ->
  Prisma.chatSession_update d id t = inr d' -> well_formed d'.
Proof.
  intros [Hr Hn] H. split.
  - exact (chatSession_update_referential d d' id t Hr H).
  - apply chatSession_update_keys, keys_ids in H. now rewrite H.
Qed.

Lemma on_message_send_well_formed (w : World) (st : Server)
      (socket : Socket.t) (data : SendData) :
  sequential w -> well_formed (db st) ->
  well_formed (db (fst (on_message_send w st socket data))).
Proof.
  intros Hseq Hwf. unfold on_message_send.
  destruct data as [[r|] [cnt|] sid]; simpl; try exact Hwf.
  destruct (negb (truthy r) || negb (truthy cnt)); [exact Hwf|].
  destruct (find_or_create_session w (db st) (Socket.userId socket) r sid)
    as [d res] eqn:Ef.
  apply find_or_create_session_effect in Ef; [|exact Hseq].
  assert (Hd : well_formed d).
  { destruct Ef as [->|(s & _ & _ & _ & Hcr)]; [exact Hwf|].
    exact (well_formed_create _ _ _ _ _ _ Hwf Hcr). }
  destruct res as [e|[session|]]; simpl; try exact Hd.
  rewrite !Hseq.
  destruct (Prisma.message_create _ _ _ _ _ _) as [e|[message d1]] eqn:Em;
    simpl; [exact Hd|].
  apply (well_formed_message_create _ _ _ _ _ _ _ _ Hd) in Em.
  rewrite Hseq.
  destruct (Prisma.chatSession_update d1 _ _) as [e|d3] eqn:Eu; simpl;
    [exact Em|].
  exact (well_formed_update _ _ _ _ Em Eu).
Qed.

Lemma POST_messages_well_formed (w : World) (d d' : DB)
      (auth c r sid : option string) (resp : Response MessageJoined.t) :
  sequential w -> well_formed d ->
  POST_messages w d auth c r sid = (d', resp) -> well_formed d'.
Proof.
  intros Hseq Hwf. unfold POST_messages.
  destruct auth as [senderId|]; [|intros H; inversion H; subst; exact Hwf].
  destruct c as [c|], r as [r|], sid as [sid|];
    try (intros H; inversion H; subst; exact Hwf).
  destruct (negb (truthy c) || negb (truthy r) || negb (truthy sid));
    [intros H; inversion H; subst; exact Hwf|].
  rewrite !Hseq.
  destruct (Prisma.chatSession_findUnique d sid) as [s|];
    [|intros H; inversion H; subst; exact Hwf].
  destruct (negb (is_participant s senderId));
    [intros H; inversion H; subst; exact Hwf|].
  destruct (negb (is_participant s r));
    [intros H; inversion H; subst; exact Hwf|].
  destruct (Prisma.message_create (freshMessage w) d c senderId r sid)
    as [e|[message d2]] eqn:Em;
    [intros H; inversion H; subst; exact Hwf|].
  apply (well_formed_message_create _ _ _ _ _ _ _ _ Hwf) in Em.
  rewrite Hseq.
  destruct (Prisma.chatSession_update d2 sid (clock w)) as [e|d4] eqn:Eu;
    intros H; inversion H; subst; [exact Em|].
  exact (well_formed_update _ _ _ _ Em Eu).
Qed.

(** X24: the three writers keep the schema's constraints: if every stored
    message and session refers to existing users and session identifiers
    are distinct, this still holds after the relay has handled a
    message:send, after POST /api/sessions and after POST /api/messages,
    whatever they answered (no other task interleaved). *)
Theorem writers_keep_the_schema (w : World) (d : DB) :
  sequential w -> well_formed d ->
  (forall st socket data,
      db st = d ->
      well_formed (db (fst (on_message_send w st socket data))))
  /\ (forall auth other, well_formed (fst (POST_sessions w d auth other)))
  /\ (forall auth c r sid,
         well_formed (fst (POST_messages w d auth c r sid))).
Proof.
  intros Hseq Hwf. split; [|split].
  - intros st socket data <-. now apply on_message_send_well_formed.
  - intros auth other.
    destruct (POST_sessions w d auth other) as [d' resp] eqn:E. simpl.
    apply POST_sessions_effect in E; [|exact Hseq].
    destruct E as [->|(A & B & s & _ & _ & Hcr)]; [exact Hwf|].
    exact (well_formed_create _ _ _ _ _ _ Hwf Hcr).
  - intros auth c r sid.
    destruct (POST_messages w d auth c r sid) as [d' resp] eqn:E. simpl.
    exact (POST_messages_well_formed _ _ _ _ _ _ _ _ Hseq Hwf E).
Qed.

Lemma well_formed_db1 : well_formed Fixture.db1.
Proof.
  split; [split|]; simpl.
  - intros m [].
  - intros s [<-|[]]. split; discriminate.
  - repeat constructor. intros [].
Defined.

Lemma writers_keep_the_schema_witness :
  well_formed
    (db (fst (on_message_send Fixture.world (boot Fixture.db1)
                Fixture.bob_tab
                (mkSendData (Some "carol") (Some "hello") None))))
  /\ well_formed (fst (POST_sessions Fixture.world Fixture.db1 (Some "dave")
                         (Some "alice"))).
Proof.
  assert (Hseq : sequential Fixture.world) by (intros a x; reflexivity).
  pose proof (writers_keep_the_schema Fixture.world Fixture.db1 Hseq
                well_formed_db1) as (H1 & H2 & _).
  split; [now apply H1 | apply H2].
Defined.

(* ------------------------------------------------------------------ *)
(** ** From the relay to the history *)

Lemma send_acknowledged_inv (w : World) (st : Server) (socket : Socket.t)
      (r c target : string) (md : MessageData.t) :
  In (socket_emit target (message_sent md))
     (snd (on_message_send w st socket (mkSendData (Some r) (Some c) None)))
  ->
  exists d1 s message d2 d3,
    session_of_pair w (db st) (Socket.userId socket) r = (d1, inr (Some s))
    /\ Prisma.message_create (freshMessage w)
         (interleave w AtMessageCreate d1) c (Socket.userId socket) r
         (ChatSession.id s) = inr (message, d2)
    /\ Prisma.chatSession_update (interleave w AtUpdate d2)
         (ChatSession.id s) (clock w) = inr d3
    /\ db (fst (on_message_send w st socket
                  (mkSendData (Some r) (Some c) None))) = d3
    /\ md = MessageData.of_message message.
Proof.
  unfold on_message_send, missing_fields, send_failed,
    find_or_create_session. simpl.
  destruct (negb (truthy r) || negb (truthy c));
    [intros [H|[]]; discriminate|].
  destruct (session_of_pair w (db st) (Socket.userId socket) r)
    as [d1 [e|[s|]]]; try (intros [H|[]]; discriminate).
  destruct (Prisma.message_create _ _ _ _ _ _) as [e|[message d2]] eqn:Em;
    [intros [H|[]]; discriminate|].
  destruct (Prisma.chatSession_update _ _ _) as [e|d3] eqn:Eu;
    [intros [H|[]]; discriminate|].
  simpl. intros Hin. apply deliver_and_confirm_payloads in Hin.
  simpl in Hin. destruct Hin as [Hin|Hin]; [discriminate|].
  inversion Hin; subst. exists d1, s, message, d2, d3. auto.
Qed.

Lemma find_after_update (l : list ChatSession.t) (s : ChatSession.t)
      (t : nat) :
  NoDup (map ChatSession.id l) -> In s l ->
  find (fun x => String.eqb (ChatSession.id x) (ChatSession.id s))
       (map (fun x => if String.eqb (ChatSession.id x) (ChatSession.id s)
                      then ChatSession.with_updatedAt x t else x) l)
  = Some (ChatSession.with_updatedAt s t).
Proof.
  induction l as [|x l IH]; simpl; [tauto|].
  intros Hnd Hin. inversion Hnd as [|? ? Hnotin Hnd']; subst.
  destruct (String.eqb_spec (ChatSession.id x) (ChatSession.id s))
    as [E|Hne]; simpl.
  - rewrite E, String.eqb_refl.
    destruct Hin as [->|Hin]; [reflexivity|].
    exfalso. apply Hnotin. rewrite E. now apply in_map.
  - destruct (String.eqb_spec (ChatSession.id x) (ChatSession.id s));
      [contradiction|].
    destruct Hin as [->|Hin]; [contradiction | now apply IH].
Qed.

Lemma join_messages_each (d : DB) (l : list Message.t) : forall js,
  Prisma.join_messages d l = inr js ->
  forall j, In j js -> Prisma.join_message d (MessageJoined.row j) = inr j.
Proof.
  induction l as [|m l IH]; simpl; intros js H j Hj.
  - inversion H; subst. destruct Hj.
  - destruct (Prisma.join_message d m) as [e|jm] eqn:Ej; [discriminate|].
    destruct (Prisma.join_messages d l) as [e|js']; [discriminate|].
    inversion H; subst. destruct Hj as [<-|Hj]; [|now apply (IH js')].
    unfold Prisma.join_message in Ej.
    destruct (Prisma.select_user d (Message.senderId m)) eqn:E1;
      [|discriminate].
    destruct (Prisma.select_user d (Message.recipientId m)) eqn:E2;
      [|discriminate].
    inversion Ej; subst. unfold Prisma.join_message. simpl.
    now rewrite E1, E2.
Qed.

(** X25: a message the relay acknowledged (one sent without naming a
    session, so the session was resolved from the pair) is in the history:
    GET /api/messages for the message's session answers its sender and its
    recipient with a list that contains exactly the acknowledged message,
    joined users included; this holds whether or not the recipient was
    connected when it was sent. The store is assumed to satisfy the
    schema's constraints, and no other task to interleave. *)
Theorem acknowledged_message_is_in_the_history (w w' : World) (st : Server)
        (socket : Socket.t) (r c : string) (md : MessageData.t)
        (reader : string) :
  sequential w -> sequential w' -> well_formed (db st) ->
  MessageData.sessionId md <> "" ->
  In (socket_emit (Socket.id socket) (message_sent md))
     (snd (on_message_send w st socket (mkSendData (Some r) (Some c) None)))
  ->
  reader = Socket.userId socket \/ reader = r ->
  exists body,
    GET_messages w' (fun d => d)
      (db (fst (on_message_send w st socket
                  (mkSendData (Some r) (Some c) None))))
      (Some reader) (Some (MessageData.sessionId md))
    = json body 200
    /\ exists j, In j body /\ MessageData.of_message j = md.
Proof.
  intros Hseq Hseq' Hwf Hsid Hack Hreader.
  pose proof (on_message_send_well_formed w st socket
                (mkSendData (Some r) (Some c) None) Hseq Hwf) as Hwf3.
  apply send_acknowledged_inv in Hack.
  destruct Hack as (d1 & s & message & d2 & d3 & Hpair & Hm & Hu & Hdb & ->).
  rewrite Hdb in *. rewrite Hseq in Hm, Hu.
  assert (Hwf1 : well_formed d1).
  { pose proof Hpair as Hp.
    change (session_of_pair w (db st) (Socket.userId socket) r)
      with (find_or_create_session w (db st) (Socket.userId socket) r None)
      in Hp.
    apply find_or_create_session_effect in Hp; [|exact Hseq].
    destruct Hp as [->|(s0 & _ & _ & _ & Hcr)]; [exact Hwf|].
    exact (well_formed_create _ _ _ _ _ _ Hwf Hcr). }
  apply session_of_pair_spec in Hpair; [|exact Hseq].
  destruct Hpair as (_ & _ & _ & Hs). destruct (Hs s eq_refl) as [Hin Hsort].
  apply is_participant_sort2 in Hsort.
  pose proof Hm as Hm'. apply message_create_ok in Hm'.
  destruct Hm' as (Hrow & Hsender & Hrecipient & _ & Hd2).
  assert (Hsessions : chatSessions d3
            = map (fun x => if String.eqb (ChatSession.id x) (ChatSession.id s)
                            then ChatSession.with_updatedAt x (clock w)
                            else x) (chatSessions d1)
          /\ messages d3 = (messages d1 ++ [MessageJoined.row message])%list
          /\ users d3 = users d1).
  { revert Hu. unfold Prisma.chatSession_update.
    destruct (Prisma.chatSession_findUnique d2 (ChatSession.id s));
      [|discriminate].
    intros H. inversion H; subst. simpl. auto. }
  destruct Hsessions as (Hs3 & Hm3 & Hu3).
  unfold MessageData.of_message at 1. rewrite Hrow. simpl.
  assert (Hfind : Prisma.chatSession_findUnique d3 (ChatSession.id s)
                  = Some (ChatSession.with_updatedAt s (clock w))).
  { unfold Prisma.chatSession_findUnique. rewrite Hs3.
    apply find_after_update; [apply Hwf1 | exact Hin]. }
  assert (Hpart : is_participant (ChatSession.with_updatedAt s (clock w))
                                 reader = true).
  { change (is_participant s reader = true).
    destruct Hreader as [-> | ->]; tauto. }
  set (ordered := Prisma.orderBy_createdAt_asc
                    (Prisma.messages_of d3 (ChatSession.id s))).
  destruct (join_messages_ok d3 ordered) as (js & Hjs & Hrows).
  { intros m Hin_m. apply (proj1 Hwf3).
    apply (Permutation_in _ (orderBy_createdAt_asc_perm _)) in Hin_m.
    now apply messages_of_session in Hin_m. }
  exists js. split.
  - unfold GET_messages. apply truthy_true in Hsid.
    unfold MessageData.of_message in Hsid. rewrite Hrow in Hsid.
    simpl in Hsid. rewrite Hsid. simpl.
    rewrite Hseq', Hfind, Hpart. simpl. fold ordered. now rewrite Hjs.
  - assert (Hrow_in : In (MessageJoined.row message) ordered).
    { apply (Permutation_in _
               (Permutation_sym (orderBy_createdAt_asc_perm _))).
      unfold Prisma.messages_of. apply filter_In. split.
      - rewrite Hm3. apply in_or_app. right. now left.
      - rewrite Hrow. simpl. apply String.eqb_refl. }
    rewrite <- Hrows in Hrow_in. apply in_map_iff in Hrow_in.
    destruct Hrow_in as (j & Hj & Hjin). exists j. split; [exact Hjin|].
    pose proof (join_messages_each _ _ _ Hjs j Hjin) as Hjoin.
    unfold Prisma.join_message in Hjoin. rewrite Hj, Hrow in Hjoin.
    simpl in Hjoin.
    rewrite !(select_user_users d1 d3 _ Hu3) in Hjoin.
    rewrite Hsender, Hrecipient in Hjoin. inversion Hjoin.
    unfold MessageData.of_message. rewrite Hrow. reflexivity.
Qed.

Lemma acknowledged_message_is_in_the_history_witness :
  let st := fst (step (boot Fixture.db1) (Connection Fixture.alice_tab1)) in
  let data := mkSendData (Some "bob") (Some "hi") None in
  let md := MessageData.mk "m9" "hi" "alice" "bob" "s1" 8
              (UserSelect.of_user (Fixture.user "alice"))
              (UserSelect.of_user (Fixture.user "bob")) in
  snd (on_message_send Fixture.world st Fixture.alice_tab1 data)
  = [socket_emit "sock-a1" (message_sent md)]
  /\ exists body,
      GET_messages Fixture.world (fun d => d)
        (db (fst (on_message_send Fixture.world st Fixture.alice_tab1 data)))
        (Some "bob") (Some "s1") = json body 200
      /\ exists j, In j body /\ MessageData.of_message j = md.
Proof.
  intros st data md. split; [reflexivity|].
  assert (Hseq : sequential Fixture.world) by (intros a x; reflexivity).
  apply (acknowledged_message_is_in_the_history Fixture.world Fixture.world
           st Fixture.alice_tab1 "bob" "hi" md "bob" Hseq Hseq
           well_formed_db1).
  - discriminate.
  - now left.
  - now right.
Defined.
